(** * DefectDojo triage extension: triage store, submission, aggregation and
    dependency location

    A shallow embedding of the core of the extension:
    - the triage store, class [TriageStore] (the module the other files
      import as [./triageStore]; [src/unnamed/part_003]);
    - [isTriageModified] and [validateTriageData] ([src/src/utils.ts]);
    - [DefectDojoClient.updateFinding] (the module imported as
      [./defectDojoClient]; [src/src/utils/text.ts]);
    - the submit-triage command ([src/src/commands/registerCommands.ts]);
    - [extractComponentInfo], [aggregateDependencyTrackFindings] and
      [findDependencyInProject] ([src/src/utils.ts]);
    - the types of [src/unnamed/part_002];
    - the message handler of the details panel and the badge script
      ([src/unnamed/part_001]), [initializeTriageFromFinding]
      ([src/src/panels/settingsPanel.ts]), the state text of a tree item
      ([src/src/models/findingTreeItem.ts]);
    - [escapeHtml], [truncateText] ([src/src/utils/text.ts]) and
      [normalizeFilePath] ([src/src/utils.ts]);
    - the search in the list of findings
      ([src/src/providers/findingsProvider.ts] and the search command).

    Conventions.  A TypeScript optional field [x?: T] is an [option T],
    [None] standing for [undefined].  Finding identifiers ([number]) are
    integers [Z].  Strings are [string]s of ASCII characters: white space,
    digits, letters and word characters are those of ASCII, and letters are
    compared without case by folding A-Z onto a-z.  Paths are POSIX paths.
    A [Date] is the integer number of milliseconds it holds. *)

From Stdlib Require Import ZArith String Ascii List Bool Lia DecimalString.
From stdpp Require Import base option list gmap.
Import ListNotations.

Local Open Scope Z_scope.
Local Open Scope string_scope.

(** ** JavaScript truthiness on the types used below *)

Module Js.

(** [!!s] for a possibly undefined string: the empty string is falsy. *)
Definition truthyStr (s : option string) : bool :=
  match s with
  | Some EmptyString => false
  | Some _ => true
  | None => false
  end.

(** [!!b] for a possibly undefined boolean. *)
Definition truthyBool (b : option bool) : bool :=
  match b with
  | Some true => true
  | _ => false
  end.

(** [!!x] for a possibly undefined value of a type all of whose values are
    truthy (non-empty string literals, objects). *)
Definition truthyOpt {A} (x : option A) : bool :=
  match x with
  | Some _ => true
  | None => false
  end.

(** [a || d] on strings. *)
Definition orStr (a : option string) (d : string) : string :=
  match a with
  | Some EmptyString => d
  | Some s => s
  | None => d
  end.

End Js.

(** ** The types of the triage data ([src/unnamed/part_002]) *)

Inductive TriageStatus : Type :=
  | FalsePositive   (* 'False positive' *)
  | OutOfScope      (* 'Out Of Scope' *)
  | Verified        (* 'Verified' *)
  | Close.          (* 'Close' *)

#[global] Instance TriageStatus_eq_dec : EqDecision TriageStatus.
Proof. solve_decision. Defined.

#[global] Instance string_eq_dec' : EqDecision string := String.string_dec.

Record TriageData : Type := mkTriageData {
  impact : option string;
  mitigation : option string;
  status : option TriageStatus;
  submitted : option bool;
  submittedAt : option Z;
  modified : option bool;
  originalImpact : option string;
  originalMitigation : option string;
  originalStatus : option TriageStatus;
}.

(** The object literal [{}]. *)
Definition emptyTriage : TriageData :=
  mkTriageData None None None None None None None None None.

(** ** [isTriageModified] ([src/src/utils.ts]) *)

(** [a !== b] on optional values. *)
Definition strictNe {A} `{EqDecision A} (a b : option A) : bool :=
  negb (bool_decide (a = b)).

Definition isTriageModified (triage : TriageData) : bool :=
  if negb (Js.truthyBool (submitted triage))
     || negb (Js.truthyStr (originalImpact triage))
  then false
  else strictNe (impact triage) (originalImpact triage)
       || strictNe (mitigation triage) (originalMitigation triage)
       || strictNe (status triage) (originalStatus triage).

(** ** The triage store ([src/unnamed/part_003]) *)

Module TriageStore.

Definition get (findingId : Z) (store : gmap Z TriageData) : option TriageData :=
  store !! findingId.

Definition set (findingId : Z) (data : TriageData) (store : gmap Z TriageData)
  : gmap Z TriageData :=
  <[findingId := data]> store.

(** [this.get(findingId) || {}] *)
Definition getOrEmpty (findingId : Z) (store : gmap Z TriageData) : TriageData :=
  match get findingId store with
  | Some triage => triage
  | None => emptyTriage
  end.

(** [newTriage.modified = isTriageModified(newTriage)] *)
Definition recompute (newTriage : TriageData) : TriageData :=
  let m := isTriageModified newTriage in
  mkTriageData (impact newTriage) (mitigation newTriage) (status newTriage)
    (submitted newTriage) (submittedAt newTriage) (Some m)
    (originalImpact newTriage) (originalMitigation newTriage)
    (originalStatus newTriage).

Definition updateImpact (findingId : Z) (impact' : string)
    (store : gmap Z TriageData) : gmap Z TriageData :=
  let triage := getOrEmpty findingId store in
  let newTriage :=
    mkTriageData (Some impact') (mitigation triage) (status triage)
      (submitted triage) (submittedAt triage) (modified triage)
      (originalImpact triage) (originalMitigation triage)
      (originalStatus triage) in
  let newTriage :=
    if Js.truthyBool (submitted triage)
       && bool_decide (originalImpact triage <> None)
    then recompute newTriage else newTriage in
  set findingId newTriage store.

Definition updateMitigation (findingId : Z) (mitigation' : string)
    (store : gmap Z TriageData) : gmap Z TriageData :=
  let triage := getOrEmpty findingId store in
  let newTriage :=
    mkTriageData (impact triage) (Some mitigation') (status triage)
      (submitted triage) (submittedAt triage) (modified triage)
      (originalImpact triage) (originalMitigation triage)
      (originalStatus triage) in
  let newTriage :=
    if Js.truthyBool (submitted triage)
       && bool_decide (originalMitigation triage <> None)
    then recompute newTriage else newTriage in
  set findingId newTriage store.

(** The parameter has type [TriageData['status']], which includes
    [undefined]. *)
Definition updateStatus (findingId : Z) (status' : option TriageStatus)
    (store : gmap Z TriageData) : gmap Z TriageData :=
  let triage := getOrEmpty findingId store in
  let newTriage :=
    mkTriageData (impact triage) (mitigation triage) status'
      (submitted triage) (submittedAt triage) (modified triage)
      (originalImpact triage) (originalMitigation triage)
      (originalStatus triage) in
  let newTriage :=
    if Js.truthyBool (submitted triage)
       && bool_decide (originalStatus triage <> None)
    then recompute newTriage else newTriage in
  set findingId newTriage store.

(** [now] is the value of [new Date()] at the call. *)
Definition markAsSubmitted (findingId : Z) (now : Z)
    (store : gmap Z TriageData) : gmap Z TriageData :=
  match get findingId store with
  | None => store
  | Some triage =>
      set findingId
        (mkTriageData (impact triage) (mitigation triage) (status triage)
           (Some true) (Some now) (Some false)
           (impact triage) (mitigation triage) (status triage))
        store
  end.

Definition clear (store : gmap Z TriageData) : gmap Z TriageData := ∅.

(** The mutating calls the rest of the extension makes on the store, and
    runs of them. *)
Inductive Op : Type :=
  | OpUpdateImpact (findingId : Z) (impact' : string)
  | OpUpdateMitigation (findingId : Z) (mitigation' : string)
  | OpUpdateStatus (findingId : Z) (status' : option TriageStatus)
  | OpMarkAsSubmitted (findingId : Z) (now : Z)
  | OpClear.

Definition step (store : gmap Z TriageData) (op : Op) : gmap Z TriageData :=
  match op with
  | OpUpdateImpact i s => updateImpact i s store
  | OpUpdateMitigation i s => updateMitigation i s store
  | OpUpdateStatus i s => updateStatus i s store
  | OpMarkAsSubmitted i now => markAsSubmitted i now store
  | OpClear => clear store
  end.

Definition run (ops : list Op) (store : gmap Z TriageData) : gmap Z TriageData :=
  fold_left step ops store.

Definition isUpdate (op : Op) : bool :=
  match op with
  | OpUpdateImpact _ _ | OpUpdateMitigation _ _ | OpUpdateStatus _ _ => true
  | _ => false
  end.

(** [triageStore.get(findingId)?.modified] *)
Definition modifiedOf (findingId : Z) (store : gmap Z TriageData) : option bool :=
  match get findingId store with
  | Some triage => modified triage
  | None => None
  end.

(** A record that is not submitted has no [modified] field, and so has
    every record of a store. *)
Definition recordOk (triage : TriageData) : Prop :=
  Js.truthyBool (submitted triage) = false -> modified triage = None.

Definition storeOk (store : gmap Z TriageData) : Prop :=
  forall findingId triage, get findingId store = Some triage -> recordOk triage.

(** A record whose frozen impact is empty or absent has a [modified] that
    is not true, and so has every record of a store. *)
Definition snapshotOk (triage : TriageData) : Prop :=
  Js.truthyStr (originalImpact triage) = false -> modified triage <> Some true.

Definition snapshotStoreOk (store : gmap Z TriageData) : Prop :=
  forall findingId triage,
    get findingId store = Some triage -> snapshotOk triage.

End TriageStore.

(** ** Characters and strings the way the JavaScript code uses them *)

Module Str.

(** White space of [String.prototype.trim] and of the class [\s]:
    TAB, LF, VT, FF, CR and SPACE. *)
Definition isSpace (c : ascii) : bool :=
  let n := nat_of_ascii c in
  ((9 <=? n)%nat && (n <=? 13)%nat) || (n =? 32)%nat.

Fixpoint trimStart (s : string) : string :=
  match s with
  | String c s' => if isSpace c then trimStart s' else s
  | EmptyString => EmptyString
  end.

(** [trimEnd] keeps a character when it is not white space or when
    something other than white space follows it. *)
Fixpoint trimEnd (s : string) : string :=
  match s with
  | String c s' =>
      match trimEnd s' with
      | EmptyString => if isSpace c then EmptyString else String c EmptyString
      | rest => String c rest
      end
  | EmptyString => EmptyString
  end.

Definition trim (s : string) : string := trimEnd (trimStart s).

Definition isEmpty (s : string) : bool :=
  match s with
  | EmptyString => true
  | _ => false
  end.

(** [Array.prototype.join]. *)
Fixpoint join (sep : string) (parts : list string) : string :=
  match parts with
  | [] => EmptyString
  | [p] => p
  | p :: rest => p ++ sep ++ join sep rest
  end.

(** [String(n)] for an integer. *)
Definition ofZ (n : Z) : string := NilZero.string_of_int (Z.to_int n).

Definition ofNat (n : nat) : string := NilZero.string_of_uint (Nat.to_uint n).

End Str.

(** ** [validateTriageData] ([src/src/utils.ts]) *)

Record Validation : Type := mkValidation {
  isValid : bool;
  errors : list string;
}.

Definition blankOrMissing (s : option string) : bool :=
  match s with
  | Some v => negb (Js.truthyStr s) || Str.isEmpty (Str.trim v)
  | None => true
  end.

Definition validateTriageData (triage : option TriageData) : Validation :=
  match triage with
  | None => mkValidation false ["Triage data not found"]
  | Some triage =>
      let errors :=
        ((if blankOrMissing (impact triage) then ["Impact is required"] else [])
         ++ (if blankOrMissing (mitigation triage)
             then ["Mitigation is required"] else [])
         ++ (if negb (Js.truthyOpt (status triage))
             then ["Status is required"] else []))%list in
      mkValidation (Nat.eqb (length errors) 0) errors
  end.

(** ** [DefectDojoClient.updateFinding] ([src/src/utils/text.ts]) *)

Module Client.

(** The [data] argument of [updateFinding]. *)
Record UpdateInput : Type := mkUpdateInput {
  u_impact : string;
  u_mitigation : string;
  u_status : TriageStatus;
}.

Inductive JsonVal : Type :=
  | JStr (s : string)
  | JBool (b : bool).

(** [updateData: Record<string, unknown>], its properties in the order in
    which they are assigned (each key is assigned once). *)
Definition updateData (data : UpdateInput) : list (string * JsonVal) :=
  ([("impact", JStr (u_impact data)); ("mitigation", JStr (u_mitigation data))]
  ++ match u_status data with
     | Verified =>
         [("verified", JBool true); ("active", JBool true);
          ("false_p", JBool false); ("out_of_scope", JBool false)]
     | FalsePositive =>
         [("false_p", JBool true); ("active", JBool false);
          ("out_of_scope", JBool false)]
     | OutOfScope =>
         [("out_of_scope", JBool true); ("active", JBool false);
          ("false_p", JBool false); ("push_to_jira", JBool true)]
     | Close =>
         [("verified", JBool false); ("active", JBool false);
          ("false_p", JBool false); ("out_of_scope", JBool false)]
     end)%list.

(** The remote service as [updateFinding] sees it: the PATCH of
    [/api/v2/findings/{id}/] with a body either succeeds ([None]) or fails
    with the message [handleError] extracts ([Some msg]); the answer is a
    function of the request. *)
Definition Server : Type := Z -> list (string * JsonVal) -> option string.

(** What a call of [updateFinding] does: it throws [Error(msg)], or returns,
    and then always [undefined] (the only [return] of the body). *)
Inductive Outcome (A : Type) : Type :=
  | Returned (a : A)
  | Thrown (msg : string).
Arguments Returned {A} a.
Arguments Thrown {A} msg.

(** The result type [{ jiraError?: string } | undefined]; [None] is
    [undefined]. *)
Definition updateFinding (server : Server) (findingId : Z) (data : UpdateInput)
  : Outcome (option (option string)) :=
  match server findingId (updateData data) with
  | None => Returned None
  | Some msg => Thrown msg
  end.

End Client.

(** ** The type of a finding ([src/unnamed/part_002]) *)

Inductive Severity : Type := Critical | High | Medium | Low | Info.

(** The declared fields of [Finding], the two members of its index
    signature that the code reads ([component_name], [component_version],
    kept when they hold a string) and the aggregation fields.  [severity]
    is optional because the code tests it for absence. *)
#[warnings="-register-all"]
Inductive Finding : Type := mkFinding {
  id : Z;
  title : string;
  description : string;
  severity : option Severity;
  cwe : option Z;
  url : string;
  file_path : string;
  line : option Z;
  active : bool;
  verified : bool;
  duplicate : bool;
  false_p : bool;
  risk_accepted : bool;
  test : Z;
  test_type : Z;
  component_name : option string;
  component_version : option string;
  _aggregatedFindingIds : option (list Z);
  _isAggregated : option bool;
  _originalFindings : option (list Finding);
}.

(** ** The submit-triage command ([src/src/commands/registerCommands.ts]) *)

Module Submit.

Import Client.

(** The settings [apiToken] and [url] of the workspace configuration. *)
Record Config : Type := mkConfig {
  apiToken : string;
  url : string;
}.

(** What the command does to the outside, in the order in which it does
    it. *)
Inductive Effect : Type :=
  | ShowWarningMessage (msg : string)
  | ShowErrorMessage (msg : string)
  | ShowInformationMessage (msg : string)
  | ProgressReport (increment : Z) (message : string)
  | UpdateFinding (findingId : Z) (data : UpdateInput)
  | MarkAsSubmitted (findingId : Z)
  | Refresh                       (* findingsProvider.refresh() *)
  | UpdatePanel.                  (* FindingDetailsPanel.currentPanel._update() *)

Definition NO_FINDING_SELECTED : string := "No finding selected".
Definition FILL_ALL_FIELDS : string :=
  "Fill all required fields (Impact, Mitigation, and Status) before submitting".
Definition CONFIGURE_CONNECTION : string :=
  "Configure the DefectDojo connection parameters".
Definition TRIAGE_SUBMITTED (findingId : Z) : string :=
  "✓ Triage data for finding #" ++ Str.ofZ findingId ++ " sent successfully".

Record State : Type := mkState {
  store : gmap Z TriageData;
  log : list Effect;            (* most recent effect last *)
  completed : nat;
  jiraErrors : list (Z * string);
}.

Definition emit (e : list Effect) (st : State) : State :=
  mkState (store st) (log st ++ e)%list (completed st) (jiraErrors st).

Section Loop.

Variable server : Server.
(** [clock k] is the value of [new Date()] at the [k]-th call of
    [markAsSubmitted] of the run, counted from 0. *)
Variable clock : nat -> Z.
Variable isAggregated : bool.
Variable data : UpdateInput.
Variable totalFindings : nat.

(** One iteration of [for (const id of originalFindingIds)].  The second
    component is the message of the error [client.updateFinding] threw, if
    it threw; the state is then the one reached at the throw, for the store
    and the log are shared with the handler. *)
Definition iteration (findingId : Z) (st : State) : State * option string :=
  let st :=
    emit [ProgressReport (70 / Z.of_nat totalFindings)
            (if isAggregated
             then "Sending data to DefectDojo... ("
                  ++ Str.ofNat (completed st + 1) ++ "/"
                  ++ Str.ofNat totalFindings ++ ")"
             else "Sending data to DefectDojo...")] st in
  let st := emit [UpdateFinding findingId data] st in
  match updateFinding server findingId data with
  | Thrown msg => (st, Some msg)
  | Returned result =>
      let errs :=
        match result with
        | Some (Some jiraError) =>
            if Js.truthyStr (Some jiraError)
            then (jiraErrors st ++ [(findingId, jiraError)])%list
            else jiraErrors st
        | _ => jiraErrors st
        end in
      (mkState
         (TriageStore.markAsSubmitted findingId (clock (completed st))
            (store st))
         (log st ++ [MarkAsSubmitted findingId])%list
         (S (completed st))
         errs,
       None)
  end.

(** The loop stops at the first throw. *)
Fixpoint loop (ids : list Z) (st : State) : State * option string :=
  match ids with
  | [] => (st, None)
  | findingId :: rest =>
      match iteration findingId st with
      | (st', Some msg) => (st', Some msg)
      | (st', None) => loop rest st'
      end
  end.

End Loop.

Definition jiraWarning (errs : list (Z * string)) : list Effect :=
  match errs with
  | [] => []
  | [_] =>
      [ShowWarningMessage
         ("Triage data submitted, but Jira push failed:" ++ String "010" EmptyString
          ++ Str.join (String "010" EmptyString)
               (map (fun e => "Finding #" ++ Str.ofZ (fst e) ++ ": " ++ snd e)
                  errs))]
  | _ =>
      [ShowWarningMessage
         ("Triage data submitted, but Jira push failed for "
          ++ Str.ofNat (length errs) ++ " findings.")]
  end.

(** [finding._aggregatedFindingIds || [findingId]]: an array, even an
    empty one, is truthy. *)
Definition originalFindingIds (finding : Finding) : list Z :=
  match _aggregatedFindingIds finding with
  | Some ids => ids
  | None => [id finding]
  end.

(** The command handler, from the finding [extractFinding] returns
    ([None] when it returns [null]) to the end of the handler.  [panel] is
    the id of the finding the details panel shows, if the panel is open
    with a finding.  The result is the store and the effects, in order. *)
Definition submitTriage (config : Config) (server : Server) (clock : nat -> Z)
    (panel : option Z) (result : option Finding) (store0 : gmap Z TriageData)
  : gmap Z TriageData * list Effect :=
  match result with
  | None => (store0, [ShowWarningMessage NO_FINDING_SELECTED])
  | Some finding =>
      let triage := TriageStore.get (id finding) store0 in
      if negb (isValid (validateTriageData triage))
      then (store0, [ShowWarningMessage FILL_ALL_FIELDS])
      else
        match triage with
        | Some (mkTriageData (Some impact) (Some mitigation) (Some status)
                  _ _ _ _ _ _) =>
            if negb (Js.truthyStr (Some impact))
               || negb (Js.truthyStr (Some mitigation))
            then (store0, [ShowWarningMessage FILL_ALL_FIELDS])
            else if negb (Js.truthyStr (Some (apiToken config)))
                    || negb (Js.truthyStr (Some (url config)))
            then (store0, [ShowErrorMessage CONFIGURE_CONNECTION])
            else
              let findingId := id finding in
              let isAggregated :=
                bool_decide (_isAggregated finding = Some true) in
              let ids := originalFindingIds finding in
              let data := mkUpdateInput impact mitigation status in
              let totalFindings := length ids in
              let st0 :=
                mkState store0 [ProgressReport 0 "Preparing data..."] 0 [] in
              match loop server clock isAggregated data totalFindings ids st0
              with
              | (st, Some msg) =>
                  (store st,
                   log st
                   ++ [ShowErrorMessage ("Error submitting data: " ++ msg)])%list
              | (st, None) =>
                  (store st,
                   log st ++ jiraWarning (jiraErrors st)
                   ++ [ProgressReport 100 "Submitted"; Refresh]
                   ++ (if bool_decide (panel = Some findingId)
                       then [UpdatePanel] else [])
                   ++ [ShowInformationMessage
                         (if isAggregated
                          then "Triage data submitted for "
                               ++ Str.ofNat totalFindings
                               ++ " findings (IDs: "
                               ++ Str.join ", " (map Str.ofZ ids)
                               ++ ")"
                          else TRIAGE_SUBMITTED findingId)])%list
              end
        | _ => (store0, [ShowWarningMessage FILL_ALL_FIELDS])
        end
  end.

(** The calls of [client.updateFinding] of a run, in order. *)
Definition patchCalls (l : list Effect) : list (Z * UpdateInput) :=
  flat_map (fun e => match e with
                     | UpdateFinding i d => [(i, d)]
                     | _ => []
                     end) l.

(** The calls of the client and of [triageStore.markAsSubmitted] of a run,
    in order. *)
Definition isCall (e : Effect) : bool :=
  match e with
  | UpdateFinding _ _ | MarkAsSubmitted _ => true
  | _ => false
  end.

Definition calls (l : list Effect) : list Effect := List.filter isCall l.

(** The calls a run makes for [ids] when every call before a failing one
    is followed by its [markAsSubmitted] and nothing follows a failing
    one. *)
Fixpoint expectedCalls (server : Server) (data : UpdateInput) (ids : list Z)
  : list Effect :=
  match ids with
  | [] => []
  | i :: rest =>
      UpdateFinding i data
      :: match server i (updateData data) with
         | None => MarkAsSubmitted i :: expectedCalls server data rest
         | Some _ => []
         end
  end.

End Submit.

(** ** [extractComponentInfo] ([src/src/utils.ts]) *)

Module Component.

Record ComponentInfo : Type := mkComponentInfo {
  name : string;
  version : option string;
}.

(** The longest prefix of [s] whose characters satisfy [p], and the rest. *)
Fixpoint span (p : ascii -> bool) (s : string) : string * string :=
  match s with
  | String c s' =>
      if p c then let (a, b) := span p s' in (String c a, b) else (EmptyString, s)
  | EmptyString => (EmptyString, EmptyString)
  end.

Definition isDigit (c : ascii) : bool :=
  let n := nat_of_ascii c in (48 <=? n)%nat && (n <=? 57)%nat.

Definition isAlpha (c : ascii) : bool :=
  let n := nat_of_ascii c in
  ((65 <=? n)%nat && (n <=? 90)%nat) || ((97 <=? n)%nat && (n <=? 122)%nat).

Definition toLower (c : ascii) : ascii :=
  let n := nat_of_ascii c in
  if (65 <=? n)%nat && (n <=? 90)%nat then ascii_of_nat (n + 32) else c.

(** [s] starts with [p]; the rest of [s] after it.  With [ci] the letters
    are compared without case. *)
Fixpoint stripPrefix (ci : bool) (p s : string) : option string :=
  match p, s with
  | EmptyString, _ => Some s
  | String a p', String b s' =>
      if (if ci then Ascii.eqb (toLower a) (toLower b) else Ascii.eqb a b)
      then stripPrefix ci p' s' else None
  | String _ _, EmptyString => None
  end.

Definition isColon (c : ascii) : bool := Ascii.eqb c ":".
Definition isDot (c : ascii) : bool := Ascii.eqb c ".".
Definition isHyphen (c : ascii) : bool := Ascii.eqb c "-".

(** [[^\s:]] *)
Definition nameChar (c : ascii) : bool := negb (Str.isSpace c) && negb (isColon c).
(** [[^\s]] *)
Definition nonSpace (c : ascii) : bool := negb (Str.isSpace c).
(** [[\d.]] *)
Definition versionHead (c : ascii) : bool := isDigit c || isDot c.
(** [[a-zA-Z0-9.-]] *)
Definition versionTail (c : ascii) : bool :=
  isAlpha c || isDigit c || isDot c || isHyphen c.
(** [[\s:]] *)
Definition separator (c : ascii) : bool := Str.isSpace c || isColon c.

(** [versionPattern = /([\d.]+(?:-[a-zA-Z0-9.-]+)?(?:-SNAPSHOT)?)/] matched
    at the start of [s]: the greedy run of digits and dots, then the
    optional hyphen with its greedy run.  After that run no hyphen can
    follow, and where the run is absent no [-SNAPSHOT] can follow either, so
    the last optional group is always empty.  The result is group 1. *)
Definition versionAt (s : string) : option string :=
  let (head, rest) := span versionHead s in
  if Str.isEmpty head then None
  else
    match rest with
    | String c rest' =>
        if isHyphen c
        then let (tail, _) := span versionTail rest' in
             if Str.isEmpty tail then Some head
             else Some (head ++ String c tail)
        else Some head
    | EmptyString => Some head
    end.

(** [g.match(versionPattern)]: the leftmost position at which it matches. *)
Fixpoint versionMatch (s : string) : option string :=
  match versionAt s with
  | Some v => Some v
  | None =>
      match s with
      | String _ s' => versionMatch s'
      | EmptyString => None
      end
  end.

(** [([^\s:]+)(?::([^\s]+))?] at the start of [s]: groups 1 and 2. *)
Definition bareAt (s : string) : option (string * option string) :=
  let (n, rest) := span nameChar s in
  if Str.isEmpty n then None
  else
    match rest with
    | String c rest' =>
        if isColon c
        then let (g, _) := span nonSpace rest' in
             if Str.isEmpty g then Some (n, None) else Some (n, Some g)
        else Some (n, None)
    | EmptyString => Some (n, None)
    end.

(** The pattern of [componentMatch] at the start of [s]: the optional
    prefix [Component:] (letters without case) with white space after it,
    then the two groups of [bareAt].  The optional prefix is tried first, with all the white space after it
    (with less of it the name group would start on white space and fail);
    if the rest fails after the prefix, the prefix is given up. *)
Definition componentAt (s : string) : option (string * option string) :=
  match stripPrefix true "Component:" s with
  | Some rest =>
      match bareAt (snd (span Str.isSpace rest)) with
      | Some r => Some r
      | None => bareAt s
      end
  | None => bareAt s
  end.

(** [title.match(...)]: the leftmost position at which it matches. *)
Fixpoint componentMatch (s : string) : option (string * option string) :=
  match componentAt s with
  | Some r => Some r
  | None =>
      match s with
      | String _ s' => componentMatch s'
      | EmptyString => None
      end
  end.

(** [new RegExp(escaped(name) + "[\\s:]+" + versionPattern.source)] at the
    start of [s] (no flag: the name is compared with case): group 1. *)
Definition nameVersionAt (n s : string) : option string :=
  match stripPrefix false n s with
  | Some rest =>
      let (sep, rest') := span separator rest in
      if Str.isEmpty sep then None else versionAt rest'
  | None => None
  end.

Fixpoint versionInTitle (n s : string) : option string :=
  match nameVersionAt n s with
  | Some v => Some v
  | None =>
      match s with
      | String _ s' => versionInTitle n s'
      | EmptyString => None
      end
  end.

(** [x && typeof x === 'string'] followed by the assignment: the value when
    it is a non-empty string. *)
Definition truthyString (x : option string) : option string :=
  if Js.truthyStr x then x else None.

Definition extractComponentInfo (finding : Finding) : option ComponentInfo :=
  let componentName := truthyString (component_name finding) in
  let componentVersion := truthyString (component_version finding) in
  match componentName with
  | Some n => Some (mkComponentInfo n componentVersion)
  | None =>
      if Js.truthyStr (Some (title finding))
      then
        match componentMatch (title finding) with
        | Some (n, Some g) =>
            Some (mkComponentInfo n
                    match versionMatch g with
                    | Some v => Some v
                    | None => componentVersion
                    end)
        | Some (n, None) =>
            Some (mkComponentInfo n
                    match versionInTitle n (title finding) with
                    | Some v => Some v
                    | None => componentVersion
                    end)
        | None => Some (mkComponentInfo (title finding) None)
        end
      else None
  end.

End Component.

(** ** [aggregateDependencyTrackFindings] ([src/src/utils.ts]) *)

Module Aggregate.

Import Component.

(** [finding.file_path || ''] *)
Definition locationOf (finding : Finding) : string :=
  Js.orStr (Some (file_path finding)) EmptyString.

(** [locationMap: Map<string, Finding[]>] with its entries in insertion
    order, which is the order in which [entries()] yields them. *)
Definition LocationMap : Type := list (string * list Finding).

Fixpoint has (location : string) (m : LocationMap) : bool :=
  match m with
  | [] => false
  | (k, _) :: m' => if String.eqb k location then true else has location m'
  end.

(** [locationMap.get(location)!.push(finding)] *)
Fixpoint push (location : string) (finding : Finding) (m : LocationMap)
  : LocationMap :=
  match m with
  | [] => []
  | (k, group) :: m' =>
      if String.eqb k location
      then (k, (group ++ [finding])%list) :: m'
      else (k, group) :: push location finding m'
  end.

(** The body of the first loop. *)
Definition addFinding (m : LocationMap) (finding : Finding) : LocationMap :=
  let location := locationOf finding in
  let m := if has location m then m else (m ++ [(location, [])])%list in
  push location finding m.

Definition groupByLocation (findings : list Finding) : LocationMap :=
  fold_left addFinding findings [].

Definition severityName (s : Severity) : string :=
  match s with
  | Critical => "Critical"
  | High => "High"
  | Medium => "Medium"
  | Low => "Low"
  | Info => "Info"
  end.

(** The constants of the callback of
    [locationFindings.map((f, index) => ...)], as functions of [f]. *)
Definition lineComponentName (f : Finding) : string :=
  Js.orStr (option_map name (extractComponentInfo f))
    (Js.orStr (component_name f) "Unknown component").

Definition lineComponentVersion (f : Finding) : string :=
  Js.orStr (match extractComponentInfo f with
            | Some info => version info
            | None => None
            end)
    (Js.orStr (component_version f) EmptyString).

Definition lineVersionText (f : Finding) : string :=
  if Js.truthyStr (Some (lineComponentVersion f))
  then " version " ++ lineComponentVersion f else EmptyString.

Definition lineSeverity (f : Finding) : string :=
  match severity f with
  | Some s => severityName s
  | None => "Unknown"
  end.

Definition lineTitle (f : Finding) : string :=
  Js.orStr (Some (title f)) ("Finding #" ++ Str.ofZ (id f)).

(** The callback itself. *)
Definition vulnerabilityLine (index : nat) (f : Finding) : string :=
  Str.ofNat (index + 1) ++ ". " ++ lineTitle f ++ " (" ++ lineComponentName f
  ++ lineVersionText f ++ ", " ++ lineSeverity f ++ ")".

(** [xs.map((f, index) => g(index, f))] *)
Fixpoint mapi {A B} (g : nat -> A -> B) (start : nat) (xs : list A) : list B :=
  match xs with
  | [] => []
  | x :: xs' => g start x :: mapi g (S start) xs'
  end.

Definition newline : string := String "010" EmptyString.

Definition vulnerabilityList (locationFindings : list Finding) : string :=
  Str.join newline (mapi vulnerabilityLine 0 locationFindings).

Definition aggregatedDescription (location : string)
    (locationFindings : list Finding) : string :=
  "Aggregated finding for Location: " ++ location ++ newline ++ newline
  ++ "Includes the following findings:" ++ newline
  ++ vulnerabilityList locationFindings ++ newline ++ newline
  ++ "Total count: " ++ Str.ofNat (length locationFindings).

Definition aggregatedTitle (firstFinding : Finding) : string :=
  "[Aggregated] " ++ Js.orStr (Some (title firstFinding)) "Finding".

(** The object literal [{ ...firstFinding, id, description, title,
    _aggregatedFindingIds, _isAggregated, _originalFindings }]. *)
Definition aggregatedFinding (location : string) (firstFinding : Finding)
    (locationFindings : list Finding) : Finding :=
  mkFinding
    (id firstFinding)
    (aggregatedTitle firstFinding)
    (aggregatedDescription location locationFindings)
    (severity firstFinding) (cwe firstFinding) (url firstFinding)
    (file_path firstFinding) (line firstFinding) (active firstFinding)
    (verified firstFinding) (duplicate firstFinding) (false_p firstFinding)
    (risk_accepted firstFinding) (test firstFinding) (test_type firstFinding)
    (component_name firstFinding) (component_version firstFinding)
    (Some (map id locationFindings))
    (Some true)
    (Some locationFindings).

(** The body of the second loop: what one entry of the map contributes.
    A group is never empty; the first case is there for totality. *)
Definition aggregateGroup (entry : string * list Finding) : list Finding :=
  let (location, locationFindings) := entry in
  match locationFindings with
  | [] => []
  | [single] => [single]
  | firstFinding :: _ =>
      [aggregatedFinding location firstFinding locationFindings]
  end.

Definition aggregateDependencyTrackFindings (findings : list Finding)
  : list Finding :=
  flat_map aggregateGroup (groupByLocation findings).

(** The partition the grouping is compared with: the location keys in the
    order in which they are first seen, and for each key the findings
    that have it, in the order of the input. *)
Fixpoint firstSeen (keys : list string) : list string :=
  match keys with
  | [] => []
  | k :: rest =>
      k :: List.filter (fun k' => negb (String.eqb k' k)) (firstSeen rest)
  end.

Definition membersAt (location : string) (findings : list Finding)
  : list Finding :=
  List.filter (fun f => String.eqb (locationOf f) location) findings.

Definition partition (findings : list Finding) : LocationMap :=
  map (fun k => (k, membersAt k findings)) (firstSeen (map locationOf findings)).

End Aggregate.

(** ** Regular expressions: [new RegExp(source, 'i')] and [test]

    The patterns of [findDependencyInProject] are built at run time from
    template strings, so the embedding builds them the same way: [parse]
    reads the source text and [test] runs the result on a line.  [parse]
    covers the syntax those templates use: literal characters, the escapes
    [\s], [\d], [\w] and [\b], a backslash before a punctuation character
    (the character itself), classes in brackets with an optional leading
    [^], the dot, [^], the quantifiers [*], [+] and [?] with an optional
    lazy mark, and [|] at the top level.  Groups, counted repetitions and
    [$] do not occur in the templates, and the component name and version
    are spliced in escaped, so that none of their characters is read as
    syntax. *)

Module Regex.

Import Component.

Inductive Re : Type :=
  | Eps
  | Chr (c : ascii)
  | AnyChar                               (* the dot *)
  | Cls (negated : bool) (items : list (ascii -> bool))
  | Cat (r1 r2 : Re)
  | Alt (r1 r2 : Re)
  | Star (r : Re)
  | WordBoundary                          (* \b *)
  | Bol.                                  (* ^ *)

Definition isWord (c : ascii) : bool :=
  isAlpha c || isDigit c || Ascii.eqb c "_".

Definition isLineTerminator (c : ascii) : bool :=
  Ascii.eqb c "010" || Ascii.eqb c "013".

(** Equality of characters under the flag [i]. *)
Definition eqChar (ci : bool) (a b : ascii) : bool :=
  if ci then Ascii.eqb (toLower a) (toLower b) else Ascii.eqb a b.

(** *** Reading the source *)

Definition backslash : ascii := "092".

(** The atom a backslash and [c] stand for outside a class. *)
Definition escapeAtom (c : ascii) : Re :=
  if Ascii.eqb c "s" then Cls false [Str.isSpace]
  else if Ascii.eqb c "d" then Cls false [isDigit]
  else if Ascii.eqb c "w" then Cls false [isWord]
  else if Ascii.eqb c "b" then WordBoundary
  else Chr c.

(** The class item a backslash and [c] stand for inside a class. *)
Definition escapeItem (ci : bool) (c : ascii) : ascii -> bool :=
  if Ascii.eqb c "s" then Str.isSpace
  else if Ascii.eqb c "d" then isDigit
  else if Ascii.eqb c "w" then isWord
  else eqChar ci c.

Inductive Mode : Type :=
  | Top
  | Escaped
  | ClassStart
  | InClass (negated : bool) (items : list (ascii -> bool))
  | ClassEscaped (negated : bool) (items : list (ascii -> bool)).

(** The atom read last, to which a quantifier may still apply. *)
Inductive Pending : Type :=
  | NoAtom
  | Atom (r : Re)
  | Quantified (r : Re).

Record ParseState : Type := mkParseState {
  alternatives : list Re;   (* the alternatives before the last [|] *)
  sequence : Re;            (* the current alternative without [pending] *)
  pending : Pending;
}.

Definition flush (st : ParseState) : Re :=
  match pending st with
  | NoAtom => sequence st
  | Atom r | Quantified r => Cat (sequence st) r
  end.

Definition pushAtom (r : Re) (st : ParseState) : ParseState :=
  mkParseState (alternatives st) (flush st) (Atom r).

Definition quantify (q : Re -> Re) (c : ascii) (st : ParseState) : ParseState :=
  match pending st with
  | Atom r => mkParseState (alternatives st) (sequence st) (Quantified (q r))
  | _ => pushAtom (Chr c) st
  end.

Definition topChar (c : ascii) (st : ParseState) : ParseState :=
  if Ascii.eqb c "*" then quantify Star c st
  else if Ascii.eqb c "+" then quantify (fun r => Cat r (Star r)) c st
  else if Ascii.eqb c "?" then
    match pending st with
    | Quantified r => st                      (* the lazy mark *)
    | _ => quantify (fun r => Alt r Eps) c st
    end
  else if Ascii.eqb c "|" then
    mkParseState (alternatives st ++ [flush st])%list Eps NoAtom
  else if Ascii.eqb c "." then pushAtom AnyChar st
  else if Ascii.eqb c "^" then pushAtom Bol st
  else pushAtom (Chr c) st.

Fixpoint parseFrom (ci : bool) (mode : Mode) (st : ParseState) (source : string)
  : ParseState :=
  match source with
  | EmptyString => st
  | String c rest =>
      match mode with
      | Top =>
          if Ascii.eqb c backslash then parseFrom ci Escaped st rest
          else if Ascii.eqb c "[" then parseFrom ci ClassStart st rest
          else parseFrom ci Top (topChar c st) rest
      | Escaped => parseFrom ci Top (pushAtom (escapeAtom c) st) rest
      | ClassStart =>
          if Ascii.eqb c "^" then parseFrom ci (InClass true []) st rest
          else if Ascii.eqb c "]"
          then parseFrom ci Top (pushAtom (Cls false []) st) rest
          else if Ascii.eqb c backslash
          then parseFrom ci (ClassEscaped false []) st rest
          else parseFrom ci (InClass false [eqChar ci c]) st rest
      | InClass negated items =>
          if Ascii.eqb c "]"
          then parseFrom ci Top (pushAtom (Cls negated items) st) rest
          else if Ascii.eqb c backslash
          then parseFrom ci (ClassEscaped negated items) st rest
          else parseFrom ci (InClass negated (items ++ [eqChar ci c])%list) st rest
      | ClassEscaped negated items =>
          parseFrom ci (InClass negated (items ++ [escapeItem ci c])%list) st rest
      end
  end.

Definition parse (ci : bool) (source : string) : Re :=
  let st := parseFrom ci Top (mkParseState [] Eps NoAtom) source in
  fold_right Alt (flush st) (alternatives st).

(** *** Running a pattern *)

Definition headOf (s : string) : option ascii :=
  match s with
  | String c _ => Some c
  | EmptyString => None
  end.

Definition isWordOpt (c : option ascii) : bool :=
  match c with
  | Some c => isWord c
  | None => false
  end.

(** [matchRe ci r prev s k]: [r] matches a prefix of [s], the character
    before [s] being [prev], and [k] accepts what is left.  Alternatives
    are tried in turn, as the backtracking of the engine does; a repetition
    whose body consumes nothing is not repeated. *)
Fixpoint matchRe (ci : bool) (r : Re) (prev : option ascii) (s : string)
    (k : option ascii -> string -> bool) : bool :=
  match r with
  | Eps => k prev s
  | Chr c =>
      match s with
      | String d s' => if eqChar ci c d then k (Some d) s' else false
      | EmptyString => false
      end
  | AnyChar =>
      match s with
      | String d s' => if isLineTerminator d then false else k (Some d) s'
      | EmptyString => false
      end
  | Cls negated items =>
      match s with
      | String d s' =>
          if xorb negated (existsb (fun p => p d) items)
          then k (Some d) s' else false
      | EmptyString => false
      end
  | Cat r1 r2 => matchRe ci r1 prev s (fun p s' => matchRe ci r2 p s' k)
  | Alt r1 r2 => matchRe ci r1 prev s k || matchRe ci r2 prev s k
  | Star r' =>
      (fix repeat (fuel : nat) (prev : option ascii) (s : string) : bool :=
         match fuel with
         | O => k prev s
         | S fuel' =>
             matchRe ci r' prev s
               (fun p s' =>
                  if (String.length s' <? String.length s)%nat
                  then repeat fuel' p s' else false)
             || k prev s
         end) (String.length s) prev s
  | WordBoundary =>
      if xorb (isWordOpt prev) (isWordOpt (headOf s)) then k prev s else false
  | Bol =>
      match prev with
      | None => k prev s
      | Some _ => false
      end
  end.

(** A match starting at some position of [s]. *)
Fixpoint searchFrom (ci : bool) (r : Re) (prev : option ascii) (s : string)
  : bool :=
  matchRe ci r prev s (fun _ _ => true)
  || match s with
     | String c s' => searchFrom ci r (Some c) s'
     | EmptyString => false
     end.

(** [new RegExp(source, 'i').test(line)], also the truth value of
    [line.match(new RegExp(source, 'i'))]. *)
Definition test (source line : string) : bool :=
  searchFrom true (parse true source) None line.

(** [text] occurs in [line], letters compared without case: what a
    pattern that is a plain text is compared with. *)
Fixpoint includesCI (text line : string) : bool :=
  match stripPrefix true text line with
  | Some _ => true
  | None =>
      match line with
      | String _ line' => includesCI text line'
      | EmptyString => false
      end
  end.

(** The state of the parser after the plain characters of [text]. *)
Fixpoint feed (st : ParseState) (text : string) : ParseState :=
  match text with
  | EmptyString => st
  | String c text' => feed (pushAtom (Chr c) st) text'
  end.

(** Matching the characters of [text] one after the other. *)
Fixpoint matchText (ci : bool) (text : string) (prev : option ascii)
    (line : string) (k : option ascii -> string -> bool) : bool :=
  match text with
  | EmptyString => k prev line
  | String c text' =>
      match line with
      | String d line' =>
          if eqChar ci c d then matchText ci text' (Some d) line' k else false
      | EmptyString => false
      end
  end.

End Regex.

(** ** [findDependencyInProject] ([src/src/utils.ts]) *)

Module Locator.

Import Component.

Record DependencyLocation : Type := mkDependencyLocation {
  filePath : string;
  relativePath : string;
  lineNumber : option nat;
  content : option string;
}.

(** *** Strings and paths *)

Definition dq : string := String "034" EmptyString.
(** The class of the two quote characters, as the templates write it. *)
Definition Q : string := "[" ++ dq ++ "']".

(** The characters of the class in
    [replace(/[.*+?^${}()|[\]\\]/g, '\\$&')]. *)
Definition isMeta (c : ascii) : bool :=
  existsb (Ascii.eqb c)
    ["."; "*"; "+"; "?"; "^"; "$"; "{"; "}"; "("; ")"; "|"; "["; "]";
     Regex.backslash]%char.

Fixpoint escapeRegExp (s : string) : string :=
  match s with
  | String c s' =>
      if isMeta c
      then String Regex.backslash (String c (escapeRegExp s'))
      else String c (escapeRegExp s')
  | EmptyString => EmptyString
  end.

Fixpoint toLowerCase (s : string) : string :=
  match s with
  | String c s' => String (toLower c) (toLowerCase s')
  | EmptyString => EmptyString
  end.

Definition startsWith (s p : string) : bool :=
  match stripPrefix false p s with
  | Some _ => true
  | None => false
  end.

Fixpoint endsWith (s suffix : string) : bool :=
  String.eqb s suffix
  || match s with
     | String _ s' => endsWith s' suffix
     | EmptyString => false
     end.

(** [content.split('\n')] *)
Fixpoint splitLines (s : string) : list string :=
  match s with
  | EmptyString => [EmptyString]
  | String c s' =>
      if Ascii.eqb c "010" then EmptyString :: splitLines s'
      else match splitLines s' with
           | l :: ls => String c l :: ls
           | [] => [String c EmptyString]
           end
  end.

(** The segments of a path, the separators taken away. *)
Fixpoint segments (p : string) : list string :=
  match p with
  | EmptyString => [EmptyString]
  | String c p' =>
      if Ascii.eqb c "/" then EmptyString :: segments p'
      else match segments p' with
           | s :: rest => String c s :: rest
           | [] => [String c EmptyString]
           end
  end.

(** A segment that [path.normalize] keeps as it is: not empty, not a dot,
    not two dots. *)
Definition properSegment (s : string) : bool :=
  negb (Str.isEmpty s) && negb (String.eqb s ".") && negb (String.eqb s "..").

(** The empty path, the root, and the paths without a separator at the
    end that [path.normalize] returns unchanged: after an optional
    separator at the start, proper segments with one separator between
    them.  The path of a workspace folder is such a path. *)
Definition normalizedDir (p : string) : bool :=
  String.eqb p "/"
  || match segments p with
     | first :: rest =>
         (Str.isEmpty first || properSegment first) && forallb properSegment rest
     | [] => true
     end.

(** [path.join(dir, name)] for a [dir] that is [normalizedDir] and an
    entry name that is a proper segment without a separator, where
    joining is all [path.join] does: [path.join('', name)] is [name],
    [path.join('/', name)] has the one separator of the root, and every
    other [dir] gets a separator and the name. *)
Definition pathJoin (dir name : string) : string :=
  if Str.isEmpty dir then name
  else if String.eqb dir "/" then dir ++ name
  else dir ++ "/" ++ name.

(** [path.basename(p)]: what follows the last separator. *)
Fixpoint basename (p : string) : string :=
  match p with
  | EmptyString => EmptyString
  | String c p' =>
      if existsb (Ascii.eqb "/") (list_ascii_of_string p')
      then basename p'
      else if Ascii.eqb c "/" then p' else p
  end.

Definition dependencyFiles : list string :=
  ["package.json"; "package-lock.json"; "yarn.lock"; "requirements.txt";
   "poetry.lock"; "pyproject.toml"; "uv.lock"; "pom.xml"; "build.gradle";
   "Cargo.toml"; "Cargo.lock"; "go.mod"; "go.sum"].

Definition dependencyFileExtensions : list string := [".lock"].

Definition isDependencyFile (entryName : string) : bool :=
  existsb (String.eqb entryName) dependencyFiles
  || existsb (endsWith entryName) dependencyFileExtensions.

(** *** searchInFile *)

Section SearchInFile.

Variable componentName : string.
Variable componentVersion : option string.

Definition escapedName : string := escapeRegExp componentName.

(** [componentVersion ? componentVersion.replace(...) : null] *)
Definition escapedVersion : option string :=
  match componentVersion with
  | Some v => if Js.truthyStr (Some v) then Some (escapeRegExp v) else None
  | None => None
  end.

Variable filePath : string.
Variable relativePath' : string.
Variable lines : list string.

Definition lineAt (i : nat) : string := nth i lines EmptyString.

Definition located (lineNum : nat) (text : string) : DependencyLocation :=
  mkDependencyLocation filePath relativePath' (Some (lineNum + 1)%nat)
    (Some (Str.trim text)).

(** The three copies of [for (const lineNum of packageLines) { ... }]:
    the pattern of [hasVersion] is made from [escapedVersion] escaped once
    more. *)
Definition hasVersion (blockLine : string) : bool :=
  match escapedVersion with
  | Some ev => Regex.test (escapeRegExp ev) blockLine
  | None => true
  end.

Definition flushBlock (packageLines : list nat) : list DependencyLocation :=
  flat_map
    (fun lineNum =>
       let blockLine := lineAt lineNum in
       if negb (Js.truthyOpt escapedVersion) || hasVersion blockLine
       then [located lineNum blockLine] else [])
    packageLines.

Record BlockState : Type := mkBlockState {
  inPackageBlock : bool;
  packageLines : list nat;
  results : list DependencyLocation;
}.

Definition yarnStart : string := Q ++ escapedName ++ "@".
Definition tomlHeader : string := "\[\[package\]\]|\[package\.".
Definition tomlName : string := "name\s*=\s*" ++ Q ++ escapedName ++ Q.
Definition tomlHeaderAtStart : string := "^\[\[package\]\]|^\[package\.".

(** The body of the loop over the lines for [yarn.lock]. *)
Definition yarnStep (st : BlockState) (i : nat) : BlockState :=
  let line := lineAt i in
  let st :=
    if Regex.test yarnStart line
    then mkBlockState true [i] (results st) else st in
  if inPackageBlock st && Str.isEmpty (Str.trim line)
     && (0 <? length (packageLines st))%nat
  then mkBlockState false [] (results st ++ flushBlock (packageLines st))%list
  else if inPackageBlock st
  then mkBlockState true (packageLines st ++ [i])%list (results st)
  else st.

(** The body of the loop over the lines for [poetry.lock] and [uv.lock]. *)
Definition tomlStep (st : BlockState) (i : nat) : BlockState :=
  let line := lineAt i in
  let st :=
    if Regex.test tomlHeader line || Regex.test tomlName line
    then mkBlockState true [i] (results st) else st in
  if inPackageBlock st && Regex.test tomlHeaderAtStart line
     && negb (Regex.test tomlName line)
  then
    let results' := (results st ++ flushBlock (packageLines st))%list in
    if Regex.test tomlName line
    then mkBlockState (inPackageBlock st) [i] results'
    else mkBlockState false [] results'
  else if inPackageBlock st
  then mkBlockState true (packageLines st ++ [i])%list (results st)
  else st.

(** The scan of a block-structured lock file, with the flush of the last
    block after the loop. *)
Definition blockScan (isYarnLock : bool) : list DependencyLocation :=
  let st :=
    fold_left (if isYarnLock then yarnStep else tomlStep)
      (seq 0 (length lines)) (mkBlockState false [] []) in
  if inPackageBlock st && (0 <? length (packageLines st))%nat
  then (results st ++ flushBlock (packageLines st))%list
  else results st.

(** The file-type tests on [path.basename(filePath).toLowerCase()]. *)
Definition fileName : string := toLowerCase (basename filePath).
Definition isLockFile : bool := endsWith fileName ".lock".
Definition isYarnLock : bool := String.eqb fileName "yarn.lock".
Definition isPoetryLock : bool := String.eqb fileName "poetry.lock".
Definition isUvLock : bool := String.eqb fileName "uv.lock".
Definition isPyProjectToml : bool := String.eqb fileName "pyproject.toml".
Definition isPackageJson : bool := String.eqb fileName "package.json".
Definition isRequirementsTxt : bool := String.eqb fileName "requirements.txt".

Definition when (b : bool) (l : list string) : list string :=
  if b then l else [].

(** [patternsWithVersion], for the escaped version [V]. *)
Definition patternsWithVersion (V : string) : list string :=
  let N := escapedName in
  List.concat
  [when isPackageJson
     [Q ++ N ++ Q ++ "\s*:\s*" ++ Q ++ V ++ Q;
      Q ++ N ++ "@" ++ V ++ Q];
   when isYarnLock
     [N ++ "@" ++ V;
      Q ++ N ++ "@" ++ V ++ Q];
   when isRequirementsTxt
     ["\b" ++ N ++ "\s*==\s*" ++ V ++ "\b";
      "\b" ++ N ++ "\s*[<>=~]+\s*" ++ V ++ "\b"];
   when isPoetryLock
     ["name\s*=\s*" ++ Q ++ N ++ Q;
      Q ++ N ++ Q ++ "\s*=\s*" ++ Q ++ V ++ Q;
      "version\s*=\s*" ++ Q ++ V ++ Q];
   when isUvLock
     [Q ++ N ++ Q ++ "\s*=\s*\{[^}]*version\s*=\s*" ++ Q ++ V ++ Q;
      Q ++ N ++ Q ++ "\s*=\s*" ++ Q ++ V ++ Q;
      "name\s*=\s*" ++ Q ++ N ++ Q];
   when isPyProjectToml
     [Q ++ N ++ Q ++ "\s*=\s*" ++ Q ++ V ++ Q;
      N ++ "\s*=\s*" ++ Q ++ V ++ Q];
   when isLockFile
     [N ++ "@" ++ V;
      Q ++ N ++ Q ++ ".*?" ++ V;
      N ++ ".*?" ++ Q ++ V ++ Q];
   [Q ++ N ++ Q ++ "\s*:\s*" ++ Q ++ V ++ Q;
       Q ++ N ++ "@" ++ V ++ Q;
       "\b" ++ N ++ "\s*==\s*" ++ V ++ "\b";
       "\b" ++ N ++ "\s*[<>=~]+\s*" ++ V ++ "\b";
       N ++ "\s*=\s*" ++ Q ++ V ++ Q;
       "\b" ++ N ++ "\s+" ++ V ++ "\b"]].

(** [patterns], the name-only ones. *)
Definition patterns : list string :=
  let N := escapedName in
  List.concat
  [when isYarnLock
     [N ++ "@";
      Q ++ N ++ "@"];
   when (isPoetryLock || isUvLock)
     ["name\s*=\s*" ++ Q ++ N ++ Q;
      Q ++ N ++ Q ++ "\s*="];
   when isPyProjectToml
     [Q ++ N ++ Q ++ "\s*=";
      N ++ "\s*="];
   when isRequirementsTxt
     ["\b" ++ N ++ "\s*[<>=~=]";
      "^\s*" ++ N ++ "\s*[<>=~=]"];
   [Q ++ N ++ Q;
       Q ++ N ++ "@";
       "\b" ++ N ++ "\b"]].

(** The body of the loop over the lines for the other files: [found]. *)
Definition lineFound (line : string) : bool :=
  let found :=
    match escapedVersion with
    | Some V => existsb (fun p => Regex.test p line) (patternsWithVersion V)
    | None => false
    end in
  if negb found then existsb (fun p => Regex.test p line) patterns else found.

Definition lineScan : list DependencyLocation :=
  flat_map
    (fun i => let line := lineAt i in
              if lineFound line then [located i line] else [])
    (seq 0 (length lines)).

Definition scanLines : list DependencyLocation :=
  if isLockFile && (isYarnLock || isPoetryLock || isUvLock)
  then blockScan isYarnLock
  else lineScan.

End SearchInFile.

(** What [searchInFile] appends to [results]; [None] is a file that
    [readFile] fails on, which the [catch] ignores. *)
Definition searchInFile (componentName : string)
    (componentVersion : option string) (filePath relativePath' : string)
    (contents : option string) : list DependencyLocation :=
  match contents with
  | Some text =>
      scanLines componentName componentVersion filePath relativePath'
        (splitLines text)
  | None => []
  end.

(** *** searchInDirectory *)

(** A directory entry with what reading it gives: the text of a file, the
    entries of a directory ([None] when reading fails), or an entry that is
    neither a file nor a directory. *)
#[warnings="-register-all"]
Inductive Entry : Type :=
  | File (entryName : string) (contents : option string)
  | Dir (entryName : string) (listing : option (list Entry))
  | Other (entryName : string).

Definition entryName (e : Entry) : string :=
  match e with
  | File n _ | Dir n _ | Other n => n
  end.

Definition skipped (n : string) : bool :=
  startsWith n "." || String.eqb n "node_modules" || String.eqb n "vendor".

Section SearchInDirectory.

Variable componentName : string.
Variable componentVersion : option string.
Variable maxDepth : Z.

(** [searchEntry dirPath relativePath depth e] is the body of the loop
    over the entries, run in the call of [searchInDirectory] at [depth];
    the recursive call on a directory is inlined in it. *)
Fixpoint searchEntry (dirPath relativePath' : string) (depth : nat) (e : Entry)
  : list DependencyLocation :=
  if skipped (entryName e) then []
  else
    let fullPath := pathJoin dirPath (entryName e) in
    let entryRelativePath := pathJoin relativePath' (entryName e) in
    match e with
    | File n contents =>
        if isDependencyFile n
        then searchInFile componentName componentVersion fullPath
               entryRelativePath contents
        else []
    | Dir _ listing =>
        if Z.of_nat (depth + 1) >? maxDepth then []
        else
          match listing with
          | Some entries =>
              flat_map (searchEntry fullPath entryRelativePath (depth + 1))
                entries
          | None => []
          end
    | Other _ => []
    end.

Definition searchInDirectory (dirPath relativePath' : string) (depth : nat)
    (listing : option (list Entry)) : list DependencyLocation :=
  if Z.of_nat depth >? maxDepth then []
  else
    match listing with
    | Some entries => flat_map (searchEntry dirPath relativePath' depth) entries
    | None => []
    end.

End SearchInDirectory.

(** A workspace folder: [folder.uri.fsPath] and what is under it. *)
Record WorkspaceFolder : Type := mkWorkspaceFolder {
  fsPath : string;
  root : option (list Entry);
}.

(** The value of the parameter [maxDepth: number = 15] for an argument
    that may be left out. *)
Definition depthLimit (maxDepth : option Z) : Z :=
  match maxDepth with
  | Some d => d
  | None => 15
  end.

Definition findDependencyInProject (componentName : string)
    (workspaceFolders : list WorkspaceFolder)
    (componentVersion : option string) (maxDepth : option Z)
  : list DependencyLocation :=
  flat_map
    (fun folder =>
       searchInDirectory componentName componentVersion (depthLimit maxDepth)
         (fsPath folder) EmptyString 0 (root folder))
    workspaceFolders.

(** *** Depth of a path and trees of a given depth *)

(** The number of separators of a path: for a relative path, the number of
    directories between the root and the file. *)
Fixpoint separators (p : string) : nat :=
  match p with
  | EmptyString => 0
  | String c p' => (if Ascii.eqb c "/" then 1 else 0) + separators p'
  end.

(** The names a directory listing can hold: not empty, no separator. *)
Definition goodName (n : string) : bool :=
  negb (Str.isEmpty n) && Nat.eqb (separators n) 0.

Fixpoint wellNamed (e : Entry) : bool :=
  goodName (entryName e)
  && match e with
     | Dir _ (Some entries) => forallb wellNamed entries
     | _ => true
     end.

(** [inner] under the directories [dirs], each the only entry of the one
    before. *)
Fixpoint nestIn (dirs : list string) (inner : list Entry) : list Entry :=
  match dirs with
  | [] => inner
  | d :: dirs' => [Dir d (Some (nestIn dirs' inner))]
  end.

(** [path.join(base, s1, ..., sn)] *)
Definition joinAll (base : string) (segments : list string) : string :=
  fold_left pathJoin segments base.

(** The depth a relative path stands for: the directory it names is that
    many levels below the root. *)
Definition level (rel : string) : nat :=
  if Str.isEmpty rel then 0 else S (separators rel).

Definition wellNamedFolder (folder : WorkspaceFolder) : bool :=
  match root folder with
  | Some entries => forallb wellNamed entries
  | None => true
  end.

End Locator.

(** ** Sample data *)

Module Samples.

Import Client Submit Locator.

(** A draft with its three fields, never submitted. *)
Definition draft : TriageData :=
  mkTriageData (Some "data loss") (Some "upgrade") (Some Verified)
    None None None None None None.

(** A draft whose impact is the empty string. *)
Definition emptyImpactDraft : TriageData :=
  mkTriageData (Some EmptyString) (Some "upgrade") (Some Verified)
    None None None None None None.

(** A draft with an impact only. *)
Definition impactOnlyDraft : TriageData :=
  mkTriageData (Some "data loss") None None None None None None None None.

Definition editsOnly : list TriageStore.Op :=
  [TriageStore.OpUpdateImpact 7 "data loss";
   TriageStore.OpUpdateStatus 7 (Some Close);
   TriageStore.OpUpdateImpact 7 "none";
   TriageStore.OpUpdateMitigation 7 "upgrade"].

Definition submitEmptyThenEdit : list TriageStore.Op :=
  [TriageStore.OpUpdateImpact 7 EmptyString;
   TriageStore.OpUpdateMitigation 7 "upgrade";
   TriageStore.OpMarkAsSubmitted 7 1700;
   TriageStore.OpUpdateMitigation 7 "isolate"].

Definition laterEdits : list TriageStore.Op :=
  [TriageStore.OpUpdateMitigation 7 "isolate";
   TriageStore.OpUpdateStatus 7 (Some Close);
   TriageStore.OpUpdateImpact 7 "data loss"].

(** A finding as the remote service lists it. *)
Definition remoteFinding (findingId : Z) (title' location : string)
    (severity' : option Severity) : Finding :=
  mkFinding findingId title' "reported by the scanner" severity' None EmptyString
    location None true false false false false 3 11 None None None None None.

Definition pomLog4j : Finding :=
  remoteFinding 1 "log4j-core:2.14.1" "pom.xml" (Some Critical).
Definition gradleGuava : Finding :=
  remoteFinding 2 "guava" "build.gradle" (Some Low).
Definition pomJackson : Finding :=
  remoteFinding 3 "jackson-databind 2.9.8 is affected" "pom.xml" (Some High).

Definition findings : list Finding := [pomLog4j; gradleGuava; pomJackson].

(** The composite for [pom.xml], as a list with [gradleGuava] passed
    through. *)
Definition aggregated : list Finding :=
  Aggregate.aggregateDependencyTrackFindings findings.

Definition pomComposite : Finding :=
  Aggregate.aggregatedFinding "pom.xml" pomLog4j [pomLog4j; pomJackson].

Definition memberLines : string :=
  "1. log4j-core:2.14.1 (log4j-core version 2.14.1, Critical)"
  ++ Aggregate.newline
  ++ "2. jackson-databind 2.9.8 is affected (jackson-databind version 2.9.8, High)".

(** The submit command. *)
Definition connection : Config := mkConfig "token" "https://dojo.example".
Definition noConnection : Config := mkConfig EmptyString "https://dojo.example".

Definition healthy : Server := fun _ _ => None.
Definition rejectingFirst : Server :=
  fun findingId _ =>
    if Z.eqb findingId 1 then Some "Request failed with status code 500"
    else None.

Definition clock (k : nat) : Z := 1700 + Z.of_nat k.

Definition drafts : gmap Z TriageData := {[ 1 := draft; 3 := draft ]}.

Definition payload : UpdateInput := mkUpdateInput "data loss" "upgrade" Verified.

(** The dependency search. *)
Definition nl : string := String "010" EmptyString.

Definition yarnLock : string :=
  dq ++ "left-pad@^1.3.0" ++ dq ++ ":" ++ nl
  ++ "  version " ++ dq ++ "1.3.0" ++ dq ++ nl
  ++ "  resolved " ++ dq ++ "https://registry.example/left-pad-1.3.0.tgz" ++ dq.

Definition packageJson : string :=
  "{" ++ nl
  ++ "  " ++ dq ++ "dependencies" ++ dq ++ ": {" ++ nl
  ++ "    " ++ dq ++ "left-pad" ++ dq ++ ": " ++ dq ++ "1.3.0" ++ dq ++ nl
  ++ "  }" ++ nl
  ++ "}".

Definition sixteen : list string := repeat "pkg" 16.
Definition fifteen : list string := repeat "pkg" 15.

End Samples.

From Stdlib Require Import Sorted.

(** ** More of the triage store: which record an operation writes *)

Module StoreOps.

Import TriageStore.

(** The id an operation works on; [clear] has none. *)
Definition targetOf (op : Op) : option Z :=
  match op with
  | OpUpdateImpact i _ | OpUpdateMitigation i _ | OpUpdateStatus i _
  | OpMarkAsSubmitted i _ => Some i
  | OpClear => None
  end.

Definition isClear (op : Op) : bool :=
  match op with
  | OpClear => true
  | _ => false
  end.

(** A current field differs from its frozen value. *)
Definition differs (triage : TriageData) : Prop :=
  impact triage <> originalImpact triage
  \/ mitigation triage <> originalMitigation triage
  \/ status triage <> originalStatus triage.

(** A submitted record whose three frozen fields are there, the frozen
    impact not empty. *)
Definition frozen (triage : TriageData) : Prop :=
  submitted triage = Some true
  /\ Js.truthyStr (originalImpact triage) = true
  /\ originalMitigation triage <> None
  /\ originalStatus triage <> None.

(** [modified] says whether a current field differs from its frozen value. *)
Definition tracked (triage : TriageData) : Prop :=
  (modified triage = Some true <-> differs triage)
  /\ (modified triage = Some false <-> ~ differs triage).

(** The record [markAsSubmitted] stores at the time [now] for a record. *)
Definition submittedCopy (now : Z) (triage : TriageData) : TriageData :=
  mkTriageData (impact triage) (mitigation triage) (status triage)
    (Some true) (Some now) (Some false)
    (impact triage) (mitigation triage) (status triage).

(** [markAsSubmitted] on the ids of a list in turn, the [k]-th call at the
    time [clock k], counted from [start]. *)
Fixpoint markAll (clock : nat -> Z) (start : nat) (ids : list Z)
    (store : gmap Z TriageData) : gmap Z TriageData :=
  match ids with
  | [] => store
  | i :: rest =>
      markAll clock (S start) rest (markAsSubmitted i (clock start) store)
  end.

End StoreOps.

(** ** More of the submit-triage command: what a run shows *)

Module SubmitOps.

Import Submit.

(** A string holds a character that is not white space. *)
Definition hasText (s : string) : bool :=
  existsb (fun c => negb (Str.isSpace c)) (list_ascii_of_string s).

(** The calls of [vscode.window.show...Message] of a run, in order. *)
Definition isMessage (e : Effect) : bool :=
  match e with
  | ShowWarningMessage _ | ShowErrorMessage _ | ShowInformationMessage _ => true
  | _ => false
  end.

Definition messages (l : list Effect) : list Effect := List.filter isMessage l.

End SubmitOps.

(** ** The message handler of the details panel ([src/unnamed/part_001],
    the constructor of [FindingDetailsPanel]) *)

Module Panel.

Import TriageStore.

(** The messages of the web view that reach the store, with their
    [value].  The handler casts the value of a status message to
    [TriageStatus]; a status message is taken here with a value of that
    type. *)
Inductive Message : Type :=
  | UPDATE_IMPACT (value : option string)
  | UPDATE_MITIGATION (value : option string)
  | UPDATE_STATUS (value : option TriageStatus).

(** [finding._isAggregated && finding._aggregatedFindingIds
      ? finding._aggregatedFindingIds : [finding.id]] *)
Definition findingIds (finding : Finding) : list Z :=
  if Js.truthyBool (_isAggregated finding)
  then match _aggregatedFindingIds finding with
       | Some ids => ids
       | None => [id finding]
       end
  else [id finding].

(** The two branches of a case: the loop over the aggregated ids, or the
    one call for the finding itself. *)
Definition fanOut (update : Z -> gmap Z TriageData -> gmap Z TriageData)
    (finding : Finding) (store : gmap Z TriageData) : gmap Z TriageData :=
  if Js.truthyBool (_isAggregated finding)
  then match _aggregatedFindingIds finding with
       | Some ids => fold_left (fun s i => update i s) ids store
       | None => update (id finding) store
       end
  else update (id finding) store.

(** What a message does to the store; [current] is [this._currentFinding]. *)
Definition onMessage (current : option Finding) (message : Message)
    (store : gmap Z TriageData) : gmap Z TriageData :=
  match current, message with
  | Some finding, UPDATE_IMPACT (Some value) =>
      fanOut (fun i => updateImpact i value) finding store
  | Some finding, UPDATE_MITIGATION (Some value) =>
      fanOut (fun i => updateMitigation i value) finding store
  | Some finding, UPDATE_STATUS (Some value) =>
      fanOut (fun i => updateStatus i (Some value)) finding store
  | _, _ => store
  end.

Definition onMessages (current : option Finding) (messages : list Message)
    (store : gmap Z TriageData) : gmap Z TriageData :=
  fold_left (fun s m => onMessage current m s) messages store.

End Panel.

(** ** [initializeTriageFromFinding]
    ([src/src/panels/settingsPanel.ts], the finding selection handler) *)

Module Selection.

Import TriageStore.

(** [a || b || undefined] on strings. *)
Definition firstText (a b : option string) : option string :=
  if Js.truthyStr a then a else if Js.truthyStr b then b else None.

(** [findingImpact] and [findingMitigation] are [finding.impact] and
    [finding.mitigation], which the function reads through the index
    signature of [Finding]. *)
Definition initializeTriageFromFinding (findingId : Z)
    (findingImpact findingMitigation : option string)
    (store : gmap Z TriageData) : gmap Z TriageData :=
  let existingTriage := get findingId store in
  let impactFromFinding := Js.orStr findingImpact EmptyString in
  let mitigationFromFinding := Js.orStr findingMitigation EmptyString in
  if Js.truthyStr (Some impactFromFinding)
     || Js.truthyStr (Some mitigationFromFinding)
  then
    let old := match existingTriage with
               | Some triage => triage
               | None => emptyTriage
               end in
    set findingId
      (mkTriageData
         (firstText (impact old) (Some impactFromFinding))
         (firstText (mitigation old) (Some mitigationFromFinding))
         (status old) (submitted old) (submittedAt old) (modified old)
         (originalImpact old) (originalMitigation old) (originalStatus old))
      store
  else store.

End Selection.

(** ** Text utilities ([src/src/utils/text.ts]) and [normalizeFilePath]
    ([src/src/utils.ts]) *)

Module Text.

(** The entry of [map] for a character the pattern matches, the character
    itself for any other. *)
Definition entity (c : ascii) : string :=
  if Ascii.eqb c "&" then "&amp;"
  else if Ascii.eqb c "<" then "&lt;"
  else if Ascii.eqb c ">" then "&gt;"
  else if Ascii.eqb c "034" then "&quot;"
  else if Ascii.eqb c "'" then "&#039;"
  else String c EmptyString.

(** [text.replace(pattern, (char) => map[char] || char)] with the global
    pattern for one of the five characters of [map]. *)
Fixpoint escapeHtml (text : string) : string :=
  match text with
  | String c rest => entity c ++ escapeHtml rest
  | EmptyString => EmptyString
  end.

(** The characters HTML reads as markup or as the end of an attribute
    value. *)
Definition isMarkup (c : ascii) : bool :=
  Ascii.eqb c "<" || Ascii.eqb c ">" || Ascii.eqb c "034" || Ascii.eqb c "'".

(** [maxLength] is an integer; [substring] takes a negative end for 0. *)
Definition truncateText (text : string) (maxLength : Z) : string :=
  if (Z.of_nat (String.length text) <=? maxLength)%Z then text
  else String.substring 0 (Z.to_nat maxLength) text ++ "...".

(** The replacement of every backslash by a slash. *)
Fixpoint slashes (s : string) : string :=
  match s with
  | String c rest =>
      String (if Ascii.eqb c Regex.backslash then "/"%char else c) (slashes rest)
  | EmptyString => EmptyString
  end.

Definition normalizeFilePath (filePath : string) : string :=
  slashes (Str.trim filePath).

End Text.

(** ** The search in the list of findings: [FindingsProvider.filterFindings]
    ([src/src/providers/findingsProvider.ts]) and the count of the search
    command ([src/src/commands/registerCommands.ts]) *)

Module Search.

(** [line.includes(text)] *)
Fixpoint includes (line text : string) : bool :=
  match Component.stripPrefix false text line with
  | Some _ => true
  | None =>
      match line with
      | String _ line' => includes line' text
      | EmptyString => false
      end
  end.

(** [!!n] for a possibly undefined integer: 0 is falsy. *)
Definition truthyNum (n : option Z) : bool :=
  match n with
  | Some v => negb (Z.eqb v 0)
  | None => false
  end.

(** [!this.searchQuery || this.searchQuery.trim() === ''] *)
Definition blank (searchQuery : string) : bool :=
  negb (Js.truthyStr (Some searchQuery)) || Str.isEmpty (Str.trim searchQuery).

(** [searchQuery.toLowerCase().trim()] *)
Definition queryOf (searchQuery : string) : string :=
  Str.trim (Locator.toLowerCase searchQuery).

(** The callback of [findings.filter] in [filterFindings]: one test after
    the other, the first that holds returns [true]. *)
Definition matchesFinding (query : string) (finding : Finding) : bool :=
  if includes (Str.ofZ (id finding)) query then true
  else if Js.truthyStr (Some (title finding))
          && includes (Locator.toLowerCase (title finding)) query then true
  else if Js.truthyStr (Some (description finding))
          && includes (Locator.toLowerCase (description finding)) query
       then true
  else if Js.truthyStr (Some (file_path finding))
          && includes (Locator.toLowerCase (file_path finding)) query then true
  else if match severity finding with
          | Some s =>
              includes (Locator.toLowerCase (Aggregate.severityName s)) query
          | None => false
          end then true
  else if truthyNum (cwe finding)
          && includes (Str.ofZ (match cwe finding with
                                | Some n => n
                                | None => 0
                                end)) query then true
  else if Js.truthyStr (Some (url finding))
          && includes (Locator.toLowerCase (url finding)) query then true
  else false.

Definition filterFindings (searchQuery : string) (findings : list Finding)
  : list Finding :=
  if blank searchQuery then findings
  else List.filter (matchesFinding (queryOf searchQuery)) findings.

(** The callback of [allFindings.filter] in the search command: the blank
    query is tested for every finding, and the tests are one disjunction. *)
Definition countsFinding (searchQuery : string) (f : Finding) : bool :=
  if blank searchQuery then true
  else
    let query := queryOf searchQuery in
    includes (Str.ofZ (id f)) query
    || (Js.truthyStr (Some (title f))
        && includes (Locator.toLowerCase (title f)) query)
    || (Js.truthyStr (Some (description f))
        && includes (Locator.toLowerCase (description f)) query)
    || (Js.truthyStr (Some (file_path f))
        && includes (Locator.toLowerCase (file_path f)) query)
    || match severity f with
       | Some s => includes (Locator.toLowerCase (Aggregate.severityName s)) query
       | None => false
       end
    || (truthyNum (cwe f)
        && includes (Str.ofZ (match cwe f with
                              | Some n => n
                              | None => 0
                              end)) query)
    || (Js.truthyStr (Some (url f))
        && includes (Locator.toLowerCase (url f)) query).

Definition filteredCount (searchQuery : string) (allFindings : list Finding)
  : nat :=
  length (List.filter (countsFinding searchQuery) allFindings).

End Search.

(** ** More of the dependency search: the shape of a reported location *)

Module LocatorOps.

Import Locator.

(** The file is one of the three lock files that are scanned block by
    block. *)
Definition blockScanned (filePath : string) : bool :=
  isLockFile filePath
  && (isYarnLock filePath || isPoetryLock filePath || isUvLock filePath).

(** A location reports the line of index [i] of [lines]: the number is
    counted from 1 and the content is the line without the white space
    around it. *)
Definition reportsLine (lines : list string) (i : nat) (r : DependencyLocation)
  : Prop :=
  (i < length lines)%nat
  /\ lineNumber r = Some (i + 1)%nat
  /\ content r = Some (Str.trim (nth i lines EmptyString)).

End LocatorOps.

(** ** Patterns around a component name *)

Module PatternOps.

(** The source has no alternation bar. *)
Definition noBar (source : string) : bool :=
  forallb (fun c => negb (Ascii.eqb c "|")) (list_ascii_of_string source).

(** The source does not start with a quantifier, which would apply to
    what stands before it. *)
Definition startsAtom (source : string) : bool :=
  match source with
  | String c _ =>
      negb (Ascii.eqb c "*" || Ascii.eqb c "+" || Ascii.eqb c "?")
  | EmptyString => true
  end.

End PatternOps.

(** ** The state of a finding as the tree and the panel show it
    ([src/src/models/findingTreeItem.ts]; the [CHECK_STATUS] message and the
    script of the web view in [src/unnamed/part_001]) *)

Module Badges.

(** [statusText] of the constructor of [FindingTreeItem]; [triage] is
    [triageStore.get(finding.id)]. *)
Definition statusText (triage : option TriageData) : string :=
  match triage with
  | Some t =>
      if Js.truthyBool (submitted t) && Js.truthyBool (modified t)
      then " ✏️ Modified"
      else if Js.truthyBool (submitted t) then " ✓ Submitted"
      else EmptyString
  | None => EmptyString
  end.

(** [this.contextValue = triage?.submitted ? 'findingSubmitted' : 'finding'] *)
Definition contextValue (triage : option TriageData) : string :=
  match triage with
  | Some t => if Js.truthyBool (submitted t) then "findingSubmitted" else "finding"
  | None => "finding"
  end.

(** [x ?? false] on a possibly undefined boolean. *)
Definition orFalse (x : option bool) : bool :=
  match x with
  | Some b => b
  | None => false
  end.

(** The fields [submitted] and [modified] of the message the panel posts
    in answer to [CHECK_STATUS]. *)
Definition statusReply (triage : option TriageData) : bool * bool :=
  match triage with
  | Some t => (orFalse (submitted t), orFalse (modified t))
  | None => (false, false)
  end.

(** The text [updateStatusBadge(submitted, modified)] gives the badge of
    the web view. *)
Definition updateStatusBadge (submitted modified : bool) : string :=
  if submitted && negb modified then "✓ Submitted"
  else if submitted && modified then "✏️ Modified"
  else "⏳ Not submitted".

End Badges.

(** * The triage store *)

Section TriageStoreFacts.

Import TriageStore Samples.

Implicit Types (store : gmap Z TriageData) (findingId : Z) (triage : TriageData).

Lemma get_set_eq store findingId triage :
  get findingId (set findingId triage store) = Some triage.
Proof. apply lookup_insert_eq. Qed.

Lemma get_set_ne store findingId other triage :
  findingId <> other ->
  get other (set findingId triage store) = get other store.
Proof. intros Hne. unfold get, set. by rewrite lookup_insert_ne. Qed.

(** Each update writes one record, under the id it is given. *)
Lemma get_updateImpact_ne store findingId other v :
  findingId <> other ->
  get other (updateImpact findingId v store) = get other store.
Proof. apply get_set_ne. Qed.

Lemma get_updateMitigation_ne store findingId other v :
  findingId <> other ->
  get other (updateMitigation findingId v store) = get other store.
Proof. apply get_set_ne. Qed.

Lemma get_updateStatus_ne store findingId other v :
  findingId <> other ->
  get other (updateStatus findingId v store) = get other store.
Proof. apply get_set_ne. Qed.

(** Claim C1.  For every finding id: when the store has no record for it,
    [markAsSubmitted] returns the store as it was, so no record is
    created; when it has one, the record stored afterwards has
    [submitted = true], [modified = false], [submittedAt] set to the time
    of the call, and its three snapshot fields equal to the impact, the
    mitigation and the status the record had at the call, which it still
    has. *)
Theorem markAsSubmitted_spec store findingId now :
  (get findingId store = None ->
   markAsSubmitted findingId now store = store)
  /\ (forall triage,
        get findingId store = Some triage ->
        exists r,
          get findingId (markAsSubmitted findingId now store) = Some r
          /\ submitted r = Some true
          /\ modified r = Some false
          /\ submittedAt r = Some now
          /\ originalImpact r = impact triage
          /\ originalMitigation r = mitigation triage
          /\ originalStatus r = status triage
          /\ impact r = impact triage
          /\ mitigation r = mitigation triage
          /\ status r = status triage).
Proof.
  split.
  - intros Hnone. unfold markAsSubmitted. by rewrite Hnone.
  - intros triage Hsome. unfold markAsSubmitted. rewrite Hsome.
    eexists. split; [apply get_set_eq | ]. cbn. tauto.
Qed.

Lemma markAsSubmitted_spec_witness :
  markAsSubmitted 8 1700 {[ 7 := draft ]} = {[ 7 := draft ]}
  /\ exists r,
       get 7 (markAsSubmitted 7 1700 {[ 7 := draft ]}) = Some r
       /\ submitted r = Some true
       /\ modified r = Some false
       /\ submittedAt r = Some 1700
       /\ originalImpact r = Some "data loss"
       /\ originalMitigation r = Some "upgrade"
       /\ originalStatus r = Some Verified
       /\ impact r = Some "data loss"
       /\ mitigation r = Some "upgrade"
       /\ status r = Some Verified.
Proof.
  split.
  - apply (proj1 (markAsSubmitted_spec {[ 7 := draft ]} 8 1700)). reflexivity.
  - apply (proj2 (markAsSubmitted_spec {[ 7 := draft ]} 7 1700) draft).
    reflexivity.
Defined.

(** The invariant of the store: it holds of the empty store and every
    operation keeps it. *)
Lemma recordOk_empty : recordOk emptyTriage.
Proof. by intros _. Qed.

Lemma storeOk_empty : storeOk ∅.
Proof. intros i r H. unfold get in H. by rewrite lookup_empty in H. Qed.

Lemma recordOk_getOrEmpty store findingId :
  storeOk store -> recordOk (getOrEmpty findingId store).
Proof.
  intros Hok. unfold getOrEmpty.
  destruct (get findingId store) eqn:E; [by eapply Hok | apply recordOk_empty].
Qed.

Lemma storeOk_set store findingId triage :
  storeOk store -> recordOk triage -> storeOk (set findingId triage store).
Proof.
  intros Hok Hr i r. destruct (decide (findingId = i)) as [->|Hne].
  - rewrite get_set_eq. by intros [= <-].
  - rewrite get_set_ne by done. apply Hok.
Qed.

Ltac update_ok Hok i :=
  apply storeOk_set; [done | ];
  let Hr := fresh "Hr" in
  pose proof (recordOk_getOrEmpty _ i Hok) as Hr; revert Hr;
  unfold recordOk;
  match goal with
  | |- context [getOrEmpty ?j ?s] => generalize (getOrEmpty j s)
  end;
  intros [? ? ? [[]|] ? ? ? ? ?]; cbn;
  try case_bool_decide; cbn; auto; try discriminate.

Lemma storeOk_updateImpact store findingId v :
  storeOk store -> storeOk (updateImpact findingId v store).
Proof. intros Hok. unfold updateImpact; cbv zeta. update_ok Hok findingId. Qed.

Lemma storeOk_updateMitigation store findingId v :
  storeOk store -> storeOk (updateMitigation findingId v store).
Proof. intros Hok. unfold updateMitigation; cbv zeta. update_ok Hok findingId. Qed.

Lemma storeOk_updateStatus store findingId v :
  storeOk store -> storeOk (updateStatus findingId v store).
Proof. intros Hok. unfold updateStatus; cbv zeta. update_ok Hok findingId. Qed.

Lemma storeOk_markAsSubmitted store findingId now :
  storeOk store -> storeOk (markAsSubmitted findingId now store).
Proof.
  intros Hok. unfold markAsSubmitted.
  destruct (get findingId store); [ | done].
  apply storeOk_set; [done | ]. intros H. discriminate H.
Qed.

Lemma storeOk_step store op : storeOk store -> storeOk (step store op).
Proof.
  destruct op; cbn;
    auto using storeOk_updateImpact, storeOk_updateMitigation,
      storeOk_updateStatus, storeOk_markAsSubmitted, storeOk_empty.
Qed.

Lemma storeOk_run ops store : storeOk store -> storeOk (run ops store).
Proof.
  revert store. induction ops as [|op ops IH]; intros store Hok; [done | ].
  cbn. apply IH. by apply storeOk_step.
Qed.

(** Claim C2.  In every store reached from the empty one by updates of
    the impact, the mitigation and the status, by [markAsSubmitted] and by
    [clear], in any number and order, a record whose [submitted] is not
    true has a [modified] that is not true; so edits of a record that was
    never submitted leave [modified] unset. *)
Theorem modified_only_when_submitted (ops : list Op) findingId triage :
  get findingId (run ops ∅) = Some triage ->
  submitted triage <> Some true ->
  modified triage <> Some true.
Proof.
  intros Hget Hsub.
  pose proof (storeOk_run ops ∅ storeOk_empty findingId triage Hget) as Hok.
  unfold recordOk in Hok. rewrite Hok; [done | ].
  destruct (submitted triage) as [[]|]; done.
Qed.

Lemma modified_only_when_submitted_witness :
  get 7 (run editsOnly ∅)
  = Some (mkTriageData (Some "none") (Some "upgrade") (Some Close)
            None None None None None None)
  /\ modified (mkTriageData (Some "none") (Some "upgrade") (Some Close)
                 None None None None None None) <> Some true.
Proof.
  split; [reflexivity | ].
  apply (modified_only_when_submitted editsOnly 7); [reflexivity | discriminate].
Defined.

End TriageStoreFacts.

Section AfterSubmission.

Import TriageStore Samples.

Implicit Types (store : gmap Z TriageData) (findingId : Z) (triage : TriageData).

Lemma strictNe_same {A} `{EqDecision A} (a : option A) : strictNe a a = false.
Proof. unfold strictNe. by rewrite bool_decide_eq_true_2. Qed.

Lemma strictNe_diff {A} `{EqDecision A} (a b : option A) :
  a <> b -> strictNe a b = true.
Proof. intros Hne. unfold strictNe. by rewrite bool_decide_eq_false_2. Qed.

Lemma truthyStr_Some (s : option string) :
  Js.truthyStr s = true -> exists v, s = Some v /\ v <> EmptyString.
Proof. destruct s as [[|c v]|]; cbn; try discriminate. intros _. by eexists. Qed.

(** Claim C3, amended.  For every record on which [markAsSubmitted] has
    been called while its impact was a non-empty string: an update of the
    impact, or of a mitigation or a status that had a value at that call,
    to a value different from the frozen one results in [modified = true],
    and a further update of that field back to the frozen value results
    in [modified = false]. *)
Theorem edit_then_revert_after_submit store findingId now triage :
  get findingId store = Some triage ->
  Js.truthyStr (impact triage) = true ->
  let s0 := markAsSubmitted findingId now store in
  (forall old v,
     impact triage = Some old -> v <> old ->
     modifiedOf findingId (updateImpact findingId v s0) = Some true
     /\ modifiedOf findingId
          (updateImpact findingId old (updateImpact findingId v s0))
        = Some false)
  /\ (forall old v,
        mitigation triage = Some old -> v <> old ->
        modifiedOf findingId (updateMitigation findingId v s0) = Some true
        /\ modifiedOf findingId
             (updateMitigation findingId old (updateMitigation findingId v s0))
           = Some false)
  /\ (forall old v,
        status triage = Some old -> v <> Some old ->
        modifiedOf findingId (updateStatus findingId v s0) = Some true
        /\ modifiedOf findingId
             (updateStatus findingId (Some old) (updateStatus findingId v s0))
           = Some false).
Proof.
  intros Hget Himp s0.
  destruct (truthyStr_Some _ Himp) as (i0 & Hi0 & Hne0).
  assert (Hs0 : get findingId s0
                = Some (mkTriageData (impact triage) (mitigation triage)
                          (status triage) (Some true) (Some now) (Some false)
                          (impact triage) (mitigation triage) (status triage))).
  { unfold s0, markAsSubmitted. rewrite Hget. apply get_set_eq. }
  split; [ | split]; intros old v Hold Hv; split;
    unfold modifiedOf, updateImpact, updateMitigation, updateStatus, getOrEmpty;
    cbv zeta; rewrite ?get_set_eq, ?Hs0; cbn;
    rewrite ?Hold, ?Hi0 in *; cbn;
    repeat case_bool_decide; try done; cbn;
    unfold isTriageModified; cbn;
    destruct i0; try done; cbn;
    rewrite ?strictNe_same; cbn;
    try (rewrite strictNe_diff by congruence); cbn;
    rewrite ?orb_true_r; try done.
Qed.

Lemma edit_then_revert_after_submit_witness :
  let s0 := markAsSubmitted 7 1700 {[ 7 := draft ]} in
  (modifiedOf 7 (updateImpact 7 "outage" s0) = Some true
   /\ modifiedOf 7 (updateImpact 7 "data loss" (updateImpact 7 "outage" s0))
      = Some false)
  /\ (modifiedOf 7 (updateMitigation 7 "isolate" s0) = Some true
      /\ modifiedOf 7
           (updateMitigation 7 "upgrade" (updateMitigation 7 "isolate" s0))
         = Some false)
  /\ (modifiedOf 7 (updateStatus 7 (Some Close) s0) = Some true
      /\ modifiedOf 7
           (updateStatus 7 (Some Verified) (updateStatus 7 (Some Close) s0))
         = Some false).
Proof.
  pose proof (edit_then_revert_after_submit {[ 7 := draft ]} 7 1700 draft
                eq_refl eq_refl) as (Hi & Hm & Hs).
  split; [ | split].
  - apply (Hi "data loss" "outage"); [reflexivity | discriminate].
  - apply (Hm "upgrade" "isolate"); [reflexivity | discriminate].
  - apply (Hs Verified (Some Close)); [reflexivity | discriminate].
Defined.

(** Claim C3 as it is stated fails on two records.  In the first the
    mitigation had no value at the submission: the later mitigation differs
    from the frozen one, which is absent, and [modified] stays false, for
    [updateMitigation] recomputes it only when the frozen mitigation is
    defined.  In the second the impact was the empty string at the
    submission: the later mitigation differs from the frozen one and
    [modified] stays false. *)
Lemma edit_after_submit_counterexample :
  (get 7 (updateMitigation 7 "upgrade"
            (markAsSubmitted 7 1700 {[ 7 := impactOnlyDraft ]}))
   = Some (mkTriageData (Some "data loss") (Some "upgrade") None
             (Some true) (Some 1700) (Some false)
             (Some "data loss") None None))
  /\ (get 7 (updateMitigation 7 "isolate"
               (markAsSubmitted 7 1700 {[ 7 := emptyImpactDraft ]}))
      = Some (mkTriageData (Some EmptyString) (Some "isolate") (Some Verified)
                (Some true) (Some 1700) (Some false)
                (Some EmptyString) (Some "upgrade") (Some Verified))).
Proof. split; reflexivity. Qed.

(** What an update does to the record it is given. *)
Lemma update_record store op findingId triage :
  isUpdate op = true ->
  get findingId store = Some triage ->
  exists r,
    get findingId (step store op) = Some r
    /\ originalImpact r = originalImpact triage
    /\ originalMitigation r = originalMitigation triage
    /\ originalStatus r = originalStatus triage
    /\ submitted r = submitted triage
    /\ (modified r = modified triage
        \/ modified r = Some (isTriageModified r)).
Proof.
  intros Hop Hget.
  destruct op as [i v|i v|i v|i t|]; try discriminate Hop; cbn;
    (destruct (decide (i = findingId)) as [->|Hne];
     [ unfold updateImpact, updateMitigation, updateStatus, getOrEmpty;
       cbv zeta; rewrite Hget, get_set_eq; eexists; split; [done | ];
       destruct (_ && _); cbn; auto 8
     | rewrite ?get_updateImpact_ne, ?get_updateMitigation_ne,
         ?get_updateStatus_ne by done;
       exists triage; auto 8 ]).
Qed.

(** Updates leave an empty frozen impact as it is, and with it
    [isTriageModified] false. *)
Lemma updates_keep_empty_snapshot (ops : list Op) store findingId triage :
  forallb isUpdate ops = true ->
  get findingId store = Some triage ->
  Js.truthyStr (originalImpact triage) = false ->
  exists r,
    get findingId (run ops store) = Some r
    /\ originalImpact r = originalImpact triage
    /\ originalMitigation r = originalMitigation triage
    /\ originalStatus r = originalStatus triage
    /\ submitted r = submitted triage
    /\ isTriageModified r = false
    /\ (modified r = modified triage \/ modified r = Some false).
Proof.
  revert store triage.
  induction ops as [|op ops IH]; intros store triage Hops Hget Himp.
  - exists triage. repeat split; auto.
    unfold isTriageModified. rewrite Himp. by rewrite orb_true_r.
  - cbn in Hops. apply andb_true_iff in Hops as [Hop Hops].
    destruct (update_record store op findingId triage Hop Hget)
      as (r1 & Hget1 & Hoi & Hom & Hos & Hsub & Hmod).
    assert (Himp1 : Js.truthyStr (originalImpact r1) = false) by by rewrite Hoi.
    destruct (IH (step store op) r1 Hops Hget1 Himp1)
      as (r & Hget' & Hoi' & Hom' & Hos' & Hsub' & Hitm & Hmod').
    exists r. cbn. split; [done | ]. do 5 (split; [congruence | ]).
    assert (Hitm1 : isTriageModified r1 = false).
    { unfold isTriageModified. rewrite Himp1. by rewrite orb_true_r. }
    rewrite Hitm1 in Hmod.
    destruct Hmod' as [H1|H1]; destruct Hmod as [H2|H2];
      [left | right | right | right]; congruence.
Qed.

(** The same as an invariant of the store, kept by every operation. *)
Lemma snapshotStoreOk_empty : snapshotStoreOk ∅.
Proof. intros i r H. unfold get in H. by rewrite lookup_empty in H. Qed.

Lemma snapshotStoreOk_set store findingId triage :
  snapshotStoreOk store -> snapshotOk triage ->
  snapshotStoreOk (set findingId triage store).
Proof.
  intros Hok Hr i r. destruct (decide (findingId = i)) as [->|Hne].
  - rewrite get_set_eq. by intros [= <-].
  - rewrite get_set_ne by done. apply Hok.
Qed.

Lemma snapshotOk_getOrEmpty store findingId :
  snapshotStoreOk store -> snapshotOk (getOrEmpty findingId store).
Proof.
  intros Hok. unfold getOrEmpty.
  destruct (get findingId store) eqn:E; [by eapply Hok | ]. by intros _.
Qed.

Lemma snapshotOk_recompute triage :
  snapshotOk (recompute triage).
Proof.
  intros H. cbn in *. unfold isTriageModified. rewrite H.
  by rewrite orb_true_r.
Qed.

Lemma snapshotStoreOk_step store op :
  snapshotStoreOk store -> snapshotStoreOk (step store op).
Proof.
  intros Hok. destruct op as [i v|i v|i v|i t|]; cbn.
  - apply snapshotStoreOk_set; [done | ].
    pose proof (snapshotOk_getOrEmpty _ i Hok) as Hr.
    destruct (_ && _); [apply snapshotOk_recompute | exact Hr].
  - apply snapshotStoreOk_set; [done | ].
    pose proof (snapshotOk_getOrEmpty _ i Hok) as Hr.
    destruct (_ && _); [apply snapshotOk_recompute | exact Hr].
  - apply snapshotStoreOk_set; [done | ].
    pose proof (snapshotOk_getOrEmpty _ i Hok) as Hr.
    destruct (_ && _); [apply snapshotOk_recompute | exact Hr].
  - unfold markAsSubmitted. destruct (get i store); [ | done].
    apply snapshotStoreOk_set; [done | ]. by intros _.
  - apply snapshotStoreOk_empty.
Qed.

Lemma snapshotStoreOk_run ops store :
  snapshotStoreOk store -> snapshotStoreOk (run ops store).
Proof.
  revert store. induction ops as [|op ops IH]; intros store Hok; [done | ].
  cbn. apply IH. by apply snapshotStoreOk_step.
Qed.

(** Claim C10.  When the frozen impact of a record is the empty string or
    absent, [isTriageModified] is false of the record and of every state
    updates of the impact, the mitigation and the status bring it to,
    whatever they set: the snapshot and [submitted] stay as they are, and
    [modified] keeps its value or becomes false, so no update sets it to
    true, also when the record is submitted and its mitigation or status
    differ from their snapshots.  And in every store reached from the
    empty one by updates, [markAsSubmitted] and [clear], a record whose
    frozen impact is empty or absent has [isTriageModified] false and a
    [modified] that is not true. *)
Theorem empty_impact_snapshot_never_modified :
  (forall (ops : list Op) store findingId triage,
     forallb isUpdate ops = true ->
     get findingId store = Some triage ->
     Js.truthyStr (originalImpact triage) = false ->
     exists r,
       get findingId (run ops store) = Some r
       /\ originalImpact r = originalImpact triage
       /\ originalMitigation r = originalMitigation triage
       /\ originalStatus r = originalStatus triage
       /\ submitted r = submitted triage
       /\ isTriageModified r = false
       /\ (modified r = modified triage \/ modified r = Some false))
  /\ (forall (ops : list Op) findingId triage,
        get findingId (run ops ∅) = Some triage ->
        Js.truthyStr (originalImpact triage) = false ->
        isTriageModified triage = false /\ modified triage <> Some true).
Proof.
  split; [apply updates_keep_empty_snapshot | ].
  intros ops findingId triage Hget Himp. split.
  - unfold isTriageModified. rewrite Himp. by rewrite orb_true_r.
  - by apply (snapshotStoreOk_run ops ∅ snapshotStoreOk_empty findingId triage).
Qed.

Lemma empty_impact_snapshot_never_modified_witness :
  get 7 (run laterEdits (markAsSubmitted 7 1700 {[ 7 := emptyImpactDraft ]}))
  = Some (mkTriageData (Some "data loss") (Some "isolate") (Some Close)
            (Some true) (Some 1700) (Some false)
            (Some EmptyString) (Some "upgrade") (Some Verified))
  /\ (exists r,
        get 7 (run laterEdits
                 (markAsSubmitted 7 1700 {[ 7 := emptyImpactDraft ]}))
        = Some r
        /\ originalImpact r = Some EmptyString
        /\ originalMitigation r = Some "upgrade"
        /\ originalStatus r = Some Verified
        /\ submitted r = Some true
        /\ isTriageModified r = false
        /\ (modified r = Some false \/ modified r = Some false))
  /\ (isTriageModified
        (mkTriageData (Some EmptyString) (Some "isolate") None
           (Some true) (Some 1700) (Some false)
           (Some EmptyString) (Some "upgrade") None)
      = false
      /\ modified
           (mkTriageData (Some EmptyString) (Some "isolate") None
              (Some true) (Some 1700) (Some false)
              (Some EmptyString) (Some "upgrade") None)
         <> Some true).
Proof.
  split; [reflexivity | split].
  - apply (proj1 empty_impact_snapshot_never_modified laterEdits
             (markAsSubmitted 7 1700 {[ 7 := emptyImpactDraft ]}) 7
             (mkTriageData (Some EmptyString) (Some "upgrade") (Some Verified)
                (Some true) (Some 1700) (Some false)
                (Some EmptyString) (Some "upgrade") (Some Verified)));
      reflexivity.
  - apply (proj2 empty_impact_snapshot_never_modified submitEmptyThenEdit 7);
      reflexivity.
Defined.

End AfterSubmission.

(** * The client *)

Section ClientFacts.

Import Client.

(** Claim C9, amended.  The body [updateFinding] sends holds the impact
    and the mitigation and then, by status: for 'Verified', [verified]
    true, [active] true, [false_p] false, [out_of_scope] false; for 'False
    positive', [false_p] true, [active] false, [out_of_scope] false; for
    'Out Of Scope', [out_of_scope] true, [active] false, [false_p] false
    and [push_to_jira] true; for 'Close', [verified], [active], [false_p]
    and [out_of_scope] all false; and nothing else. *)
Theorem updateData_by_status (i m : string) :
  updateData (mkUpdateInput i m Verified)
  = [("impact", JStr i); ("mitigation", JStr m);
     ("verified", JBool true); ("active", JBool true);
     ("false_p", JBool false); ("out_of_scope", JBool false)]
  /\ updateData (mkUpdateInput i m FalsePositive)
     = [("impact", JStr i); ("mitigation", JStr m);
        ("false_p", JBool true); ("active", JBool false);
        ("out_of_scope", JBool false)]
  /\ updateData (mkUpdateInput i m OutOfScope)
     = [("impact", JStr i); ("mitigation", JStr m);
        ("out_of_scope", JBool true); ("active", JBool false);
        ("false_p", JBool false); ("push_to_jira", JBool true)]
  /\ updateData (mkUpdateInput i m Close)
     = [("impact", JStr i); ("mitigation", JStr m);
        ("verified", JBool false); ("active", JBool false);
        ("false_p", JBool false); ("out_of_scope", JBool false)].
Proof. repeat split. Qed.

(** Claim C9 as it is stated fails for 'Out Of Scope': the body is not the
    one listed, for it also sets [push_to_jira]. *)
Lemma updateData_out_of_scope_counterexample :
  updateData (mkUpdateInput "data loss" "upgrade" OutOfScope)
  <> [("impact", JStr "data loss"); ("mitigation", JStr "upgrade");
      ("out_of_scope", JBool true); ("active", JBool false);
      ("false_p", JBool false)]
  /\ In ("push_to_jira", JBool true)
       (updateData (mkUpdateInput "data loss" "upgrade" OutOfScope)).
Proof. split; [discriminate | cbn; tauto]. Qed.

End ClientFacts.

(** * The submit-triage command *)

Section SubmitLoop.

Import Client Submit.

Variable server : Server.
Variable clock : nat -> Z.
Variable isAggregated : bool.
Variable data : UpdateInput.
Variable totalFindings : nat.

Lemma calls_app l1 l2 : calls (l1 ++ l2) = (calls l1 ++ calls l2)%list.
Proof. apply List.filter_app. Qed.

(** The loop adds to the log the calls [expectedCalls] lists, between
    progress reports. *)
Lemma loop_calls ids st :
  calls (log (fst (loop server clock isAggregated data totalFindings ids st)))
  = (calls (log st) ++ expectedCalls server data ids)%list.
Proof.
  revert st. induction ids as [|i ids IH]; intros st; cbn [loop expectedCalls].
  - cbn. by rewrite app_nil_r.
  - unfold iteration, updateFinding.
    destruct (server i (updateData data)) as [msg|].
    + cbn [fst log emit]. rewrite !calls_app. cbn [calls List.filter isCall].
      by rewrite ?app_nil_r, <- ?app_assoc.
    + rewrite IH. cbn [fst log emit store completed jiraErrors].
      rewrite !calls_app. cbn [calls List.filter isCall].
      by rewrite ?app_nil_r, <- ?app_assoc.
Qed.

Lemma expectedCalls_all_ok ids :
  Forall (fun i => server i (updateData data) = None) ids ->
  expectedCalls server data ids
  = flat_map (fun i => [UpdateFinding i data; MarkAsSubmitted i]) ids.
Proof.
  induction 1 as [|i ids Hi _ IH]; [done | ].
  cbn [expectedCalls flat_map app]. by rewrite Hi, IH.
Qed.

Lemma expectedCalls_failure before i after :
  Forall (fun j => server j (updateData data) = None) before ->
  server i (updateData data) <> None ->
  expectedCalls server data (before ++ i :: after)
  = (flat_map (fun j => [UpdateFinding j data; MarkAsSubmitted j]) before
     ++ [UpdateFinding i data])%list.
Proof.
  intros Hb Hi.
  induction Hb as [|j before Hj _ IH]; cbn [expectedCalls flat_map app].
  - by destruct (server i (updateData data)).
  - by rewrite Hj, IH.
Qed.

End SubmitLoop.

Section SubmitCommand.

Import Client Submit Samples.

Lemma blankOrMissing_false (s : option string) :
  blankOrMissing s = false ->
  exists v, s = Some v /\ Js.truthyStr (Some v) = true.
Proof.
  destruct s as [v|]; [ | discriminate]. unfold blankOrMissing.
  intros H. apply orb_false_iff in H as [H _]. apply negb_false_iff in H.
  by exists v.
Qed.

(** A record that passes the validation has its three fields. *)
Lemma validateTriageData_valid triage :
  isValid (validateTriageData (Some triage)) = true ->
  exists i m s,
    impact triage = Some i /\ Js.truthyStr (Some i) = true
    /\ mitigation triage = Some m /\ Js.truthyStr (Some m) = true
    /\ status triage = Some s.
Proof.
  unfold validateTriageData. cbn [isValid].
  destruct (blankOrMissing (impact triage)) eqn:Hi; [discriminate | ].
  destruct (blankOrMissing (mitigation triage)) eqn:Hm; [discriminate | ].
  destruct (status triage) as [s|] eqn:Hs; [ | discriminate].
  intros _.
  destruct (blankOrMissing_false _ Hi) as (i & -> & Hi').
  destruct (blankOrMissing_false _ Hm) as (m & -> & Hm').
  by exists i, m, s.
Qed.

Lemma truthyStr_nonempty (s : string) :
  s <> EmptyString -> Js.truthyStr (Some s) = true.
Proof. by destruct s. Qed.

(** What the handler does once the stored triage is valid and the
    connection is configured. *)
Lemma submitTriage_calls config server clock panel finding store0 triage :
  TriageStore.get (id finding) store0 = Some triage ->
  isValid (validateTriageData (Some triage)) = true ->
  apiToken config <> EmptyString ->
  url config <> EmptyString ->
  exists i m s,
    impact triage = Some i /\ mitigation triage = Some m
    /\ status triage = Some s
    /\ calls (snd (submitTriage config server clock panel (Some finding) store0))
       = expectedCalls server (mkUpdateInput i m s) (originalFindingIds finding).
Proof.
  intros Hget Hvalid Htok Hurl.
  destruct (validateTriageData_valid _ Hvalid)
    as (i & m & s & Hi & Hti & Hm & Htm & Hs).
  exists i, m, s. repeat (split; [done | ]).
  unfold submitTriage. rewrite Hget, Hvalid. cbn [negb].
  destruct triage as [ti tm ts sub sat mo oi om os].
  cbn in Hi, Hm, Hs. subst ti tm ts.
  rewrite Hti, Htm, (truthyStr_nonempty _ Htok), (truthyStr_nonempty _ Hurl).
  cbn [negb orb]. cbv zeta.
  set (data := mkUpdateInput i m s).
  set (st0 := mkState store0 _ 0 []).
  pose proof (loop_calls server clock
                (bool_decide (_isAggregated finding = Some true)) data
                (length (originalFindingIds finding))
                (originalFindingIds finding) st0) as Hcalls.
  destruct (loop _ _ _ _ _ _ st0) as [st [msg|]]; cbn [snd fst] in *.
  - rewrite calls_app, Hcalls. cbn. by rewrite app_nil_r.
  - rewrite !calls_app, Hcalls.
    assert (Hj : calls (jiraWarning (jiraErrors st)) = []).
    { unfold jiraWarning. by destruct (jiraErrors st) as [|? [|? ?]]. }
    assert (Hp : calls (if bool_decide (panel = Some (id finding))
                        then [UpdatePanel] else []) = []).
    { by destruct (bool_decide _). }
    rewrite Hj, Hp. cbn. by rewrite app_nil_r.
Qed.

End SubmitCommand.

Section SubmitClaim.

Import Client Submit Samples.

(** Claim C4, amended.  When the command runs on a finding whose stored
    triage passes the validation, with the connection settings filled in:
    the ids it works on are those of [_aggregatedFindingIds], or the id of
    the finding alone when that field is absent; if every call of
    [client.updateFinding] returns, it makes exactly one such call per id,
    in that order, each with the impact, the mitigation and the status of
    the stored record, and calls [triageStore.markAsSubmitted] on each id
    right after its call; if a call throws, the calls made are those for
    the ids before it, each with its [markAsSubmitted], and the call that
    threw, with nothing after it. *)
Theorem submit_fans_out config server clock panel finding store0 triage :
  TriageStore.get (id finding) store0 = Some triage ->
  isValid (validateTriageData (Some triage)) = true ->
  apiToken config <> EmptyString ->
  url config <> EmptyString ->
  exists i m s,
    impact triage = Some i /\ mitigation triage = Some m
    /\ status triage = Some s
    /\ let data := mkUpdateInput i m s in
       let ids := originalFindingIds finding in
       let made :=
         calls (snd (submitTriage config server clock panel (Some finding) store0)) in
       (_aggregatedFindingIds finding = None -> ids = [id finding])
       /\ (forall l, _aggregatedFindingIds finding = Some l -> ids = l)
       /\ (Forall (fun j => server j (updateData data) = None) ids ->
           made = flat_map (fun j => [UpdateFinding j data; MarkAsSubmitted j]) ids)
       /\ (forall before j after,
             ids = (before ++ j :: after)%list ->
             Forall (fun j' => server j' (updateData data) = None) before ->
             server j (updateData data) <> None ->
             made
             = (flat_map (fun j' => [UpdateFinding j' data; MarkAsSubmitted j'])
                  before
                ++ [UpdateFinding j data])%list).
Proof.
  intros Hget Hvalid Htok Hurl.
  destruct (submitTriage_calls config server clock panel finding store0 triage
              Hget Hvalid Htok Hurl) as (i & m & s & Hi & Hm & Hs & Hcalls).
  exists i, m, s. repeat (split; [done | ]). cbv zeta.
  split; [ | split; [ | split]].
  - unfold originalFindingIds. by intros ->.
  - unfold originalFindingIds. by intros l ->.
  - intros Hok. rewrite Hcalls. by apply expectedCalls_all_ok.
  - intros before j after Hids Hok Hfail. rewrite Hcalls, Hids.
    by apply expectedCalls_failure.
Qed.

Lemma submit_fans_out_witness :
  calls (snd (submitTriage connection healthy clock None (Some pomComposite) drafts))
  = [UpdateFinding 1 payload; MarkAsSubmitted 1;
     UpdateFinding 3 payload; MarkAsSubmitted 3].
Proof.
  destruct (submit_fans_out connection healthy clock None pomComposite drafts
              draft
              eq_refl eq_refl ltac:(discriminate) ltac:(discriminate))
    as (i & m & s & Hi & Hm & Hs & _ & _ & Hall & _).
  injection Hi as <-. injection Hm as <-. injection Hs as <-.
  apply Hall. repeat constructor.
Defined.

(** Claim C4 as it is stated fails when a call of [client.updateFinding]
    throws and when a connection setting is empty.  With the ids 1 and 3
    and a service that rejects the patch of 1, the only call is the one
    for 1, no id is marked and the store is as before.  With an empty API
    token there is no call at all. *)
Lemma submit_fans_out_counterexample :
  patchCalls
    (snd (submitTriage connection rejectingFirst clock None
            (Some pomComposite)
            drafts))
  = [(1, payload)]
  /\ calls
       (snd (submitTriage connection rejectingFirst clock None
            (Some pomComposite)
               drafts))
     = [UpdateFinding 1 payload]
  /\ fst (submitTriage connection rejectingFirst clock None
            (Some pomComposite)
            drafts)
     = drafts
  /\ snd (submitTriage noConnection healthy clock None (Some pomComposite)
            drafts)
     = [ShowErrorMessage CONFIGURE_CONNECTION].
Proof. repeat split. Qed.

End SubmitClaim.

(** * The aggregation of findings *)

Section AggregateFacts.

Import Aggregate Samples.

Lemma firstSeen_In k keys : In k (firstSeen keys) <-> In k keys.
Proof.
  induction keys as [|a keys IH]; cbn; [done | ].
  rewrite List.filter_In, IH, negb_true_iff, String.eqb_neq.
  destruct (String.eqb_spec a k) as [->|Hne]; [tauto | ].
  split; [intros [H|[H _]]; auto | intros [H|H]; [by left | right; split; congruence]].
Qed.

Lemma firstSeen_NoDup keys : List.NoDup (firstSeen keys).
Proof.
  induction keys as [|a keys IH]; cbn; constructor.
  - rewrite List.filter_In, negb_true_iff, String.eqb_neq. tauto.
  - by apply List.NoDup_filter.
Qed.

Lemma filter_ne_snoc (a k : string) l :
  List.filter (fun k' => negb (String.eqb k' a)) (l ++ [k])
  = (List.filter (fun k' => negb (String.eqb k' a)) l
     ++ if String.eqb k a then [] else [k])%list.
Proof. rewrite List.filter_app. cbn. by destruct (String.eqb k a). Qed.

Lemma firstSeen_snoc keys k :
  firstSeen (keys ++ [k])
  = if existsb (String.eqb k) keys then firstSeen keys
    else (firstSeen keys ++ [k])%list.
Proof.
  induction keys as [|a keys IH]; cbn; [done | ].
  rewrite IH. destruct (String.eqb_spec k a) as [->|Hne]; cbn.
  - destruct (existsb (String.eqb a) keys); [done | ].
    rewrite filter_ne_snoc. rewrite String.eqb_refl. by rewrite app_nil_r.
  - destruct (existsb (String.eqb k) keys); [done | ].
    rewrite filter_ne_snoc. by destruct (String.eqb_spec k a).
Qed.

Lemma membersAt_snoc k findings f :
  membersAt k (findings ++ [f])
  = (membersAt k findings ++ if String.eqb (locationOf f) k then [f] else [])%list.
Proof. unfold membersAt. rewrite List.filter_app. cbn. by destruct (String.eqb _ k). Qed.

Lemma has_partition location findings :
  has location (partition findings)
  = existsb (String.eqb location) (map locationOf findings).
Proof.
  unfold partition.
  assert (H : forall keys g, has location (map (fun k => (k, g k)) keys)
                           = existsb (String.eqb location) keys).
  { intros keys g. induction keys as [|a keys IH]; cbn; [done | ].
    rewrite IH, (String.eqb_sym a location). by destruct (String.eqb location a). }
  rewrite (H _ (fun k => membersAt k findings)).
  apply eq_true_iff_eq. rewrite !existsb_exists.
  split; intros (x & Hx & E); exists x; split; auto; by apply firstSeen_In.
Qed.

(** [push] on a map without duplicate keys. *)
Lemma push_map location f (g : string -> list Finding) keys :
  List.NoDup keys ->
  push location f (map (fun k => (k, g k)) keys)
  = map (fun k => (k, (g k ++ if String.eqb location k then [f] else [])%list)) keys.
Proof.
  induction 1 as [|a keys Ha Hnd IH]; cbn; [done | ].
  destruct (String.eqb_spec a location) as [->|Hne].
  - rewrite String.eqb_refl. f_equal.
    apply map_ext_in. intros k Hk.
    destruct (String.eqb_spec location k) as [->|]; [done | ].
    by rewrite app_nil_r.
  - rewrite IH. destruct (String.eqb_spec location a); [congruence | ].
    by rewrite app_nil_r.
Qed.

Lemma seen_In location findings :
  existsb (String.eqb location) (map locationOf findings) = true
  <-> In location (map locationOf findings).
Proof.
  rewrite existsb_exists. split.
  - intros (x & Hx & E). apply String.eqb_eq in E. by subst.
  - intros H. exists location. split; [done | apply String.eqb_refl].
Qed.

Lemma membersAt_unseen location findings :
  ~ In location (map locationOf findings) -> membersAt location findings = [].
Proof.
  intros Hnot. unfold membersAt.
  induction findings as [|x findings IH]; cbn [List.filter]; [done | ].
  destruct (String.eqb_spec (locationOf x) location) as [Heq|Hne].
  - exfalso. apply Hnot. left. done.
  - apply IH. intros H. apply Hnot. by right.
Qed.

Lemma addFinding_partition findings f :
  addFinding (partition findings) f = partition (findings ++ [f]).
Proof.
  unfold addFinding. rewrite has_partition.
  unfold partition. rewrite (List.map_app locationOf). cbn [List.map].
  rewrite firstSeen_snoc.
  set (keys := firstSeen (map locationOf findings)).
  destruct (existsb _ _) eqn:E.
  - rewrite push_map by apply firstSeen_NoDup.
    apply map_ext. intros k. by rewrite membersAt_snoc.
  - assert (Hnot : ~ In (locationOf f) (map locationOf findings)).
    { rewrite <- seen_In. congruence. }
    assert (Hfresh : ~ In (locationOf f) keys).
    { unfold keys. by rewrite firstSeen_In. }
    transitivity
      (push (locationOf f) f
         (map (fun k => (k, if String.eqb k (locationOf f) then []
                            else membersAt k findings))
            (keys ++ [locationOf f]))).
    { f_equal. rewrite List.map_app. cbn [List.map]. rewrite String.eqb_refl.
      f_equal. apply map_ext_in. intros k Hk.
      destruct (String.eqb_spec k (locationOf f)) as [Heq|Hne]; [ | done].
      subst k. by destruct Hfresh. }
    rewrite push_map.
    2:{ apply List.NoDup_app; [apply firstSeen_NoDup | | ].
        - constructor; [intros [] | constructor].
        - intros x Hx [<-|[]]. by apply Hfresh. }
    apply map_ext. intros k. f_equal. rewrite membersAt_snoc.
    rewrite (String.eqb_sym k).
    destruct (String.eqb_spec (locationOf f) k) as [<-|Hne]; [ | done].
    by rewrite membersAt_unseen.
Qed.

Lemma groupByLocation_partition findings :
  groupByLocation findings = partition findings.
Proof.
  unfold groupByLocation.
  induction findings as [|f findings IH] using rev_ind; [done | ].
  rewrite fold_left_app. cbn. rewrite IH. apply addFinding_partition.
Qed.

Lemma membersAt_seen location findings :
  In location (map locationOf findings) -> membersAt location findings <> [].
Proof.
  intros Hin Hnil. apply in_map_iff in Hin as (f & Hf & Hin).
  assert (Hm : In f (membersAt location findings)).
  { unfold membersAt. apply List.filter_In. split; [done | ].
    by apply String.eqb_eq. }
  rewrite Hnil in Hm. destruct Hm.
Qed.

Lemma aggregate_partition findings :
  aggregateDependencyTrackFindings findings
  = flat_map (fun k => aggregateGroup (k, membersAt k findings))
      (firstSeen (map locationOf findings)).
Proof.
  unfold aggregateDependencyTrackFindings.
  rewrite groupByLocation_partition. unfold partition.
  by rewrite flat_map_concat_map, List.map_map, <- flat_map_concat_map.
Qed.

Lemma locationOf_file_path f : locationOf f = file_path f.
Proof. unfold locationOf. by destruct (file_path f). Qed.

Lemma membersAt_file_path location findings :
  membersAt location findings
  = List.filter (fun f => String.eqb (file_path f) location) findings.
Proof.
  unfold membersAt. apply List.filter_ext. intros f.
  by rewrite locationOf_file_path.
Qed.

Lemma locations_file_path findings :
  map locationOf findings = map file_path findings.
Proof. apply map_ext. apply locationOf_file_path. Qed.

(** Claim C5.  The location key of a finding is its [file_path].  For
    every list of findings, the grouping is the partition of the list by
    [file_path]: its keys are the distinct file paths of the list, each
    once, in the order in which they are first seen, and the group of a
    key holds the findings with that file path in the order of the input.
    The result has one element per key, in that order: a group of one
    finding gives that finding, unchanged; a group of two or more gives a
    composite with the id of the first member, [_isAggregated] true,
    [_aggregatedFindingIds] the ids of the members and [_originalFindings]
    the members, both in the order of the input. *)
Theorem aggregate_by_location findings :
  let keys := firstSeen (map file_path findings) in
  let group location :=
    List.filter (fun f => String.eqb (file_path f) location) findings in
  (forall f, locationOf f = file_path f)
  /\ List.NoDup keys
  /\ (forall location,
        In location keys <-> exists f, In f findings /\ file_path f = location)
  /\ groupByLocation findings
     = map (fun location => (location, group location)) keys
  /\ Forall2
       (fun location out =>
          (exists single, group location = [single] /\ out = single)
          \/ (exists first second rest,
                group location = first :: second :: rest
                /\ id out = id first
                /\ _isAggregated out = Some true
                /\ _aggregatedFindingIds out = Some (map id (group location))
                /\ _originalFindings out = Some (group location)))
       keys
       (aggregateDependencyTrackFindings findings).
Proof.
  cbv zeta. rewrite <- locations_file_path.
  split; [apply locationOf_file_path | ].
  split; [apply firstSeen_NoDup | ].
  split.
  { intros location. rewrite firstSeen_In, in_map_iff.
    split; intros (f & H1 & H2); exists f.
    - by rewrite <- locationOf_file_path.
    - by rewrite locationOf_file_path. }
  split.
  { rewrite groupByLocation_partition. unfold partition.
    apply map_ext. intros k. by rewrite membersAt_file_path. }
  rewrite aggregate_partition.
  assert (Hkeys : forall k, In k (firstSeen (map locationOf findings)) ->
                            membersAt k findings <> []).
  { intros k Hk. apply membersAt_seen. by apply firstSeen_In. }
  induction (firstSeen (map locationOf findings)) as [|k keys IH];
    cbn [flat_map]; [constructor | ].
  pose proof (Hkeys k (or_introl eq_refl)) as Hne.
  unfold aggregateGroup at 1.
  destruct (membersAt k findings) as [|first [|second rest]] eqn:E;
    [done | | ]; cbn [app].
  - constructor; [ | apply IH; intros; apply Hkeys; by right].
    rewrite <- !membersAt_file_path, E. left. by exists first.
  - constructor; [ | apply IH; intros; apply Hkeys; by right].
    rewrite <- !membersAt_file_path, E.
    right. exists first, second, rest. by repeat split.
Qed.

(** The three sample findings: the two of [pom.xml] form one group, the
    one of [build.gradle] a group of its own. *)
Lemma aggregate_by_location_witness :
  groupByLocation findings
  = [("pom.xml", [pomLog4j; pomJackson]); ("build.gradle", [gradleGuava])]
  /\ Forall2
       (fun location out =>
          (exists single,
             List.filter (fun f => String.eqb (file_path f) location) findings
             = [single] /\ out = single)
          \/ (exists first second rest,
                List.filter (fun f => String.eqb (file_path f) location)
                  findings
                = first :: second :: rest
                /\ id out = id first
                /\ _isAggregated out = Some true
                /\ _aggregatedFindingIds out
                   = Some (map id
                             (List.filter
                                (fun f => String.eqb (file_path f) location)
                                findings))
                /\ _originalFindings out
                   = Some (List.filter
                             (fun f => String.eqb (file_path f) location)
                             findings)))
       ["pom.xml"; "build.gradle"]
       (aggregateDependencyTrackFindings findings).
Proof.
  destruct (aggregate_by_location findings) as (_ & _ & _ & Hgroups & Hout).
  split; [exact Hgroups | exact Hout].
Defined.

(** The three sample findings: the two of [pom.xml] become one composite,
    placed where the first of them was, and the one of [build.gradle] is
    passed through. *)
Example aggregated_sample :
  aggregated = [pomComposite; gradleGuava]
  /\ map id aggregated = [1; 2]
  /\ _aggregatedFindingIds pomComposite = Some [1; 3]
  /\ _isAggregated gradleGuava = None.
Proof. repeat split. Qed.

Lemma mapi_length {A B} (g : nat -> A -> B) start xs :
  length (mapi g start xs) = length xs.
Proof.
  revert start. induction xs as [|x xs IH]; intros start; cbn; [done | ].
  by rewrite IH.
Qed.

Lemma mapi_nth_error {A B} (g : nat -> A -> B) start xs n x :
  nth_error xs n = Some x ->
  nth_error (mapi g start xs) n = Some (g (start + n)%nat x).
Proof.
  revert start n. induction xs as [|y xs IH]; intros start [|n] H;
    cbn in *; try discriminate.
  - injection H as ->. by rewrite Nat.add_0_r.
  - rewrite (IH (S start) n H). f_equal. f_equal. lia.
Qed.

Lemma membersAt_location location findings f :
  In f (membersAt location findings) -> In location (map locationOf findings).
Proof.
  unfold membersAt. intros H. apply List.filter_In in H as [Hin Heq].
  apply String.eqb_eq in Heq. subst. by apply in_map.
Qed.

(** Claim C6, amended.  For every group of two or more findings the
    result holds a composite whose description is, line by line: the text
    'Aggregated finding for Location: ' with the location of the group; an
    empty line; 'Includes the following findings:'; one line per member in
    the order of the group, made of the index from 1, '. ', the title, ' (',
    the component, then ' version ' and the version when one is known, ', ',
    the severity and ')'; an empty line; 'Total count: ' with the number of
    members.  Its title is '[Aggregated] ' before the title of the first
    member, or before 'Finding' when that title is empty. *)
Theorem aggregated_summary findings location first second rest :
  membersAt location findings = first :: second :: rest ->
  let group := first :: second :: rest in
  exists out lines,
    In out (aggregateDependencyTrackFindings findings)
    /\ _originalFindings out = Some group
    /\ description out
       = "Aggregated finding for Location: " ++ location ++ newline ++ newline
         ++ "Includes the following findings:" ++ newline
         ++ Str.join newline lines ++ newline ++ newline
         ++ "Total count: " ++ Str.ofNat (length group)
    /\ length lines = length group
    /\ (forall n f,
          nth_error group n = Some f ->
          nth_error lines n
          = Some (Str.ofNat (n + 1) ++ ". " ++ lineTitle f ++ " ("
                  ++ lineComponentName f ++ lineVersionText f ++ ", "
                  ++ lineSeverity f ++ ")")
          /\ lineVersionText f
             = if Str.isEmpty (lineComponentVersion f) then EmptyString
               else " version " ++ lineComponentVersion f)
    /\ title out
       = "[Aggregated] "
         ++ if Str.isEmpty (title first) then "Finding" else title first.
Proof.
  intros Hgroup group.
  exists (aggregatedFinding location first group),
         (mapi vulnerabilityLine 0 group).
  split.
  { rewrite aggregate_partition. apply in_flat_map. exists location. split.
    - apply firstSeen_In, (membersAt_location _ _ first).
      rewrite Hgroup. by left.
    - rewrite Hgroup. by left. }
  split; [done | ]. split; [done | ].
  split; [apply mapi_length | ]. split.
  - intros n f Hn. split.
    + by rewrite (mapi_nth_error _ _ _ _ _ Hn).
    + unfold lineVersionText. by destruct (lineComponentVersion f).
  - cbn [title aggregatedFinding]. unfold aggregatedTitle.
    by destruct (title first).
Qed.

Lemma aggregated_summary_witness :
  exists out lines,
    In out (aggregateDependencyTrackFindings findings)
    /\ _originalFindings out = Some [pomLog4j; pomJackson]
    /\ description out
       = "Aggregated finding for Location: " ++ "pom.xml" ++ newline ++ newline
         ++ "Includes the following findings:" ++ newline
         ++ Str.join newline lines ++ newline ++ newline
         ++ "Total count: " ++ Str.ofNat 2
    /\ length lines = 2%nat
    /\ (forall n f,
          nth_error [pomLog4j; pomJackson] n = Some f ->
          nth_error lines n
          = Some (Str.ofNat (n + 1) ++ ". " ++ lineTitle f ++ " ("
                  ++ lineComponentName f ++ lineVersionText f ++ ", "
                  ++ lineSeverity f ++ ")")
          /\ lineVersionText f
             = if Str.isEmpty (lineComponentVersion f) then EmptyString
               else " version " ++ lineComponentVersion f)
    /\ title out = "[Aggregated] " ++ "log4j-core:2.14.1".
Proof.
  apply (aggregated_summary findings "pom.xml" pomLog4j pomJackson []).
  reflexivity.
Defined.

(** Claim C6 as it is stated fails on the two findings of [pom.xml]: the
    location of the group stands in the first line of the description,
    before the member lines, and what follows them is the count alone; and
    the member with the version 2.14.1 reads 'log4j-core version 2.14.1',
    not 'log4j-core, 2.14.1'. *)
Lemma aggregated_summary_counterexample :
  map description aggregated
  = ["Aggregated finding for Location: pom.xml" ++ newline ++ newline
     ++ "Includes the following findings:" ++ newline
     ++ memberLines
     ++ newline ++ newline ++ "Total count: 2";
     "reported by the scanner"]
  /\ Regex.includesCI "pom.xml" (newline ++ newline ++ "Total count: 2") = false
  /\ Regex.includesCI "(log4j-core, 2.14.1, Critical)"
       (description pomComposite)
     = false.
Proof. repeat split. Qed.

End AggregateFacts.

(** * Patterns made of an escaped text *)

Section RegexFacts.

Import Component Regex Locator.

(** An escaped character is not one of the letters that name a class or
    an assertion. *)
Lemma escapeAtom_meta c : isMeta c = true -> escapeAtom c = Chr c.
Proof.
  unfold isMeta. cbn [existsb]. rewrite !orb_true_iff.
  intros H. repeat destruct H as [H|H]; try discriminate H;
    apply Ascii.eqb_eq in H; by subst c.
Qed.

Lemma topChar_plain c st :
  isMeta c = false -> topChar c st = pushAtom (Chr c) st.
Proof.
  unfold isMeta. cbn [existsb]. rewrite !orb_false_iff.
  intros H. decompose [and] H. unfold topChar.
  repeat match goal with
         | E : Ascii.eqb c ?x = false |- context [Ascii.eqb c ?x] => rewrite E
         end.
  done.
Qed.

Lemma parseFrom_escapeRegExp ci st text :
  parseFrom ci Top st (escapeRegExp text) = feed st text.
Proof.
  revert st. induction text as [|c text IH]; intros st; [done | ].
  cbn [escapeRegExp feed]. destruct (isMeta c) eqn:Hmeta.
  - cbn [parseFrom]. rewrite Ascii.eqb_refl. cbn [parseFrom].
    by rewrite IH, escapeAtom_meta.
  - cbn [parseFrom].
    assert (Ascii.eqb c backslash = false /\ Ascii.eqb c "[" = false) as [-> ->].
    { revert Hmeta. unfold isMeta. cbn [existsb]. rewrite !orb_false_iff. tauto. }
    by rewrite IH, topChar_plain.
Qed.

Lemma matchRe_feed ci text :
  forall st prev line k,
    matchRe ci (flush (feed st text)) prev line k
    = matchRe ci (flush st) prev line
        (fun p l => matchText ci text p l k).
Proof.
  induction text as [|c text IH]; intros st prev line k; [done | ].
  cbn [feed]. rewrite IH. reflexivity.
Qed.

Lemma alternatives_feed st text : alternatives (feed st text) = alternatives st.
Proof. revert st. induction text as [|c text IH]; intros st; [done | ]. cbn. by rewrite IH. Qed.

Lemma matchText_prefix text prev line :
  matchText true text prev line (fun _ _ => true)
  = match stripPrefix true text line with Some _ => true | None => false end.
Proof.
  revert prev line. induction text as [|c text IH]; intros prev line; [done | ].
  destruct line as [|d line]; [done | ]. cbn [matchText stripPrefix].
  unfold eqChar. destruct (Ascii.eqb _ _); [apply IH | done].
Qed.

(** A pattern made of an escaped text finds the text itself. *)
Lemma test_escapeRegExp text line :
  test (escapeRegExp text) line = includesCI text line.
Proof.
  unfold test, parse. rewrite parseFrom_escapeRegExp, alternatives_feed.
  cbn [alternatives fold_right].
  generalize (@None ascii) as prev.
  induction line as [|d line IH]; intros prev.
  - cbn [searchFrom includesCI]. rewrite matchRe_feed. cbn [flush pending sequence matchRe].
    rewrite matchText_prefix. by destruct (stripPrefix true text EmptyString).
  - cbn [searchFrom includesCI]. rewrite matchRe_feed. cbn [flush pending sequence matchRe].
    rewrite matchText_prefix, IH. by destruct (stripPrefix true text _).
Qed.

End RegexFacts.

(** * The dependency search *)

Section LocatorFacts.

Import Locator.

Variable componentName : string.
Variable componentVersion : option string.
Variable maxDepth : Z.

(** Induction on entries, with the hypothesis for the entries of a
    directory. *)
Lemma Entry_nested_ind (P : Entry -> Prop) :
  (forall n contents, P (File n contents)) ->
  (forall n, P (Dir n None)) ->
  (forall n entries, Forall P entries -> P (Dir n (Some entries))) ->
  (forall n, P (Other n)) ->
  forall e, P e.
Proof.
  intros Hfile Hnone Hdir Hother. fix IH 1. intros [n c|n [entries|]|n].
  - apply Hfile.
  - apply Hdir. induction entries as [|e entries IHentries]; constructor.
    + apply IH.
    + apply IHentries.
  - apply Hnone.
  - apply Hother.
Qed.

(** Every location [searchInFile] reports carries the relative path it
    was given. *)
Lemma flushBlock_relativePath fp rel lines pl r :
  In r (flushBlock componentVersion fp rel lines pl) -> relativePath r = rel.
Proof.
  unfold flushBlock. intros H. apply in_flat_map in H as (n & _ & H).
  destruct (_ || _); [ | destruct H]. by destruct H as [<-|[]].
Qed.

Lemma yarnStep_relativePath fp rel lines st i :
  Forall (fun r => relativePath r = rel) (results st) ->
  Forall (fun r => relativePath r = rel)
    (results (yarnStep componentName componentVersion fp rel lines st i)).
Proof.
  intros H. unfold yarnStep. cbv zeta.
  destruct (Regex.test _ _); cbn [results inPackageBlock packageLines];
    repeat (destruct (_ && _) || destruct (inPackageBlock _));
    cbn [results]; try done;
    apply Forall_app; (split; [done | ]);
    apply List.Forall_forall; intros r Hr; by eapply flushBlock_relativePath.
Qed.

Lemma tomlStep_relativePath fp rel lines st i :
  Forall (fun r => relativePath r = rel) (results st) ->
  Forall (fun r => relativePath r = rel)
    (results (tomlStep componentName componentVersion fp rel lines st i)).
Proof.
  intros H. unfold tomlStep. cbv zeta.
  destruct (_ || _); cbn [results inPackageBlock packageLines];
    repeat (destruct (_ && _) || destruct (Regex.test _ _)
            || destruct (inPackageBlock _));
    cbn [results]; try done;
    apply Forall_app; (split; [done | ]);
    apply List.Forall_forall; intros r Hr; by eapply flushBlock_relativePath.
Qed.

Lemma fold_left_invariant {A B} (P : A -> Prop) (f : A -> B -> A) l a :
  (forall a b, P a -> P (f a b)) -> P a -> P (fold_left f l a).
Proof.
  intros Hf. revert a. induction l as [|b l IH]; intros a Ha; cbn; auto.
Qed.

Lemma blockScan_relativePath fp rel lines yarn r :
  In r (blockScan componentName componentVersion fp rel lines yarn) ->
  relativePath r = rel.
Proof.
  unfold blockScan. cbv zeta.
  set (st := fold_left _ _ _).
  assert (Hst : Forall (fun r => relativePath r = rel) (results st)).
  { unfold st. apply fold_left_invariant; [ | constructor].
    intros a b Ha.
    destruct yarn; [by apply yarnStep_relativePath | by apply tomlStep_relativePath]. }
  rewrite List.Forall_forall in Hst.
  destruct (_ && _); [ | by apply Hst].
  intros H. apply in_app_or in H as [H|H]; [by apply Hst | ].
  by eapply flushBlock_relativePath.
Qed.

Lemma lineScan_relativePath fp rel lines r :
  In r (lineScan componentName componentVersion fp rel lines) ->
  relativePath r = rel.
Proof.
  unfold lineScan. intros H. apply in_flat_map in H as (n & _ & H).
  destruct (lineFound _ _ _ _); [ | destruct H]. by destruct H as [<-|[]].
Qed.

Lemma searchInFile_relativePath fp rel contents r :
  In r (searchInFile componentName componentVersion fp rel contents) ->
  relativePath r = rel.
Proof.
  unfold searchInFile. destruct contents as [text|]; [ | intros []].
  unfold scanLines. destruct (_ && _).
  - apply blockScan_relativePath.
  - apply lineScan_relativePath.
Qed.

Lemma separators_app a b : separators (a ++ b) = (separators a + separators b)%nat.
Proof. induction a as [|c a IH]; simpl; [done | ]. rewrite IH. lia. Qed.

Lemma separators_pathJoin rel n :
  goodName n = true -> rel <> "/" ->
  separators (pathJoin rel n) = level rel.
Proof.
  unfold goodName, pathJoin, level. intros H Hroot.
  apply andb_true_iff in H as [_ H]. apply Nat.eqb_eq in H.
  destruct (Str.isEmpty rel); [done | ].
  destruct (String.eqb_spec rel "/"); [done | ].
  rewrite !separators_app, H. cbn. lia.
Qed.

Lemma level_pathJoin rel n :
  goodName n = true -> rel <> "/" ->
  level (pathJoin rel n) = S (level rel).
Proof.
  intros H Hroot. unfold level at 1.
  rewrite (separators_pathJoin _ _ H Hroot).
  replace (Str.isEmpty (pathJoin rel n)) with false; [done | ].
  unfold goodName in H. apply andb_true_iff in H as [H _].
  unfold pathJoin. destruct rel as [|a rel]; [cbn; by destruct n | ].
  cbn [Str.isEmpty]. destruct (String.eqb (String a rel) "/"); reflexivity.
Qed.

(** A relative path made of entry names is not the root. *)
Lemma pathJoin_not_root rel n :
  goodName n = true -> rel <> "/" -> pathJoin rel n <> "/".
Proof.
  unfold goodName, pathJoin. intros H Hroot.
  apply andb_true_iff in H as [_ H]. apply Nat.eqb_eq in H.
  destruct rel as [|a rel]; cbn [Str.isEmpty].
  - intros ->. discriminate H.
  - destruct (String.eqb_spec (String a rel) "/"); [done | ].
    change (String a rel ++ "/" ++ n) with (String a (rel ++ String "/" n)).
    intros [= _ Heq]. by destruct rel.
Qed.

Lemma searchEntry_depth e :
  forall dirPath rel depth r,
    wellNamed e = true ->
    Z.of_nat depth <= maxDepth ->
    level rel = depth ->
    rel <> "/" ->
    In r (searchEntry componentName componentVersion maxDepth dirPath rel depth e) ->
    Z.of_nat (separators (relativePath r)) <= maxDepth.
Proof.
  induction e as [n contents|n|n entries IH|n] using Entry_nested_ind;
    intros dirPath rel depth r Hwf Hdepth Hlevel Hroot Hin; cbn in Hin, Hwf;
    destruct (skipped n); try (by destruct Hin).
  - destruct (isDependencyFile n); [ | by destruct Hin].
    apply searchInFile_relativePath in Hin. rewrite Hin.
    rewrite separators_pathJoin, Hlevel; [done | | done].
    by apply andb_true_iff in Hwf as [Hwf _].
  - destruct (Z.of_nat (depth + 1) >? maxDepth) eqn:Hgt; by destruct Hin.
  - apply andb_true_iff in Hwf as [Hname Hall].
    destruct (Z.of_nat (depth + 1) >? maxDepth) eqn:Hgt; [by destruct Hin | ].
    rewrite Z.gtb_ltb in Hgt. apply Z.ltb_ge in Hgt.
    apply in_flat_map in Hin as (e & He & Hin).
    rewrite List.Forall_forall in IH.
    apply (IH e He _ _ _ _) in Hin; [done | | lia | | ].
    + rewrite forallb_forall in Hall. by apply Hall.
    + rewrite level_pathJoin by done. lia.
    + by apply pathJoin_not_root.
Qed.

Lemma searchEntry_nested dirs :
  forall dirPath rel depth file contents,
    Forall (fun d => skipped d = false) dirs ->
    skipped file = false ->
    isDependencyFile file = true ->
    Z.of_nat depth <= maxDepth ->
    flat_map (searchEntry componentName componentVersion maxDepth dirPath rel depth)
      (nestIn dirs [File file contents])
    = if Z.of_nat (depth + length dirs) >? maxDepth then []
      else searchInFile componentName componentVersion
             (joinAll dirPath (dirs ++ [file])) (joinAll rel (dirs ++ [file]))
             contents.
Proof.
  induction dirs as [|d dirs IH];
    intros dirPath rel depth file contents Hdirs Hfile Hdep Hdepth.
  - cbn [nestIn flat_map searchEntry entryName app length joinAll fold_left].
    rewrite Hfile, Hdep, app_nil_r, Nat.add_0_r.
    destruct (Z.gtb_spec (Z.of_nat depth) maxDepth); [lia | done].
  - inversion Hdirs as [|? ? Hd Hdirs']; subst.
    cbn [nestIn flat_map searchEntry entryName]. rewrite Hd, app_nil_r.
    destruct (Z.gtb_spec (Z.of_nat (depth + 1)) maxDepth) as [Hgt|Hle].
    + cbn [length]. destruct (Z.gtb_spec (Z.of_nat (depth + S (length dirs))) maxDepth);
        [done | lia].
    + rewrite IH by (try done; lia).
      cbn [length app joinAll fold_left].
      by replace (depth + 1 + length dirs)%nat with (depth + S (length dirs))%nat by lia.
Qed.

Lemma searchInDirectory_depth folder r :
  wellNamedFolder folder = true ->
  In r (searchInDirectory componentName componentVersion maxDepth
          (fsPath folder) EmptyString 0 (root folder)) ->
  Z.of_nat (separators (relativePath r)) <= maxDepth.
Proof.
  destruct folder as [base [entries|]]; intros Hwf Hin;
    unfold searchInDirectory in Hin; cbn [fsPath root] in Hin;
    destruct (Z.gtb_spec (Z.of_nat 0) maxDepth) as [Hgt|Hle];
    try (by destruct Hin).
  apply in_flat_map in Hin as (e & He & Hin).
  apply (searchEntry_depth e base EmptyString 0%nat r); try done.
  unfold wellNamedFolder in Hwf. cbn [root] in Hwf.
  rewrite forallb_forall in Hwf. by apply Hwf.
Qed.

Lemma searchInDirectory_nested base dirs file contents :
  Forall (fun d => skipped d = false) dirs ->
  skipped file = false ->
  isDependencyFile file = true ->
  searchInDirectory componentName componentVersion maxDepth base EmptyString 0
    (Some (nestIn dirs [File file contents]))
  = if Z.of_nat (length dirs) >? maxDepth then []
    else searchInFile componentName componentVersion
           (joinAll base (dirs ++ [file]))
           (joinAll EmptyString (dirs ++ [file])) contents.
Proof.
  intros Hdirs Hfile Hdep. unfold searchInDirectory.
  destruct (Z.gtb_spec (Z.of_nat 0) maxDepth) as [Hgt|Hle].
  - destruct (Z.gtb_spec (Z.of_nat (length dirs)) maxDepth); [done | lia].
  - by rewrite searchEntry_nested.
Qed.

End LocatorFacts.

Section PathFacts.

Import Locator.

Lemma append_assoc' (a b c : string) : (a ++ b) ++ c = a ++ (b ++ c).
Proof.
  induction a as [|x a IH]; [done | ].
  change (String x ((a ++ b) ++ c) = String x (a ++ (b ++ c))).
  by rewrite IH.
Qed.

Lemma append_empty_r (a : string) : a ++ EmptyString = a.
Proof.
  induction a as [|x a IH]; [done | ].
  change (String x (a ++ EmptyString) = String x a). by rewrite IH.
Qed.

(** The rule of the loop over the entries, name by name. *)
Lemma skipped_spec n :
  skipped n = false
  <-> (forall rest, n <> String "." rest)
      /\ n <> "node_modules" /\ n <> "vendor".
Proof.
  unfold skipped, startsWith. rewrite !orb_false_iff.
  split.
  - intros [[Hdot Hnode] Hvendor]. repeat split.
    + intros rest ->. cbn in Hdot. discriminate.
    + intros ->. discriminate.
    + intros ->. discriminate.
  - intros (Hdot & Hnode & Hvendor). repeat split.
    + destruct n as [|c n]; [done | ]. cbn [Component.stripPrefix].
      destruct (Ascii.eqb_spec "." c) as [<-|]; [ | done].
      by destruct (Hdot n).
    + by apply String.eqb_neq.
    + by apply String.eqb_neq.
Qed.

Lemma endsWith_spec s suffix :
  endsWith s suffix = true <-> exists stem, s = stem ++ suffix.
Proof.
  split.
  - induction s as [|c s IH]; cbn [endsWith]; rewrite orb_true_iff.
    + intros [H|H]; [ | done]. apply String.eqb_eq in H as <-.
      by exists EmptyString.
    + intros [H|H].
      * apply String.eqb_eq in H as <-. by exists EmptyString.
      * destruct (IH H) as (stem & ->). by exists (String c stem).
  - intros (stem & ->). induction stem as [|c stem IH].
    + change (EmptyString ++ suffix) with suffix.
      destruct suffix; cbn [endsWith]; by rewrite String.eqb_refl.
    + change (String c stem ++ suffix) with (String c (stem ++ suffix)).
      cbn [endsWith]. rewrite IH. apply orb_true_r.
Qed.

(** The files the search reads, name by name. *)
Lemma isDependencyFile_spec n :
  isDependencyFile n = true
  <-> In n ["package.json"; "package-lock.json"; "yarn.lock";
            "requirements.txt"; "poetry.lock"; "pyproject.toml"; "uv.lock";
            "pom.xml"; "build.gradle"; "Cargo.toml"; "Cargo.lock"; "go.mod";
            "go.sum"]
      \/ exists stem, n = stem ++ ".lock".
Proof.
  unfold isDependencyFile, dependencyFileExtensions.
  cbn [existsb]. rewrite orb_false_r, orb_true_iff, endsWith_spec.
  apply or_iff_compat_r. rewrite existsb_exists. split.
  - intros (x & Hx & Heq). apply String.eqb_eq in Heq. by subst.
  - intros H. exists n. split; [done | apply String.eqb_refl].
Qed.

Lemma join_snoc (names : list string) n :
  names <> [] ->
  Str.join "/" (names ++ [n]) = Str.join "/" names ++ "/" ++ n.
Proof.
  induction names as [|a names IH]; [done | ]. intros _.
  destruct names as [|b names]; [done | ].
  change (Str.join "/" ((a :: b :: names) ++ [n]))
    with (a ++ "/" ++ Str.join "/" ((b :: names) ++ [n])).
  rewrite IH by done.
  change (Str.join "/" (a :: b :: names))
    with (a ++ "/" ++ Str.join "/" (b :: names)).
  by rewrite !append_assoc'.
Qed.

(** The path of names below the root is neither empty nor the root. *)
Lemma join_names_head (names : list string) :
  names <> [] -> Forall (fun n => goodName n = true) names ->
  exists c rest, Str.join "/" names = String c rest /\ c <> "/"%char.
Proof.
  destruct names as [|a names]; [done | ]. intros _ Hall.
  inversion Hall as [|? ? Ha _]; subst.
  unfold goodName in Ha. apply andb_true_iff in Ha as [Hne Hsep].
  apply Nat.eqb_eq in Hsep.
  destruct a as [|c a]; [done | ].
  exists c. cbn [separators] in Hsep.
  destruct (Ascii.eqb_spec c "/") as [->|Hc]; [discriminate Hsep | ].
  destruct names as [|b names]; [by exists a | ].
  exists (a ++ "/" ++ Str.join "/" (b :: names)). done.
Qed.

(** What the two calls of [path.join] give at an entry [n] of the
    directory reached through [names]. *)
Lemma pathJoin_names base (names : list string) n :
  Forall (fun d => goodName d = true) names ->
  goodName n = true ->
  pathJoin (Str.join "/" names) n = Str.join "/" (names ++ [n])
  /\ pathJoin
       (match names with
        | [] => base
        | _ => (if String.eqb base EmptyString then EmptyString
                else if String.eqb base "/" then "/" else base ++ "/")
               ++ Str.join "/" names
        end) n
     = (if String.eqb base EmptyString then EmptyString
        else if String.eqb base "/" then "/" else base ++ "/")
       ++ Str.join "/" (names ++ [n]).
Proof.
  intros Hnames Hn.
  destruct names as [|a names].
  - cbn [app Str.join]. unfold pathJoin. cbn [Str.isEmpty]. split; [done | ].
    destruct base as [|b base]; [done | ]. cbn [Str.isEmpty].
    destruct (String.eqb_spec (String b base) EmptyString); [done | ].
    destruct (String.eqb_spec (String b base) "/") as [->|];
      [done | by rewrite append_assoc'].
  - destruct (join_names_head (a :: names)) as (c & rest & Hj & Hc);
      [done | done | ].
    rewrite join_snoc by done. rewrite Hj. unfold pathJoin.
    cbn [Str.isEmpty].
    assert (Hrel : String.eqb (String c rest) "/" = false).
    { apply String.eqb_neq. intros [= -> _]. done. }
    rewrite Hrel. split; [done | ].
    destruct base as [|b base].
    + cbn [String.eqb]. change (EmptyString ++ String c rest) with (String c rest).
      cbn [Str.isEmpty]. by rewrite Hrel.
    + destruct (String.eqb_spec (String b base) EmptyString); [done | ].
      destruct (String.eqb_spec (String b base) "/") as [Hb|Hb].
      * injection Hb as -> ->.
        change ("/" ++ String c rest) with (String "/" (String c rest)).
        cbn [Str.isEmpty]. 
        replace (String.eqb (String "/" (String c rest)) "/") with false
          by (symmetry; by apply String.eqb_neq).
        done.
      * change ((String b base ++ "/") ++ String c rest)
          with (String b ((base ++ "/") ++ String c rest)).
        cbn [Str.isEmpty].
        replace (String.eqb (String b ((base ++ "/") ++ String c rest)) "/")
          with false.
        -- change (String b ((base ++ "/") ++ String c rest))
             with ((String b base ++ "/") ++ String c rest).
           by rewrite !append_assoc'.
        -- symmetry. apply String.eqb_neq. intros [= -> Hrest].
           by destruct base.
Qed.

Lemma joinAll_names base (names : list string) :
  Forall (fun d => goodName d = true) names ->
  joinAll EmptyString names = Str.join "/" names
  /\ joinAll base names
     = match names with
       | [] => base
       | _ => (if String.eqb base EmptyString then EmptyString
               else if String.eqb base "/" then "/" else base ++ "/")
              ++ Str.join "/" names
       end.
Proof.
  induction names as [|n names IH] using rev_ind; [done | ].
  intros Hall. apply Forall_app in Hall as [Hnames Hn].
  inversion Hn as [|? ? Hgood _]; subst.
  destruct (IH Hnames) as [IHrel IHdir].
  destruct (pathJoin_names base names n Hnames Hgood) as [Hrel Hdir].
  unfold joinAll in *. rewrite !fold_left_app. cbn [fold_left].
  rewrite IHrel, IHdir, Hrel, Hdir. split; [done | ].
  by destruct names.
Qed.

Lemma separators_none n :
  separators n = 0%nat <-> ~ In "/"%char (list_ascii_of_string n).
Proof.
  induction n as [|c n IH]; cbn [separators list_ascii_of_string In];
    [tauto | ].
  destruct (Ascii.eqb_spec c "/") as [->|Hne].
  - split; [discriminate | ]. intros H. destruct H. by left.
  - rewrite Nat.add_0_l, IH. split; [ | tauto].
    intros H [Heq|Hin]; [by apply Hne | by apply H].
Qed.

Lemma goodName_spec n :
  goodName n = true
  <-> n <> EmptyString /\ ~ In "/"%char (list_ascii_of_string n).
Proof.
  unfold goodName. rewrite andb_true_iff, Nat.eqb_eq, separators_none.
  destruct n as [|c n]; cbn [Str.isEmpty negb]; [ | by intuition].
  split; intros [H _]; [discriminate | by destruct H].
Qed.

End PathFacts.

Section LocatorClaims.

Import Regex Locator Samples.

(** Claim C7.  For every list of workspace roots with normalized paths
    and every [maxDepth], 15 when the argument is left out: a location the
    search reports lies at most [maxDepth] directories below its root, as
    its relative path shows; and for a recognised file under a chain of
    directories below a root, none of them hidden, [node_modules] or
    [vendor], the search reports nothing when the chain is longer than
    [maxDepth] and reports what the scan of the file finds, under the path
    of the file, when it is not.  So with the default of 15, a file 16
    directories down yields nothing and the same file 15 directories down
    is scanned; with a [maxDepth] of 1 a file two directories down yields
    nothing, and with 2 it is scanned. *)
Theorem search_stops_at_maxDepth (componentName : string)
    (componentVersion : option string) (maxDepth : option Z) :
  let limit := match maxDepth with Some d => d | None => 15 end in
  (forall folders r,
     forallb wellNamedFolder folders = true ->
     forallb (fun folder => normalizedDir (fsPath folder)) folders = true ->
     In r (findDependencyInProject componentName folders componentVersion
             maxDepth) ->
     Z.of_nat (separators (relativePath r)) <= limit)
  /\ (forall base dirs file contents,
        normalizedDir base = true ->
        Forall (fun d => d <> EmptyString
                         /\ ~ In "/"%char (list_ascii_of_string d)
                         /\ (forall rest, d <> String "." rest)
                         /\ d <> "node_modules" /\ d <> "vendor") dirs ->
        file <> EmptyString ->
        ~ In "/"%char (list_ascii_of_string file) ->
        (forall rest, file <> String "." rest) ->
        In file ["package.json"; "package-lock.json"; "yarn.lock";
                 "requirements.txt"; "poetry.lock"; "pyproject.toml";
                 "uv.lock"; "pom.xml"; "build.gradle"; "Cargo.toml";
                 "Cargo.lock"; "go.mod"; "go.sum"]
        \/ (exists stem, file = stem ++ ".lock") ->
        findDependencyInProject componentName
          [mkWorkspaceFolder base (Some (nestIn dirs [File file contents]))]
          componentVersion maxDepth
        = if Z.of_nat (length dirs) >? limit then []
          else searchInFile componentName componentVersion
                 ((if String.eqb base EmptyString then EmptyString
                   else if String.eqb base "/" then "/" else base ++ "/")
                  ++ Str.join "/" (dirs ++ [file]))
                 (Str.join "/" (dirs ++ [file])) contents)
  /\ depthLimit maxDepth = limit.
Proof.
  cbv zeta. change (match maxDepth with Some d => d | None => 15 end)
    with (depthLimit maxDepth).
  split; [ | split; [ | done]].
  - intros folders r Hwf _ Hin. unfold findDependencyInProject in Hin.
    apply in_flat_map in Hin as (folder & Hf & Hin).
    apply (searchInDirectory_depth componentName componentVersion _ folder r);
      [ | done].
    rewrite forallb_forall in Hwf. by apply Hwf.
  - intros base dirs file contents _ Hdirs Hne Hsep Hdot Hdep.
    assert (Hgood : goodName file = true) by (by apply goodName_spec).
    assert (Hskip : Forall (fun d => skipped d = false) dirs).
    { eapply Forall_impl; [exact Hdirs | ].
      intros d (_ & _ & H). by apply skipped_spec. }
    assert (Hnames : Forall (fun d => goodName d = true) (dirs ++ [file])).
    { apply Forall_app. split; [ | by repeat constructor].
      eapply Forall_impl; [exact Hdirs | ].
      intros d (H1 & H2 & _). by apply goodName_spec. }
    assert (Hfile : skipped file = false).
    { apply skipped_spec. split; [done | ].
      destruct Hdep as [Hin | (stem & ->)].
      - cbn [In] in Hin. split; intros ->;
          repeat destruct Hin as [Hin|Hin]; discriminate || done.
      - split; intros Heq.
        + assert (H : endsWith "node_modules" ".lock" = true)
            by (apply endsWith_spec; by exists stem).
          discriminate H.
        + assert (H : endsWith "vendor" ".lock" = true)
            by (apply endsWith_spec; by exists stem).
          discriminate H. }
    unfold findDependencyInProject. cbn [flat_map fsPath root].
    rewrite app_nil_r.
    rewrite searchInDirectory_nested;
      [ | done | done | by apply isDependencyFile_spec].
    destruct (joinAll_names base (dirs ++ [file]) Hnames) as [-> ->].
    by destruct dirs.
Qed.

Lemma search_stops_at_maxDepth_witness :
  findDependencyInProject "left-pad"
    [mkWorkspaceFolder "/w"
       (Some (nestIn sixteen [File "package.json" (Some packageJson)]))]
    None None
  = []
  /\ findDependencyInProject "left-pad"
       [mkWorkspaceFolder "/w"
          (Some (nestIn fifteen [File "package.json" (Some packageJson)]))]
       None None
     = [mkDependencyLocation
          ("/w/" ++ Str.join "/" (fifteen ++ ["package.json"]))
          (Str.join "/" (fifteen ++ ["package.json"]))
          (Some 3%nat)
          (Some (dq ++ "left-pad" ++ dq ++ ": " ++ dq ++ "1.3.0" ++ dq))]
  /\ (forall r,
        In r (findDependencyInProject "left-pad"
                [mkWorkspaceFolder "/w"
                   (Some (nestIn fifteen
                            [File "package.json" (Some packageJson)]))]
                None None) ->
        Z.of_nat (separators (relativePath r)) <= 15)
  /\ findDependencyInProject "left-pad"
       [mkWorkspaceFolder "/"
          (Some [Dir "a" (Some [Dir "b" (Some
                   [File "package.json" (Some packageJson)])])])]
       None (Some 1)
     = []
  /\ findDependencyInProject "left-pad"
       [mkWorkspaceFolder "/"
          (Some [Dir "a" (Some [Dir "b" (Some
                   [File "package.json" (Some packageJson)])])])]
       None (Some 2)
     = [mkDependencyLocation "/a/b/package.json" "a/b/package.json"
          (Some 3%nat)
          (Some (dq ++ "left-pad" ++ dq ++ ": " ++ dq ++ "1.3.0" ++ dq))]
  /\ (forall r,
        In r (findDependencyInProject "left-pad"
                [mkWorkspaceFolder "/"
                   (Some [Dir "a" (Some [Dir "b" (Some
                            [File "package.json" (Some packageJson)])])])]
                None (Some 2)) ->
        Z.of_nat (separators (relativePath r)) <= 2).
Proof.
  pose proof (search_stops_at_maxDepth "left-pad" None None)
    as (Hbound & Hchain & _).
  pose proof (search_stops_at_maxDepth "left-pad" None (Some 1))
    as (_ & Hchain1 & _).
  pose proof (search_stops_at_maxDepth "left-pad" None (Some 2))
    as (Hbound2 & Hchain2 & _).
  cbv zeta in Hbound, Hchain, Hchain1, Hbound2, Hchain2.
  assert (Hsep : ~ In "/"%char (list_ascii_of_string "package.json")).
  { apply separators_none. reflexivity. }
  assert (Hgood : forall d, In d ["pkg"; "a"; "b"] ->
            d <> EmptyString
            /\ ~ In "/"%char (list_ascii_of_string d)
            /\ (forall rest, d <> String "." rest)
            /\ d <> "node_modules" /\ d <> "vendor").
  { intros d Hd. cbn [In] in Hd.
    repeat destruct Hd as [<-|Hd]; try done;
      (split; [done | ]; split; [apply separators_none; reflexivity | done]). }
  split; [ | split; [ | split; [ | split; [ | split]]]].
  - rewrite (Hchain "/w" sixteen "package.json" (Some packageJson));
      [reflexivity | reflexivity | | done | exact Hsep | done
       | left; cbn [In]; tauto].
    unfold sixteen; cbn [repeat];
      repeat (constructor; [apply Hgood; cbn [In]; tauto | ]); constructor.
  - rewrite (Hchain "/w" fifteen "package.json" (Some packageJson));
      [vm_compute; reflexivity | reflexivity | | done | exact Hsep | done
       | left; cbn [In]; tauto].
    unfold fifteen; cbn [repeat];
      repeat (constructor; [apply Hgood; cbn [In]; tauto | ]); constructor.
  - intros r. apply Hbound; reflexivity.
  - apply (Hchain1 "/" ["a"; "b"] "package.json" (Some packageJson));
      [reflexivity | | done | exact Hsep | done | left; cbn [In]; tauto].
    repeat (constructor; [apply Hgood; cbn [In]; tauto | ]); constructor.
  - etransitivity;
      [apply (Hchain2 "/" ["a"; "b"] "package.json" (Some packageJson));
       [reflexivity | | done | exact Hsep | done | left; cbn [In]; tauto]
      | vm_compute; reflexivity].
    repeat (constructor; [apply Hgood; cbn [In]; tauto | ]); constructor.
  - intros r. apply Hbound2; reflexivity.
Defined.

(** The test [hasVersion] makes on a line of a block: the pattern is the
    version escaped twice, so it looks for the version escaped once. *)
Lemma hasVersion_escaped (c : ascii) (v line : string) :
  hasVersion (Some (String c v)) line
  = includesCI (escapeRegExp (String c v)) line.
Proof.
  unfold hasVersion, escapedVersion. cbn [Js.truthyStr].
  apply test_escapeRegExp.
Qed.

(** Claim C8 (the code departs from it).  In the scan of a block-structured
    lock file, a line of a flushed block is reported, when a version is
    given, exactly when it holds the text of the version with a backslash
    before each of its special characters, letters compared without case,
    and not when it holds the version itself; every line of the block is
    reported when no version is given; and the block that is open when the
    lines end is flushed after the loop.  For the component left-pad and
    the version 1.3.0 the block of [yarn.lock] below yields nothing,
    although its second line holds 1.3.0, and yields its lines when no
    version is given. *)
Theorem lock_scan_version_filter (name : string) (c : ascii) (v : string)
    (fp rel : string) (lines : list string) (pl : list nat) (yarn : bool)
    (cv : option string) :
  flushBlock (Some (String c v)) fp rel lines pl
  = flat_map
      (fun n =>
         if includesCI (escapeRegExp (String c v)) (lineAt lines n)
         then [located fp rel n (lineAt lines n)] else [])
      pl
  /\ flushBlock None fp rel lines pl
     = map (fun n => located fp rel n (lineAt lines n)) pl
  /\ blockScan name cv fp rel lines yarn
     = (let st :=
          fold_left (if yarn then yarnStep name cv fp rel lines
                     else tomlStep name cv fp rel lines)
            (seq 0 (length lines)) (mkBlockState false [] []) in
        results st
        ++ if inPackageBlock st && (0 <? length (packageLines st))%nat
           then flushBlock cv fp rel lines (packageLines st) else [])%list
  /\ searchInFile "left-pad" (Some "1.3.0") "/w/yarn.lock" "yarn.lock"
       (Some yarnLock)
     = []
  /\ includesCI "1.3.0" (lineAt (splitLines yarnLock) 1) = true
  /\ map lineNumber
       (searchInFile "left-pad" None "/w/yarn.lock" "yarn.lock" (Some yarnLock))
     = [Some 1; Some 1; Some 2; Some 3]%nat.
Proof.
  split; [ | split; [ | split; [ | split; [ | split]]]].
  - unfold flushBlock. apply flat_map_ext. intros n.
    by rewrite hasVersion_escaped.
  - unfold flushBlock. cbn [escapedVersion Js.truthyOpt negb orb].
    induction pl as [|n pl IH]; [done | ]. cbn [flat_map map app]. by rewrite IH.
  - unfold blockScan. cbv zeta. destruct (_ && _); [done | by rewrite app_nil_r].
  - vm_compute. reflexivity.
  - vm_compute. reflexivity.
  - vm_compute. reflexivity.
Qed.

End LocatorClaims.

(** * More on the triage store *)

Section StoreMore.

Import TriageStore StoreOps Samples.

Implicit Types (store : gmap Z TriageData) (findingId : Z) (triage : TriageData).

(** Property X1.  [get] after [set] gives the value that was set, under the id
    it was set for, and what [get] gave before under every other id. *)
Theorem get_after_set store findingId other triage :
  get other (set findingId triage store)
  = if decide (findingId = other) then Some triage else get other store.
Proof.
  destruct (decide (findingId = other)) as [->|Hne].
  - apply get_set_eq.
  - by apply get_set_ne.
Qed.

(** An operation other than [clear] leaves the records of the other ids
    as they are. *)
Lemma step_other store op findingId other :
  targetOf op = Some findingId ->
  findingId <> other ->
  get other (step store op) = get other store.
Proof.
  intros Ht Hne. destruct op; cbn in Ht; try discriminate; injection Ht as ->;
    cbn [step];
    auto using get_updateImpact_ne, get_updateMitigation_ne,
      get_updateStatus_ne.
  unfold markAsSubmitted. destruct (get findingId store); [ | done].
  by apply get_set_ne.
Qed.

(** An operation other than [clear] keeps a record where there is one, and
    keeps it submitted when it is. *)
Lemma step_keeps_submitted store op findingId triage :
  isClear op = false ->
  get findingId store = Some triage ->
  exists r,
    get findingId (step store op) = Some r
    /\ (submitted triage = Some true -> submitted r = Some true).
Proof.
  intros Hop Hget.
  destruct op as [i v|i v|i v|i t|]; try discriminate Hop; cbn [step];
    (destruct (decide (i = findingId)) as [->|Hne];
     [ | rewrite (step_other store _ i findingId eq_refl Hne) || idtac ]).
  all: try (unfold updateImpact, updateMitigation, updateStatus, getOrEmpty;
            cbv zeta; rewrite Hget, get_set_eq; eexists; split; [done | ];
            destruct (_ && _); cbn; done).
  all: try (rewrite ?get_updateImpact_ne, ?get_updateMitigation_ne,
              ?get_updateStatus_ne by done; by exists triage).
  - unfold markAsSubmitted. rewrite Hget, get_set_eq. by eexists.
  - unfold markAsSubmitted. destruct (get i store);
      [rewrite get_set_ne by done | ]; by exists triage.
Qed.

(** Property X2.  In a run without [clear], a record that is in the store
    stays in the store, and a record that is submitted stays submitted: no
    update and no [markAsSubmitted] takes [submitted] back. *)
Theorem submitted_is_kept (ops : list Op) store findingId triage :
  forallb (fun op => negb (isClear op)) ops = true ->
  get findingId store = Some triage ->
  exists r,
    get findingId (run ops store) = Some r
    /\ (submitted triage = Some true -> submitted r = Some true).
Proof.
  revert store triage.
  induction ops as [|op ops IH]; intros store triage Hops Hget.
  - by exists triage.
  - cbn in Hops. apply andb_true_iff in Hops as [Hop Hops].
    apply negb_true_iff in Hop.
    destruct (step_keeps_submitted store op findingId triage Hop Hget)
      as (r1 & Hget1 & Hsub1).
    destruct (IH (step store op) r1 Hops Hget1) as (r & Hr & Hsub).
    exists r. split; [done | ]. auto.
Qed.

Lemma submitted_is_kept_witness :
  exists r,
    get 7 (run laterEdits (markAsSubmitted 7 1700 {[ 7 := draft ]})) = Some r
    /\ (Some true = Some true -> submitted r = Some true).
Proof.
  apply (submitted_is_kept laterEdits (markAsSubmitted 7 1700 {[ 7 := draft ]})
           7 (mkTriageData (Some "data loss") (Some "upgrade") (Some Verified)
                (Some true) (Some 1700) (Some false)
                (Some "data loss") (Some "upgrade") (Some Verified)));
    reflexivity.
Defined.

(** Property X3.  Every operation but [clear] writes the record of one id:
    in a run of operations none of which is [clear] or works on a given
    id, the record of that id is at the end what it was at the start. *)
Theorem run_leaves_other_ids (ops : list Op) store other :
  Forall (fun op => exists i, targetOf op = Some i /\ i <> other) ops ->
  get other (run ops store) = get other store.
Proof.
  intros H. revert store.
  induction H as [|op ops (i & Ht & Hne) _ IH]; intros store; [done | ].
  cbn [run fold_left]. fold (run ops (step store op)).
  rewrite IH. by apply (step_other store op i other).
Qed.

Lemma run_leaves_other_ids_witness :
  get 8 (run laterEdits {[ 7 := draft; 8 := emptyImpactDraft ]})
  = get 8 ({[ 7 := draft; 8 := emptyImpactDraft ]} : gmap Z TriageData).
Proof.
  apply (run_leaves_other_ids laterEdits).
  repeat constructor; exists 7; split; (reflexivity || discriminate).
Defined.

Lemma strictNe_true {A} `{EqDecision A} (a b : option A) :
  strictNe a b = true <-> a <> b.
Proof.
  unfold strictNe. rewrite negb_true_iff, bool_decide_eq_false. tauto.
Qed.

Lemma strictNe_false {A} `{EqDecision A} (a b : option A) :
  strictNe a b = false <-> a = b.
Proof.
  unfold strictNe. rewrite negb_false_iff, bool_decide_eq_true. tauto.
Qed.

(** On a frozen record [isTriageModified] decides [differs]. *)
Lemma isTriageModified_frozen triage :
  submitted triage = Some true ->
  Js.truthyStr (originalImpact triage) = true ->
  (isTriageModified triage = true <-> differs triage)
  /\ (isTriageModified triage = false <-> ~ differs triage).
Proof.
  intros Hs Ho. unfold isTriageModified, differs. rewrite Hs, Ho. cbn.
  rewrite !orb_true_iff, !orb_false_iff, !strictNe_true, !strictNe_false.
  split; [tauto | ]. split.
  - intros ((-> & ->) & ->). tauto.
  - intros Hn. repeat split.
    + destruct (decide (impact triage = originalImpact triage)); tauto.
    + destruct (decide (mitigation triage = originalMitigation triage)); tauto.
    + destruct (decide (status triage = originalStatus triage)); tauto.
Qed.

Lemma tracked_recompute triage :
  submitted triage = Some true ->
  Js.truthyStr (originalImpact triage) = true ->
  tracked (recompute triage).
Proof.
  intros Hs Ho. destruct (isTriageModified_frozen triage Hs Ho) as [Ht Hf].
  unfold tracked, recompute, differs in *. cbn.
  split; (split; [intros [= H] | intros H; f_equal]); tauto.
Qed.

(** An update keeps a frozen record frozen, with the same frozen fields,
    and makes [modified] say whether the record differs from them. *)
Lemma step_tracked store op findingId triage :
  isUpdate op = true ->
  get findingId store = Some triage ->
  frozen triage -> tracked triage ->
  exists r,
    get findingId (step store op) = Some r
    /\ frozen r /\ tracked r
    /\ originalImpact r = originalImpact triage
    /\ originalMitigation r = originalMitigation triage
    /\ originalStatus r = originalStatus triage.
Proof.
  intros Hop Hget (Hs & Ho & Hm & Hst) Htr.
  assert (Hi : originalImpact triage <> None)
    by (destruct (originalImpact triage); [done | discriminate Ho]).
  destruct op as [i v|i v|i v|i t|]; try discriminate Hop; cbn [step];
    (destruct (decide (i = findingId)) as [->|Hne];
     [ | rewrite ?get_updateImpact_ne, ?get_updateMitigation_ne,
           ?get_updateStatus_ne by done;
         exists triage; unfold frozen; tauto ]).
  all: unfold updateImpact, updateMitigation, updateStatus, getOrEmpty;
    cbv zeta; rewrite Hget, get_set_eq, Hs; cbn [Js.truthyBool andb];
    rewrite bool_decide_eq_true_2 by done;
    eexists; split; [done | ];
    split; [unfold frozen; cbn; tauto | ];
    split; [by apply tracked_recompute | done].
Qed.

(** A run of updates keeps a frozen record frozen and tracked. *)
Lemma run_tracked (ops : list Op) : forall store findingId triage,
  forallb isUpdate ops = true ->
  get findingId store = Some triage ->
  frozen triage -> tracked triage ->
  exists r,
    get findingId (run ops store) = Some r
    /\ frozen r /\ tracked r
    /\ originalImpact r = originalImpact triage
    /\ originalMitigation r = originalMitigation triage
    /\ originalStatus r = originalStatus triage.
Proof.
  induction ops as [|op ops IH]; intros s findingId r0 Hops H0 Hfr Htr.
  - exists r0. tauto.
  - cbn in Hops. apply andb_true_iff in Hops as [Hop Hops].
    destruct (step_tracked s op findingId r0 Hop H0 Hfr Htr)
      as (r1 & H1 & Hfr1 & Htr1 & <- & <- & <-).
    exact (IH (step s op) findingId r1 Hops H1 Hfr1 Htr1).
Qed.

(** Property X4.  Once [markAsSubmitted] has run on a record with a non-empty
    impact, a mitigation and a status, then after any run of updates, of
    this record or of others, the frozen fields are the three values of the
    call and [modified] is true exactly when a current field differs from
    its frozen value, false exactly when none does. *)
Theorem modified_tracks_difference (ops : list Op) store findingId now triage :
  get findingId store = Some triage ->
  Js.truthyStr (impact triage) = true ->
  mitigation triage <> None ->
  status triage <> None ->
  forallb isUpdate ops = true ->
  exists r,
    get findingId (run ops (markAsSubmitted findingId now store)) = Some r
    /\ originalImpact r = impact triage
    /\ originalMitigation r = mitigation triage
    /\ originalStatus r = status triage
    /\ (modified r = Some true <-> differs r)
    /\ (modified r = Some false <-> ~ differs r).
Proof.
  intros Hget Hi Hm Hs Hops.
  set (r0 := mkTriageData (impact triage) (mitigation triage) (status triage)
               (Some true) (Some now) (Some false)
               (impact triage) (mitigation triage) (status triage)).
  assert (H0 : get findingId (markAsSubmitted findingId now store) = Some r0)
    by (unfold markAsSubmitted; by rewrite Hget, get_set_eq).
  assert (Hfr : frozen r0) by (unfold frozen; cbn; tauto).
  assert (Htr : tracked r0)
    by (unfold tracked, differs; cbn; split; split; (tauto || done)).
  destruct (run_tracked ops _ findingId r0 Hops H0 Hfr Htr)
    as (r & Hr & _ & [Ht Hf] & Ho1 & Ho2 & Ho3).
  exists r. repeat split; try done; tauto.
Qed.

Lemma modified_tracks_difference_witness :
  exists r,
    get 7 (run laterEdits (markAsSubmitted 7 1700 {[ 7 := draft ]})) = Some r
    /\ originalImpact r = impact draft
    /\ originalMitigation r = mitigation draft
    /\ originalStatus r = status draft
    /\ (modified r = Some true <-> differs r)
    /\ (modified r = Some false <-> ~ differs r).
Proof.
  apply (modified_tracks_difference laterEdits {[ 7 := draft ]} 7 1700 draft);
    (reflexivity || discriminate).
Defined.

(** Property X5.  Of two calls in a row that write the same field of the same
    record, or that mark the same record as submitted, only the second
    counts: the store is the one the second call alone gives. *)
Theorem last_write_wins store findingId :
  (forall a b, updateImpact findingId b (updateImpact findingId a store)
               = updateImpact findingId b store)
  /\ (forall a b, updateMitigation findingId b (updateMitigation findingId a store)
                  = updateMitigation findingId b store)
  /\ (forall a b, updateStatus findingId b (updateStatus findingId a store)
                  = updateStatus findingId b store)
  /\ (forall t1 t2, markAsSubmitted findingId t2 (markAsSubmitted findingId t1 store)
                    = markAsSubmitted findingId t2 store).
Proof.
  split; [ | split; [ | split]]; intros a b.
  1-3: unfold updateImpact, updateMitigation, updateStatus, getOrEmpty;
    cbv zeta; rewrite get_set_eq; unfold set; rewrite insert_insert_eq;
    f_equal;
    destruct (get findingId store) as [[i m s sub at' md oi om os]|];
    cbn [impact mitigation status submitted submittedAt modified
         originalImpact originalMitigation originalStatus emptyTriage
         Js.truthyBool andb];
    [ | done ];
    match goal with
    | |- context [if Js.truthyBool sub && ?y then _ else _] =>
        destruct (Js.truthyBool sub && y) eqn:E
    end;
    cbn [impact mitigation status submitted submittedAt modified
         originalImpact originalMitigation originalStatus recompute];
    rewrite E; reflexivity.
  unfold markAsSubmitted. destruct (get findingId store) as [old|] eqn:Hget.
  - rewrite get_set_eq. unfold set. by rewrite insert_insert_eq.
  - by rewrite Hget.
Qed.

End StoreMore.

(** * More of the validation *)

Section ValidationFacts.

Import SubmitOps.

Lemma trimStart_hasText s : hasText (Str.trimStart s) = hasText s.
Proof.
  induction s as [|c s IH]; [done | ]. cbn [Str.trimStart].
  destruct (Str.isSpace c) eqn:Hc; [ | done].
  rewrite IH. unfold hasText. cbn. by rewrite Hc.
Qed.

Lemma trimEnd_isEmpty s : Str.isEmpty (Str.trimEnd s) = negb (hasText s).
Proof.
  induction s as [|c s IH]; [done | ]. cbn [Str.trimEnd].
  unfold hasText in *. cbn [list_ascii_of_string existsb].
  destruct (Str.trimEnd s) as [|d rest].
  - cbn in IH. destruct (existsb _ _); [discriminate | ].
    by destruct (Str.isSpace c).
  - cbn in IH. destruct (existsb _ _); [ | discriminate].
    by rewrite orb_true_r.
Qed.

Lemma blankOrMissing_hasText v : blankOrMissing (Some v) = negb (hasText v).
Proof.
  unfold blankOrMissing, Str.trim.
  rewrite trimEnd_isEmpty, trimStart_hasText.
  destruct v as [|c v]; [done | ]. done.
Qed.

(** Property X6.  A triage passes the validation exactly when it is there, its
    impact and its mitigation each hold a character that is not white
    space, and its status is set; and it passes exactly when the list of
    errors is empty. *)
Theorem validateTriageData_spec (t : option TriageData) :
  (isValid (validateTriageData t) = true
   <-> exists triage i m s,
         t = Some triage
         /\ impact triage = Some i /\ hasText i = true
         /\ mitigation triage = Some m /\ hasText m = true
         /\ status triage = Some s)
  /\ (isValid (validateTriageData t) = true <-> errors (validateTriageData t) = []).
Proof.
  destruct t as [triage|]; cbn [validateTriageData isValid errors].
  2: { split; split; try discriminate. by intros (? & ? & ? & ? & ? & _). }
  destruct (impact triage) as [i|] eqn:Hi;
    [rewrite blankOrMissing_hasText; destruct (hasText i) eqn:Hti | ];
    (destruct (mitigation triage) as [m|] eqn:Hm;
     [rewrite blankOrMissing_hasText; destruct (hasText m) eqn:Htm | ]);
    destruct (status triage) as [s|] eqn:Hs; cbn;
    (split; split; try discriminate; try done);
    try (intros (? & ? & ? & ? & [= <-] & H1 & H2 & H3 & H4 & H5); congruence).
  intros _. exists triage, i, m, s. by rewrite Hi, Hm, Hs.
Qed.

End ValidationFacts.

(** * More of the submit-triage command *)

Section SubmitMore.

Import Client Submit SubmitOps StoreOps Samples.

Lemma messages_app l1 l2 : messages (l1 ++ l2) = (messages l1 ++ messages l2)%list.
Proof. apply List.filter_app. Qed.

Section LoopMore.

Variable server : Server.
Variable clock : nat -> Z.
Variable isAggregated : bool.
Variable data : UpdateInput.
Variable totalFindings : nat.

Lemma iteration_returns i st :
  server i (updateData data) = None ->
  exists increment message,
    iteration server clock isAggregated data totalFindings i st
    = (mkState (TriageStore.markAsSubmitted i (clock (completed st)) (store st))
         (log st ++ [ProgressReport increment message; UpdateFinding i data;
                     MarkAsSubmitted i])%list
         (S (completed st)) (jiraErrors st),
       None).
Proof.
  intros H. unfold iteration, updateFinding. rewrite H.
  cbn [emit log store completed jiraErrors].
  do 2 eexists. by rewrite <- !app_assoc.
Qed.

Lemma iteration_throws i st msg :
  server i (updateData data) = Some msg ->
  exists increment message,
    iteration server clock isAggregated data totalFindings i st
    = (mkState (store st)
         (log st ++ [ProgressReport increment message; UpdateFinding i data])%list
         (completed st) (jiraErrors st),
       Some msg).
Proof.
  intros H. unfold iteration, updateFinding. rewrite H.
  unfold emit. cbn [log store completed jiraErrors].
  do 2 eexists. by rewrite <- !app_assoc.
Qed.

(** The loop marks the ids before the first failing one, in order, and
    throws what the first failing call throws. *)
Lemma loop_store before after st :
  Forall (fun j => server j (updateData data) = None) before ->
  match after with
  | [] => True
  | j :: _ => server j (updateData data) <> None
  end ->
  store (fst (loop server clock isAggregated data totalFindings
                (before ++ after)%list st))
  = markAll clock (completed st) before (store st)
  /\ snd (loop server clock isAggregated data totalFindings
            (before ++ after)%list st)
     = match after with
       | [] => None
       | j :: _ => server j (updateData data)
       end.
Proof.
  intros Hok Hfail. revert st.
  induction Hok as [|i before Hi _ IH]; intros st.
  - destruct after as [|j after']; [done | ]. cbn [app loop].
    destruct (server j (updateData data)) as [msg|] eqn:Hj; [ | done].
    destruct (iteration_throws j st msg Hj) as (inc & m & ->). done.
  - cbn [app loop markAll].
    destruct (iteration_returns i st Hi) as (inc & m & ->).
    match goal with |- context [loop _ _ _ _ _ _ ?s] =>
      destruct (IH s) as [H1 H2] end.
    by rewrite H1, H2.
Qed.

(** The loop shows no message and records no Jira error; it keeps the
    log it starts from, and when it does not throw it has marked every
    id. *)
Lemma loop_quiet ids st :
  messages (log (fst (loop server clock isAggregated data totalFindings ids st)))
  = messages (log st)
  /\ jiraErrors (fst (loop server clock isAggregated data totalFindings ids st))
     = jiraErrors st
  /\ (snd (loop server clock isAggregated data totalFindings ids st) = None ->
      Forall (fun j =>
                In (MarkAsSubmitted j)
                   (log (fst (loop server clock isAggregated data
                                totalFindings ids st)))) ids)
  /\ (forall e, In e (log st) ->
        In e (log (fst (loop server clock isAggregated data totalFindings
                          ids st)))).
Proof.
  revert st. induction ids as [|i ids IH]; intros st; [done | ].
  cbn [loop].
  destruct (server i (updateData data)) as [msg|] eqn:Hi.
  - destruct (iteration_throws i st msg Hi) as (inc & m & ->).
    cbn [fst snd log jiraErrors]. rewrite messages_app. cbn.
    rewrite app_nil_r. repeat split; [discriminate | ].
    intros e He. apply in_or_app. by left.
  - destruct (iteration_returns i st Hi) as (inc & m & ->).
    match goal with |- context [loop _ _ _ _ _ ids ?s] =>
      destruct (IH s) as (H1 & H2 & H3 & H4);
      destruct (loop server clock isAggregated data totalFindings ids s)
        as [st' [msg|]] eqn:Hl
    end; cbn [fst snd log jiraErrors] in *;
      rewrite H1, H2, messages_app; cbn; rewrite app_nil_r;
      (repeat split; [ | intros e He; apply H4, in_or_app; by left]).
    + discriminate.
    + intros _. constructor; [ | by apply H3].
      apply H4, in_or_app. right. cbn. tauto.
Qed.

(** A loop that does not throw has had every patch accepted. *)
Lemma loop_returns_all_ok ids st :
  snd (loop server clock isAggregated data totalFindings ids st) = None ->
  Forall (fun j => server j (updateData data) = None) ids.
Proof.
  revert st. induction ids as [|i ids IH]; intros st; [done | ].
  cbn [loop].
  destruct (server i (updateData data)) as [msg|] eqn:Hi.
  - by destruct (iteration_throws i st msg Hi) as (inc & m & ->).
  - destruct (iteration_returns i st Hi) as (inc & m & ->).
    intros H. constructor; [done | ]. by apply IH in H.
Qed.

End LoopMore.

(** [markAll] writes the records of the ids it is given, and those
    only. *)
Lemma markAll_other clock start ids (store : gmap Z TriageData) j :
  ~ In j ids ->
  TriageStore.get j (markAll clock start ids store) = TriageStore.get j store.
Proof.
  revert start store. induction ids as [|i ids IH]; intros start store Hj;
    [done | ].
  cbn [markAll]. rewrite IH by (intros H; apply Hj; by right).
  unfold TriageStore.markAsSubmitted.
  destruct (TriageStore.get i store); [ | done].
  apply get_set_ne. intros ->. apply Hj. by left.
Qed.

Lemma markAll_in clock ids : forall start (store : gmap Z TriageData) j,
  In j ids ->
  match TriageStore.get j store with
  | None => TriageStore.get j (markAll clock start ids store) = None
  | Some t =>
      exists now,
        TriageStore.get j (markAll clock start ids store)
        = Some (submittedCopy now t)
  end.
Proof.
  induction ids as [|i ids IH]; intros start store j Hj; [done | ].
  cbn [markAll].
  destruct (in_dec Z.eq_dec j ids) as [Hin|Hout].
  - specialize (IH (S start)
                  (TriageStore.markAsSubmitted i (clock start) store) j Hin).
    unfold TriageStore.markAsSubmitted in IH |- *.
    destruct (decide (i = j)) as [->|Hne].
    + destruct (TriageStore.get j store) as [t|] eqn:Hget.
      * rewrite get_set_eq in IH. exact IH.
      * by rewrite Hget in IH.
    + destruct (TriageStore.get i store) as [ti|]; [ | exact IH].
      by rewrite get_set_ne in IH.
  - destruct Hj as [->|Hj]; [ | done].
    rewrite markAll_other by done.
    unfold TriageStore.markAsSubmitted.
    destruct (TriageStore.get j store) as [t|] eqn:Hget.
    + rewrite get_set_eq. by exists (clock start).
    + by rewrite Hget.
Qed.

(** The guards of the handler. *)
Lemma submitTriage_guard config server clock panel finding store0 :
  isValid (validateTriageData (TriageStore.get (id finding) store0)) = false
  \/ apiToken config = EmptyString
  \/ url config = EmptyString ->
  submitTriage config server clock panel (Some finding) store0
  = (store0,
     [if isValid (validateTriageData (TriageStore.get (id finding) store0))
      then ShowErrorMessage CONFIGURE_CONNECTION
      else ShowWarningMessage FILL_ALL_FIELDS]).
Proof.
  intros H. unfold submitTriage.
  destruct (isValid (validateTriageData (TriageStore.get (id finding) store0)))
    eqn:Hv; cbn [negb]; [ | done].
  destruct H as [H|H]; [discriminate | ].
  destruct (TriageStore.get (id finding) store0) as [triage|];
    [ | discriminate Hv].
  destruct (validateTriageData_valid _ Hv)
    as (i & m & s & Hi & Hti & Hm & Htm & Hs).
  destruct triage as [ti tm ts sub sat mo oi om os].
  cbn in Hi, Hm, Hs. subst ti tm ts.
  rewrite Hti, Htm. cbn [negb orb].
  assert (Hc : negb (Js.truthyStr (Some (apiToken config)))
               || negb (Js.truthyStr (Some (url config))) = true).
  { destruct H as [-> | ->]; [done | ]. by rewrite orb_true_r. }
  by rewrite Hc.
Qed.

(** Property X7.  The command refuses to submit when the stored triage of the
    finding does not pass the validation or a connection setting is empty:
    the store is as before, nothing is sent, and the one thing shown is the
    request to fill the fields, or, for a valid triage, the request to
    configure the connection. *)
Theorem submit_refused config server clock panel finding store0 :
  isValid (validateTriageData (TriageStore.get (id finding) store0)) = false
  \/ apiToken config = EmptyString
  \/ url config = EmptyString ->
  submitTriage config server clock panel (Some finding) store0
  = (store0,
     [if isValid (validateTriageData (TriageStore.get (id finding) store0))
      then ShowErrorMessage CONFIGURE_CONNECTION
      else ShowWarningMessage FILL_ALL_FIELDS]).
Proof. apply submitTriage_guard. Qed.

Lemma submit_refused_witness :
  submitTriage noConnection healthy clock None (Some pomComposite) drafts
  = (drafts, [ShowErrorMessage CONFIGURE_CONNECTION]).
Proof.
  apply (submit_refused noConnection healthy clock None pomComposite drafts).
  right. left. reflexivity.
Defined.

(** The handler past its guards. *)
Lemma submitTriage_run config server clock panel finding store0 triage :
  TriageStore.get (id finding) store0 = Some triage ->
  isValid (validateTriageData (Some triage)) = true ->
  apiToken config <> EmptyString ->
  url config <> EmptyString ->
  exists i m s,
    impact triage = Some i /\ mitigation triage = Some m
    /\ status triage = Some s
    /\ submitTriage config server clock panel (Some finding) store0
       = let findingId := id finding in
         let isAggregated := bool_decide (_isAggregated finding = Some true) in
         let ids := originalFindingIds finding in
         let data := mkUpdateInput i m s in
         let totalFindings := length ids in
         let st0 := mkState store0 [ProgressReport 0 "Preparing data..."] 0 [] in
         match loop server clock isAggregated data totalFindings ids st0 with
         | (st, Some msg) =>
             (store st,
              log st ++ [ShowErrorMessage ("Error submitting data: " ++ msg)])%list
         | (st, None) =>
             (store st,
              log st ++ jiraWarning (jiraErrors st)
              ++ [ProgressReport 100 "Submitted"; Refresh]
              ++ (if bool_decide (panel = Some findingId)
                  then [UpdatePanel] else [])
              ++ [ShowInformationMessage
                    (if isAggregated
                     then "Triage data submitted for "
                          ++ Str.ofNat totalFindings
                          ++ " findings (IDs: "
                          ++ Str.join ", " (map Str.ofZ ids)
                          ++ ")"
                     else TRIAGE_SUBMITTED findingId)])%list
         end.
Proof.
  intros Hget Hvalid Htok Hurl.
  destruct (validateTriageData_valid _ Hvalid)
    as (i & m & s & Hi & Hti & Hm & Htm & Hs).
  exists i, m, s. repeat (split; [done | ]).
  unfold submitTriage. rewrite Hget, Hvalid. cbn [negb].
  destruct triage as [ti tm ts sub sat mo oi om os].
  cbn in Hi, Hm, Hs. subst ti tm ts.
  by rewrite Hti, Htm, (truthyStr_nonempty _ Htok), (truthyStr_nonempty _ Hurl).
Qed.

(** Property X8.  The store after a submission: [markAsSubmitted] has run on
    the ids before the first one whose patch fails, in order, at the times
    of the calls, and on no other id.  So each of these ids that has a
    record is submitted with its own three fields frozen, whatever was
    sent, an id without a record still has none, and the record of every
    other id, the failing one among them, is as before. *)
Theorem submit_store_effect config server clock panel finding store0 triage :
  TriageStore.get (id finding) store0 = Some triage ->
  isValid (validateTriageData (Some triage)) = true ->
  apiToken config <> EmptyString ->
  url config <> EmptyString ->
  exists i m s,
    impact triage = Some i /\ mitigation triage = Some m
    /\ status triage = Some s
    /\ forall before after,
         originalFindingIds finding = (before ++ after)%list ->
         Forall (fun j => server j (updateData (mkUpdateInput i m s)) = None)
           before ->
         match after with
         | [] => True
         | j :: _ => server j (updateData (mkUpdateInput i m s)) <> None
         end ->
         let final :=
           fst (submitTriage config server clock panel (Some finding) store0) in
         final = markAll clock 0 before store0
         /\ (forall j, ~ In j before ->
               TriageStore.get j final = TriageStore.get j store0)
         /\ (forall j, In j before ->
               match TriageStore.get j store0 with
               | None => TriageStore.get j final = None
               | Some t =>
                   exists now,
                     TriageStore.get j final = Some (submittedCopy now t)
               end).
Proof.
  intros Hget Hvalid Htok Hurl.
  destruct (submitTriage_run config server clock panel finding store0 triage
              Hget Hvalid Htok Hurl) as (i & m & s & Hi & Hm & Hs & Hrun).
  exists i, m, s. repeat (split; [done | ]).
  intros before after Hids Hok Hfail. cbv zeta in *.
  assert (Hfinal :
    fst (submitTriage config server clock panel (Some finding) store0)
    = markAll clock 0 before store0).
  { rewrite Hrun, Hids.
    match goal with |- context [loop _ _ ?a ?d ?n _ ?s] =>
      destruct (loop_store server clock a d n before after s Hok Hfail)
        as [H1 _];
      destruct (loop server clock a d n (before ++ after)%list s)
        as [st [msg|]]
    end; exact H1. }
  rewrite Hfinal. split; [done | ]. split.
  - intros j Hj. by apply markAll_other.
  - intros j Hj. by apply markAll_in.
Qed.

Lemma submit_store_effect_witness :
  exists i m s,
    impact draft = Some i /\ mitigation draft = Some m
    /\ status draft = Some s
    /\ forall before after,
         originalFindingIds pomComposite = (before ++ after)%list ->
         Forall (fun j => healthy j (updateData (mkUpdateInput i m s)) = None)
           before ->
         match after with
         | [] => True
         | j :: _ => healthy j (updateData (mkUpdateInput i m s)) <> None
         end ->
         let final :=
           fst (submitTriage connection healthy clock None (Some pomComposite)
                  drafts) in
         final = markAll clock 0 before drafts
         /\ (forall j, ~ In j before ->
               TriageStore.get j final = TriageStore.get j drafts)
         /\ (forall j, In j before ->
               match TriageStore.get j drafts with
               | None => TriageStore.get j final = None
               | Some t =>
                   exists now,
                     TriageStore.get j final = Some (submittedCopy now t)
               end).
Proof.
  apply (submit_store_effect connection healthy clock None pomComposite drafts
           draft); (reflexivity || discriminate).
Defined.

(** Property X9.  Every run of the command shows exactly one message.  A
    warning is the one for no selection or the one for missing fields,
    never the one about Jira, for [updateFinding] returns no Jira error;
    and the message of success is shown only when every id of the finding
    has been patched and marked: the stored triage of the finding has its
    three fields, the service has accepted the patch of every id, and the
    calls of the run are, for each id in order, the patch of that id with
    these three fields and then its [markAsSubmitted]. *)
Theorem submit_shows_one_message config server clock panel result store0 :
  exists e,
    messages (snd (submitTriage config server clock panel result store0)) = [e]
    /\ (forall msg, e = ShowWarningMessage msg ->
          msg = NO_FINDING_SELECTED \/ msg = FILL_ALL_FIELDS)
    /\ (forall msg, e = ShowInformationMessage msg ->
          exists finding triage i m s,
            result = Some finding
            /\ TriageStore.get (id finding) store0 = Some triage
            /\ impact triage = Some i
            /\ mitigation triage = Some m
            /\ status triage = Some s
            /\ Forall (fun j =>
                         server j (updateData (mkUpdateInput i m s)) = None
                         /\ In (UpdateFinding j (mkUpdateInput i m s))
                              (snd (submitTriage config server clock panel
                                      result store0))
                         /\ In (MarkAsSubmitted j)
                              (snd (submitTriage config server clock panel
                                      result store0)))
                 (originalFindingIds finding)
            /\ List.filter
                 (fun effect => match effect with
                                | UpdateFinding _ _ | MarkAsSubmitted _ => true
                                | _ => false
                                end)
                 (snd (submitTriage config server clock panel result store0))
               = flat_map
                   (fun j => [UpdateFinding j (mkUpdateInput i m s);
                              MarkAsSubmitted j])
                   (originalFindingIds finding)).
Proof.
  destruct result as [finding|].
  2: { eexists. split; [reflexivity | ]. split; [ | discriminate].
       intros msg [= <-]. by left. }
  destruct (isValid (validateTriageData (TriageStore.get (id finding) store0)))
    eqn:Hv.
  2: { rewrite submitTriage_guard by (by left). rewrite Hv.
       eexists. split; [reflexivity | ]. split; [ | discriminate].
       intros msg [= <-]. by right. }
  destruct (decide (apiToken config = EmptyString)) as [Htok|Htok].
  { rewrite submitTriage_guard by (right; by left). rewrite Hv.
    eexists. split; [reflexivity | ]. split; discriminate. }
  destruct (decide (url config = EmptyString)) as [Hurl|Hurl].
  { rewrite submitTriage_guard by (right; by right). rewrite Hv.
    eexists. split; [reflexivity | ]. split; discriminate. }
  destruct (TriageStore.get (id finding) store0) as [triage|] eqn:Hget;
    [ | discriminate Hv].
  destruct (submitTriage_run config server clock panel finding store0 triage
              Hget Hv Htok Hurl) as (i & m & s & Hi & Hmi & Hs & ->).
  cbv zeta.
  match goal with |- context [loop _ _ ?a ?d ?n ?l ?s] =>
    destruct (loop_quiet server clock a d n l s) as (Hm & Hj & Hall & _);
    pose proof (loop_returns_all_ok server clock a d n l s) as Hok;
    pose proof (loop_calls server clock a d n l s) as Hcalls;
    destruct (loop server clock a d n l s) as [st [msg|]]
  end; cbn [fst snd log jiraErrors] in *.
  - eexists. rewrite messages_app, Hm. cbn. split; [reflexivity | ].
    split; discriminate.
  - specialize (Hok eq_refl).
    rewrite (expectedCalls_all_ok _ _ _ Hok) in Hcalls.
    eexists. rewrite Hj. rewrite !messages_app, Hm.
    assert (Hp : messages (if bool_decide (panel = Some (id finding))
                           then [UpdatePanel] else []) = [])
      by (by destruct (bool_decide _)).
    rewrite Hp. cbn. split; [reflexivity | ]. split; [discriminate | ].
    intros msg' _. exists finding, triage, i, m, s.
    do 5 (split; [done | ]).
    assert (Hlog : calls (log st)
                   = flat_map
                       (fun j => [UpdateFinding j (mkUpdateInput i m s);
                                  MarkAsSubmitted j])
                       (originalFindingIds finding))
      by exact Hcalls.
    split.
    + apply List.Forall_forall. intros j Hin.
      split; [exact (proj1 (List.Forall_forall _ _) Hok j Hin) | ].
      assert (Hboth : In (UpdateFinding j (mkUpdateInput i m s))
                        (calls (log st))
                      /\ In (MarkAsSubmitted j) (calls (log st))).
      { rewrite Hlog. split; apply in_flat_map; exists j;
          (split; [done | cbn; tauto]). }
      destruct Hboth as [H1 H2]. unfold calls in H1, H2.
      apply List.filter_In in H1 as [H1 _]. apply List.filter_In in H2 as [H2 _].
      split; apply in_or_app; by left.
    + match goal with |- List.filter _ ?l = ?r => change (calls l = r) end.
      rewrite calls_app, Hlog.
      by destruct (bool_decide (panel = Some (id finding)));
        cbn; rewrite app_nil_r.
Qed.

End SubmitMore.

(** * More of the aggregation *)

Section AggregateMore.

Import Aggregate Samples.

Lemma membersAt_In k findings f :
  In f (membersAt k findings) <-> In f findings /\ locationOf f = k.
Proof.
  unfold membersAt. rewrite List.filter_In, String.eqb_eq. tauto.
Qed.

(** A key that occurs gives one output, at that location; it stands for
    the members of the group. *)
Lemma aggregateGroup_one k findings :
  In k (map locationOf findings) ->
  exists out,
    aggregateGroup (k, membersAt k findings) = [out]
    /\ locationOf out = k
    /\ (Forall (fun f => _aggregatedFindingIds f = None) findings ->
        Submit.originalFindingIds out = map id (membersAt k findings)).
Proof.
  intros Hk. pose proof (membersAt_seen k findings Hk) as Hne.
  destruct (membersAt k findings) as [|first [|second rest]] eqn:Hm;
    [done | | ]; cbn [aggregateGroup].
  - assert (Hin : In first (membersAt k findings)) by (rewrite Hm; by left).
    apply membersAt_In in Hin as [Hin Hloc].
    exists first. repeat split; [done | ].
    intros Hfresh. rewrite List.Forall_forall in Hfresh.
    unfold Submit.originalFindingIds. by rewrite (Hfresh _ Hin).
  - assert (Hin : In first (membersAt k findings)) by (rewrite Hm; by left).
    apply membersAt_In in Hin as [Hin Hloc].
    eexists. repeat split; done.
Qed.

Lemma aggregate_flat findings keys :
  (forall k, In k keys -> In k (map locationOf findings)) ->
  map locationOf
    (flat_map (fun k => aggregateGroup (k, membersAt k findings)) keys) = keys
  /\ (Forall (fun f => _aggregatedFindingIds f = None) findings ->
      flat_map Submit.originalFindingIds
        (flat_map (fun k => aggregateGroup (k, membersAt k findings)) keys)
      = map id (flat_map (fun k => membersAt k findings) keys)).
Proof.
  induction keys as [|k keys IH]; intros Hkeys; [done | ].
  destruct (aggregateGroup_one k findings (Hkeys k (or_introl eq_refl)))
    as (out & Hout & Hloc & Hids).
  destruct IH as [IH1 IH2]; [intros k' Hk'; apply Hkeys; by right | ].
  cbn [flat_map]. rewrite Hout. cbn [app map flat_map]. split.
  - by rewrite Hloc, IH1.
  - intros Hfresh. by rewrite List.map_app, (Hids Hfresh), (IH2 Hfresh).
Qed.

Lemma aggregate_locations findings :
  map locationOf (aggregateDependencyTrackFindings findings)
  = firstSeen (map locationOf findings).
Proof.
  rewrite aggregate_partition.
  apply aggregate_flat. intros k. apply firstSeen_In.
Qed.

Lemma firstSeen_length keys : (length (firstSeen keys) <= length keys)%nat.
Proof.
  induction keys as [|k keys IH]; cbn; [lia | ].
  pose proof (List.filter_length_le
                (fun k' => negb (String.eqb k' k)) (firstSeen keys)). lia.
Qed.

(** Property X10.  The result has one finding per distinct location of the
    input: the locations of the result are the distinct locations of the
    input in the order in which they are first seen.  So no two findings
    of the result share a location, and the result is not longer than the
    input. *)
Theorem aggregate_one_per_location findings :
  map locationOf (aggregateDependencyTrackFindings findings)
  = firstSeen (map locationOf findings)
  /\ List.NoDup (map locationOf (aggregateDependencyTrackFindings findings))
  /\ (length (aggregateDependencyTrackFindings findings) <= length findings)%nat.
Proof.
  pose proof (aggregate_locations findings) as H.
  split; [done | ]. split.
  - rewrite H. apply firstSeen_NoDup.
  - rewrite <- (List.length_map locationOf), H.
    rewrite <- (List.length_map locationOf findings).
    apply firstSeen_length.
Qed.

Lemma firstSeen_NoDup_id keys : List.NoDup keys -> firstSeen keys = keys.
Proof.
  induction 1 as [|k keys Hk _ IH]; cbn; [done | ].
  rewrite IH. f_equal. apply List.forallb_filter_id.
  apply forallb_forall. intros k' Hk'. apply negb_true_iff, String.eqb_neq.
  congruence.
Qed.

Lemma membersAt_single prefix f suffix :
  ~ In (locationOf f) (map locationOf prefix) ->
  ~ In (locationOf f) (map locationOf suffix) ->
  membersAt (locationOf f) (prefix ++ f :: suffix) = [f].
Proof.
  intros Hp Hs. unfold membersAt. rewrite List.filter_app. cbn [List.filter].
  rewrite String.eqb_refl.
  fold (membersAt (locationOf f) prefix). fold (membersAt (locationOf f) suffix).
  by rewrite !membersAt_unseen.
Qed.

Lemma aggregate_NoDup findings :
  List.NoDup (map locationOf findings) ->
  aggregateDependencyTrackFindings findings = findings.
Proof.
  intros Hnd. rewrite aggregate_partition, (firstSeen_NoDup_id _ Hnd).
  rewrite flat_map_concat_map, List.map_map, <- flat_map_concat_map.
  assert (H : forall prefix suffix,
             findings = (prefix ++ suffix)%list ->
             flat_map (fun f => aggregateGroup
                                  (locationOf f, membersAt (locationOf f) findings))
               suffix = suffix).
  { intros prefix suffix. revert prefix.
    induction suffix as [|f suffix IH]; intros prefix Heq; [done | ].
    cbn [flat_map].
    rewrite (IH (prefix ++ [f])%list) by (by rewrite <- app_assoc).
    rewrite Heq, List.map_app in Hnd. cbn [map] in Hnd.
    pose proof (List.NoDup_remove_2 _ _ _ Hnd) as Hout.
    rewrite Heq, membersAt_single; [done | | ];
      intros Hin; apply Hout, in_or_app; tauto. }
  exact (H [] findings eq_refl).
Qed.

(** Property X11.  A list whose findings have pairwise distinct locations
    comes back as it is: no composite is made, and the order is kept. *)
Theorem aggregate_distinct_locations findings :
  List.NoDup (map locationOf findings) ->
  aggregateDependencyTrackFindings findings = findings.
Proof. apply aggregate_NoDup. Qed.

Lemma aggregate_distinct_locations_witness :
  aggregateDependencyTrackFindings [pomLog4j; gradleGuava]
  = [pomLog4j; gradleGuava].
Proof.
  apply (aggregate_distinct_locations [pomLog4j; gradleGuava]).
  repeat constructor; cbn; intuition discriminate.
Defined.

(** Property X12.  Aggregating a result again changes nothing: a composite is
    never merged with another finding, nor wrapped in a second composite. *)
Theorem aggregate_idempotent findings :
  aggregateDependencyTrackFindings (aggregateDependencyTrackFindings findings)
  = aggregateDependencyTrackFindings findings.
Proof.
  apply aggregate_NoDup. rewrite aggregate_locations. apply firstSeen_NoDup.
Qed.

Lemma filter_split {A} (p : A -> bool) (l : list A) :
  Permutation (List.filter p l ++ List.filter (fun x => negb (p x)) l) l.
Proof.
  induction l as [|x l IH]; cbn; [done | ].
  destruct (p x); cbn.
  - by constructor.
  - rewrite <- Permutation_middle. by constructor.
Qed.

Lemma membersAt_filter k k' findings :
  k' <> k ->
  membersAt k' (List.filter (fun f => negb (String.eqb (locationOf f) k)) findings)
  = membersAt k' findings.
Proof.
  intros Hne. unfold membersAt.
  induction findings as [|f findings IH]; cbn [List.filter]; [done | ].
  destruct (String.eqb_spec (locationOf f) k) as [Heq|Hneq]; cbn [negb List.filter].
  - rewrite IH. destruct (String.eqb_spec (locationOf f) k'); [congruence | done].
  - by rewrite IH.
Qed.

(** The groups of distinct keys that cover the locations of a list are a
    rearrangement of the list. *)
Lemma groups_permutation keys : forall findings,
  List.NoDup keys ->
  (forall f, In f findings -> In (locationOf f) keys) ->
  Permutation (flat_map (fun k => membersAt k findings) keys) findings.
Proof.
  induction keys as [|k keys IH]; intros findings Hnd Hcover.
  - destruct findings as [|f ?]; [done | ]. destruct (Hcover f). by left.
  - apply List.NoDup_cons_iff in Hnd as [Hk Hnd]. cbn [flat_map].
    set (others := List.filter (fun f => negb (String.eqb (locationOf f) k))
                     findings).
    assert (Hsame : flat_map (fun k' => membersAt k' findings) keys
                    = flat_map (fun k' => membersAt k' others) keys).
    { rewrite !flat_map_concat_map. f_equal.
      apply map_ext_in. intros k' Hk'. symmetry.
      apply membersAt_filter. congruence. }
    rewrite Hsame, (IH others Hnd).
    + apply (filter_split (fun f => String.eqb (locationOf f) k)).
    + intros f Hf. apply List.filter_In in Hf as [Hf Hloc].
      apply negb_true_iff, String.eqb_neq in Hloc.
      destruct (Hcover f Hf) as [E|E]; [congruence | done].
Qed.

(** Property X13.  For findings as the service lists them (none carries a list
    of aggregated ids), the ids the submit command patches for the findings
    of the result are, taken together, the ids of the input, each as often
    as it occurs there: aggregation loses no finding and repeats none. *)
Theorem aggregate_keeps_ids findings :
  Forall (fun f => _aggregatedFindingIds f = None) findings ->
  Permutation
    (flat_map Submit.originalFindingIds
       (aggregateDependencyTrackFindings findings))
    (map id findings).
Proof.
  intros Hfresh. rewrite aggregate_partition.
  destruct (aggregate_flat findings (firstSeen (map locationOf findings)))
    as [_ Hids]; [intros k; apply firstSeen_In | ].
  rewrite (Hids Hfresh). apply Permutation_map.
  apply groups_permutation; [apply firstSeen_NoDup | ].
  intros f Hf. apply firstSeen_In. by apply in_map.
Qed.

Lemma aggregate_keeps_ids_witness :
  Permutation
    (flat_map Submit.originalFindingIds
       (aggregateDependencyTrackFindings Samples.findings))
    (map id Samples.findings).
Proof.
  apply (aggregate_keeps_ids Samples.findings). by repeat constructor.
Defined.

End AggregateMore.

(** * More of the component name and version *)

Section ComponentMore.

Import Component Samples.

Lemma span_fst_nonempty p c s :
  p c = true -> Str.isEmpty (fst (span p (String c s))) = false.
Proof. intros H. cbn. rewrite H. by destruct (span p s). Qed.

Lemma span_fst_empty p s :
  Str.isEmpty (fst (span p s)) = true ->
  match s with String c _ => p c = false | EmptyString => True end.
Proof.
  destruct s as [|c s]; [done | ]. cbn. destruct (p c); [ | done].
  by destruct (span p s).
Qed.

Lemma versionAt_nonempty s v : versionAt s = Some v -> v <> EmptyString.
Proof.
  unfold versionAt. destruct (span versionHead s) as [head rest].
  destruct head as [|c head]; [discriminate | ]. cbn [Str.isEmpty].
  destruct rest as [|d rest]; [by intros [= <-] | ].
  destruct (isHyphen d); [ | by intros [= <-]].
  destruct (span versionTail rest) as [tail ?].
  destruct (Str.isEmpty tail); by intros [= <-].
Qed.

Lemma versionMatch_nonempty s v : versionMatch s = Some v -> v <> EmptyString.
Proof.
  induction s as [|c s IH]; cbn [versionMatch].
  - destruct (versionAt EmptyString) eqn:E; [ | discriminate].
    intros [= <-]. by apply (versionAt_nonempty _ _ E).
  - destruct (versionAt (String c s)) eqn:E; [ | exact IH].
    intros [= <-]. by apply (versionAt_nonempty _ _ E).
Qed.

Lemma versionInTitle_nonempty n s v :
  versionInTitle n s = Some v -> v <> EmptyString.
Proof.
  assert (H : forall s, nameVersionAt n s = Some v -> v <> EmptyString).
  { intros s'. unfold nameVersionAt. destruct (stripPrefix false n s'); [ | done].
    destruct (span separator s0) as [sep rest].
    destruct (Str.isEmpty sep); [done | ]. apply versionAt_nonempty. }
  induction s as [|c s IH]; cbn [versionInTitle].
  - destruct (nameVersionAt n EmptyString) eqn:E; [ | discriminate].
    intros [= <-]. by apply (H _ E).
  - destruct (nameVersionAt n (String c s)) eqn:E; [ | exact IH].
    intros [= <-]. by apply (H _ E).
Qed.

Lemma bareAt_nonempty s n g : bareAt s = Some (n, g) -> n <> EmptyString.
Proof.
  unfold bareAt. destruct (span nameChar s) as [n' rest].
  destruct n' as [|c n']; [discriminate | ]. cbn [Str.isEmpty].
  destruct rest as [|d rest]; [by intros [= <- _] | ].
  destruct (isColon d); [ | by intros [= <- _]].
  destruct (span nonSpace rest) as [g' ?].
  destruct (Str.isEmpty g'); by intros [= <- _].
Qed.

Lemma componentMatch_nonempty s n g :
  componentMatch s = Some (n, g) -> n <> EmptyString.
Proof.
  assert (H : forall s, componentAt s = Some (n, g) -> n <> EmptyString).
  { intros s'. unfold componentAt.
    destruct (stripPrefix true "Component:" s') as [rest|];
      [ | apply bareAt_nonempty].
    destruct (bareAt (snd (span Str.isSpace rest))) as [r|] eqn:E;
      [ | apply bareAt_nonempty].
    intros [= ->]. by apply (bareAt_nonempty _ _ _ E). }
  induction s as [|c s IH]; cbn [componentMatch].
  - destruct (componentAt EmptyString) eqn:E; [ | discriminate].
    intros [= ->]. by apply (H _ E).
  - destruct (componentAt (String c s)) eqn:E; [ | exact IH].
    intros [= ->]. by apply (H _ E).
Qed.

Lemma truthyString_Some x v : truthyString x = Some v -> v <> EmptyString.
Proof.
  unfold truthyString. destruct x as [[|c s]|]; cbn; try discriminate.
  by intros [= <-].
Qed.

(** Property X14.  [extractComponentInfo] gives nothing exactly when the
    finding has no component name (or an empty one) and an empty title.
    What it gives never has an empty name, nor a version that is the empty
    string; and a component name of the finding itself wins over the title:
    the result is then this name with the component version of the finding,
    if that is a non-empty string. *)
Theorem extractComponentInfo_spec (f : Finding) :
  (extractComponentInfo f = None
   <-> Js.truthyStr (component_name f) = false /\ title f = EmptyString)
  /\ forall info,
       extractComponentInfo f = Some info ->
       name info <> EmptyString
       /\ (forall v, version info = Some v -> v <> EmptyString)
       /\ (Js.truthyStr (component_name f) = true ->
           component_name f = Some (name info)
           /\ version info = truthyString (component_version f)).
Proof.
  unfold extractComponentInfo. cbv zeta.
  destruct (truthyString (component_name f)) as [n|] eqn:Hn.
  - assert (Ht : Js.truthyStr (component_name f) = true).
    { unfold truthyString in Hn. by destruct (Js.truthyStr (component_name f)). }
    split; [split; [done | intros [H _]; congruence] | ].
    intros info [= <-]. cbn [name version].
    split; [by apply (truthyString_Some _ _ Hn) | ].
    split; [intros v; apply truthyString_Some | ].
    intros _. unfold truthyString in Hn. rewrite Ht in Hn. done.
  - assert (Ht : Js.truthyStr (component_name f) = false).
    { unfold truthyString in Hn. by destruct (component_name f) as [[|? ?]|]. }
    destruct (title f) as [|c t] eqn:Htitle; cbn [Js.truthyStr].
    { split; [done | intros ? [=]]. }
    split; [split; [ | intros [_ H]; discriminate] | ].
    { by destruct (componentMatch (String c t)) as [[n [g|]]|]. }
    intros info Hinfo.
    split; [ | split; [ | congruence]].
    + destruct (componentMatch (String c t)) as [[n [g|]]|] eqn:Hm;
        injection Hinfo as <-; cbn [name];
        first [by apply (componentMatch_nonempty _ _ _ Hm) | done].
    + intros v Hv.
      destruct (componentMatch (String c t)) as [[n [g|]]|] eqn:Hm.
      * destruct (versionMatch g) eqn:E; injection Hinfo as <-;
          cbn [version] in Hv.
        -- injection Hv as ->. by apply (versionMatch_nonempty _ _ E).
        -- by apply (truthyString_Some _ _ Hv).
      * destruct (versionInTitle n (String c t)) eqn:E; injection Hinfo as <-;
          cbn [version] in Hv.
        -- injection Hv as ->. by apply (versionInTitle_nonempty _ _ _ E).
        -- by apply (truthyString_Some _ _ Hv).
      * injection Hinfo as <-. discriminate.
Qed.

Lemma span_all p a b :
  forallb p (list_ascii_of_string a) = true ->
  match b with String c _ => p c = false | EmptyString => True end ->
  span p (a ++ b) = (a, b).
Proof.
  intros Ha Hb. induction a as [|c a IH];
    cbn [list_ascii_of_string forallb] in Ha.
  - change (EmptyString ++ b) with b.
    destruct b as [|d b]; [done | ]. cbn [span]. by rewrite Hb.
  - change (String c a ++ b) with (String c (a ++ b)). cbn [span].
    apply andb_true_iff in Ha as [Hc Ha]. by rewrite Hc, (IH Ha).
Qed.

Lemma span_all_end p a :
  forallb p (list_ascii_of_string a) = true -> span p a = (a, EmptyString).
Proof.
  intros Ha. induction a as [|c a IH]; cbn in *; [done | ].
  apply andb_true_iff in Ha as [Hc Ha]. by rewrite Hc, (IH Ha).
Qed.

Lemma versionHead_nonSpace c : versionHead c = true -> nonSpace c = true.
Proof.
  revert c. assert (H : forallb (fun n => implb (versionHead (ascii_of_nat n))
                                         (nonSpace (ascii_of_nat n)))
                          (seq 0 256) = true) by (vm_compute; reflexivity).
  intros c Hc. rewrite forallb_forall in H.
  specialize (H (nat_of_ascii c)). rewrite ascii_nat_embedding, Hc in H.
  apply H, in_seq. pose proof (nat_ascii_bounded c). lia.
Qed.

Lemma bareAt_pair n v :
  n <> EmptyString -> forallb nameChar (list_ascii_of_string n) = true ->
  v <> EmptyString -> forallb versionHead (list_ascii_of_string v) = true ->
  bareAt (n ++ ":" ++ v) = Some (n, Some v).
Proof.
  intros Hn Hnc Hv Hvc. unfold bareAt.
  rewrite (span_all nameChar n (":" ++ v) Hnc) by done.
  destruct n as [|c n]; [done | ]. cbn [Str.isEmpty].
  change (":" ++ v) with (String ":" v). cbn [isColon Ascii.eqb Bool.eqb].
  rewrite (span_all_end nonSpace v).
  - by destruct v.
  - apply forallb_forall. intros c' Hc'. apply versionHead_nonSpace.
    rewrite forallb_forall in Hvc. by apply Hvc.
Qed.

Lemma versionMatch_plain v :
  v <> EmptyString -> forallb versionHead (list_ascii_of_string v) = true ->
  versionMatch v = Some v.
Proof.
  intros Hv Hvc.
  assert (H : versionAt v = Some v).
  { unfold versionAt. rewrite (span_all_end versionHead v Hvc). by destruct v. }
  destruct v; cbn [versionMatch]; by rewrite H.
Qed.

Lemma componentMatch_at s r : componentAt s = Some r -> componentMatch s = Some r.
Proof. intros H. destruct s; cbn [componentMatch]; by rewrite H. Qed.

(** Property X15.  A title that spells a component as name, colon, version is
    read back: when the finding has no component name of its own, the name
    is a non-empty run without white space or colon and the version a
    non-empty run of digits and dots, the titles 'Component: name:version'
    and, unless it starts with 'component:' in some spelling,
    'name:version' give this name and this version. *)
Theorem extractComponentInfo_decodes_title (f : Finding) n v :
  Js.truthyStr (component_name f) = false ->
  n <> EmptyString -> forallb nameChar (list_ascii_of_string n) = true ->
  v <> EmptyString -> forallb versionHead (list_ascii_of_string v) = true ->
  title f = "Component: " ++ n ++ ":" ++ v
  \/ (title f = n ++ ":" ++ v
      /\ stripPrefix true "Component:" (title f) = None) ->
  extractComponentInfo f = Some (mkComponentInfo n (Some v)).
Proof.
  intros Hc Hn Hnc Hv Hvc Ht.
  assert (Hm : componentMatch (title f) = Some (n, Some v)).
  { apply componentMatch_at. unfold componentAt.
    destruct Ht as [-> | [-> ->]]; [ | by apply bareAt_pair].
    change (stripPrefix true "Component:" ("Component: " ++ n ++ ":" ++ v))
      with (Some (String " " (n ++ ":" ++ v))).
    assert (Hs : span Str.isSpace (String " " (n ++ ":" ++ v))
                 = (" ", n ++ ":" ++ v)).
    { apply (span_all Str.isSpace " " (n ++ ":" ++ v)); [done | ].
      destruct n as [|c n]; [done | ]. cbn in Hnc |- *.
      apply andb_true_iff in Hnc as [Hnc _]. unfold nameChar in Hnc.
      apply andb_true_iff in Hnc as [Hnc _]. by apply negb_true_iff. }
    cbv beta iota. rewrite Hs. cbn [snd]. by rewrite bareAt_pair. }
  assert (Htitle : Js.truthyStr (Some (title f)) = true).
  { destruct Ht as [-> | [-> _]]; [done | ]. by destruct n. }
  unfold extractComponentInfo. cbv zeta.
  assert (Hnone : truthyString (component_name f) = None)
    by (unfold truthyString; by rewrite Hc).
  rewrite Hnone, Htitle, Hm. by rewrite versionMatch_plain.
Qed.

Lemma extractComponentInfo_decodes_title_witness :
  extractComponentInfo pomLog4j
  = Some (mkComponentInfo "log4j-core" (Some "2.14.1")).
Proof.
  apply (extractComponentInfo_decodes_title pomLog4j "log4j-core" "2.14.1");
    try reflexivity; try discriminate.
  right. split; reflexivity.
Defined.

End ComponentMore.

(** * The details panel and the submit command *)

Section PanelFacts.

Import TriageStore StoreOps Client Submit SubmitOps Aggregate Panel Samples.

Lemma fanOut_findingIds update finding store :
  fanOut update finding store
  = fold_left (fun s i => update i s) (findingIds finding) store.
Proof.
  unfold fanOut, findingIds.
  destruct (Js.truthyBool (_isAggregated finding)); [ | done].
  by destruct (_aggregatedFindingIds finding).
Qed.

(** A finding of the result of the aggregation is a finding of the input
    or a composite of two or more of them. *)
Lemma aggregate_In findings out :
  In out (aggregateDependencyTrackFindings findings) ->
  In out findings
  \/ exists location first second rest,
       out = aggregatedFinding location first (first :: second :: rest).
Proof.
  rewrite aggregate_partition. intros H.
  apply in_flat_map in H as (k & _ & H).
  destruct (membersAt k findings) as [|first [|second rest]] eqn:Hm;
    cbn [aggregateGroup] in H; [done | | ].
  - destruct H as [<- | []]. left.
    assert (Hin : In first (membersAt k findings)) by (rewrite Hm; by left).
    unfold membersAt in Hin. by apply List.filter_In in Hin as [Hin _].
  - destruct H as [<- | []]. right. by exists k, first, second, rest.
Qed.

(** Property X16.  On the findings the aggregation gives for findings as the
    service lists them, the details panel and the submit command work on
    the same ids: the records an edit in the panel writes are those of the
    ids the submit command patches and marks. *)
Theorem panel_and_submit_same_ids findings out :
  Forall (fun f => _aggregatedFindingIds f = None) findings ->
  In out (aggregateDependencyTrackFindings findings) ->
  findingIds out = originalFindingIds out
  /\ forall message store,
       onMessage (Some out) message store
       = match message with
         | UPDATE_IMPACT (Some value) =>
             fold_left (fun s i => updateImpact i value s)
               (originalFindingIds out) store
         | UPDATE_MITIGATION (Some value) =>
             fold_left (fun s i => updateMitigation i value s)
               (originalFindingIds out) store
         | UPDATE_STATUS (Some value) =>
             fold_left (fun s i => updateStatus i (Some value) s)
               (originalFindingIds out) store
         | _ => store
         end.
Proof.
  intros Hfresh Hin.
  assert (Hids : findingIds out = originalFindingIds out).
  { destruct (aggregate_In findings out Hin)
      as [Hold | (location & first & second & rest & ->)].
    - rewrite List.Forall_forall in Hfresh.
      unfold findingIds, originalFindingIds. rewrite (Hfresh out Hold).
      by destruct (Js.truthyBool _).
    - reflexivity. }
  split; [done | ].
  intros [[v|]|[v|]|[v|]] store; cbn [onMessage]; try done;
    by rewrite fanOut_findingIds, Hids.
Qed.

Lemma panel_and_submit_same_ids_witness :
  findingIds pomComposite = originalFindingIds pomComposite
  /\ forall message store,
       onMessage (Some pomComposite) message store
       = match message with
         | UPDATE_IMPACT (Some value) =>
             fold_left (fun s i => updateImpact i value s)
               (originalFindingIds pomComposite) store
         | UPDATE_MITIGATION (Some value) =>
             fold_left (fun s i => updateMitigation i value s)
               (originalFindingIds pomComposite) store
         | UPDATE_STATUS (Some value) =>
             fold_left (fun s i => updateStatus i (Some value) s)
               (originalFindingIds pomComposite) store
         | _ => store
         end.
Proof.
  apply (panel_and_submit_same_ids Samples.findings pomComposite).
  - by repeat constructor.
  - left. reflexivity.
Defined.

(** What one update does to the three fields of every record, a missing
    record counting as the empty one. *)
Lemma updateImpact_fields k v j store :
  impact (getOrEmpty j (updateImpact k v store))
  = (if decide (k = j) then Some v else impact (getOrEmpty j store))
  /\ mitigation (getOrEmpty j (updateImpact k v store))
     = mitigation (getOrEmpty j store)
  /\ status (getOrEmpty j (updateImpact k v store)) = status (getOrEmpty j store)
  /\ (k = j \/ get j store <> None -> get j (updateImpact k v store) <> None).
Proof.
  destruct (decide (k = j)) as [->|Hne].
  - unfold updateImpact, getOrEmpty. cbv zeta. rewrite !get_set_eq.
    destruct (get j store) as [old|];
      destruct (Js.truthyBool _ && bool_decide _); cbn; repeat split; done.
  - unfold getOrEmpty. rewrite !get_updateImpact_ne by done.
    repeat split. intros [H|H]; done.
Qed.

Lemma updateMitigation_fields k v j store :
  impact (getOrEmpty j (updateMitigation k v store))
  = impact (getOrEmpty j store)
  /\ mitigation (getOrEmpty j (updateMitigation k v store))
     = (if decide (k = j) then Some v else mitigation (getOrEmpty j store))
  /\ status (getOrEmpty j (updateMitigation k v store))
     = status (getOrEmpty j store)
  /\ (k = j \/ get j store <> None -> get j (updateMitigation k v store) <> None).
Proof.
  destruct (decide (k = j)) as [->|Hne].
  - unfold updateMitigation, getOrEmpty. cbv zeta. rewrite !get_set_eq.
    destruct (get j store) as [old|];
      destruct (Js.truthyBool _ && bool_decide _); cbn; repeat split; done.
  - unfold getOrEmpty. rewrite !get_updateMitigation_ne by done.
    repeat split. intros [H|H]; done.
Qed.

Lemma updateStatus_fields k v j store :
  impact (getOrEmpty j (updateStatus k v store))
  = impact (getOrEmpty j store)
  /\ mitigation (getOrEmpty j (updateStatus k v store))
     = mitigation (getOrEmpty j store)
  /\ status (getOrEmpty j (updateStatus k v store))
     = (if decide (k = j) then v else status (getOrEmpty j store))
  /\ (k = j \/ get j store <> None -> get j (updateStatus k v store) <> None).
Proof.
  destruct (decide (k = j)) as [->|Hne].
  - unfold updateStatus, getOrEmpty. cbv zeta. rewrite !get_set_eq.
    destruct (get j store) as [old|];
      destruct (Js.truthyBool _ && bool_decide _); cbn; repeat split; done.
  - unfold getOrEmpty. rewrite !get_updateStatus_ne by done.
    repeat split. intros [H|H]; done.
Qed.

(** A loop of one update over a list of ids. *)
Lemma fold_fields
    (update : Z -> gmap Z TriageData -> gmap Z TriageData)
    (fi fm : option string -> option string)
    (fs : option TriageStatus -> option TriageStatus) :
  (forall x, fi (fi x) = fi x) -> (forall x, fm (fm x) = fm x) ->
  (forall x, fs (fs x) = fs x) ->
  (forall k j store,
     impact (getOrEmpty j (update k store))
     = (if decide (k = j) then fi (impact (getOrEmpty j store))
        else impact (getOrEmpty j store))
     /\ mitigation (getOrEmpty j (update k store))
        = (if decide (k = j) then fm (mitigation (getOrEmpty j store))
           else mitigation (getOrEmpty j store))
     /\ status (getOrEmpty j (update k store))
        = (if decide (k = j) then fs (status (getOrEmpty j store))
           else status (getOrEmpty j store))
     /\ (k = j \/ get j store <> None -> get j (update k store) <> None)) ->
  forall ids j store,
    In j ids ->
    impact (getOrEmpty j (fold_left (fun s i => update i s) ids store))
    = fi (impact (getOrEmpty j store))
    /\ mitigation (getOrEmpty j (fold_left (fun s i => update i s) ids store))
       = fm (mitigation (getOrEmpty j store))
    /\ status (getOrEmpty j (fold_left (fun s i => update i s) ids store))
       = fs (status (getOrEmpty j store))
    /\ get j (fold_left (fun s i => update i s) ids store) <> None.
Proof.
  intros Hfi Hfm Hfs Hup ids j.
  assert (Hkeep : forall ids store,
            (impact (getOrEmpty j store) = fi (impact (getOrEmpty j store)) ->
             impact (getOrEmpty j (fold_left (fun s i => update i s) ids store))
             = impact (getOrEmpty j store))
            /\ (mitigation (getOrEmpty j store)
                = fm (mitigation (getOrEmpty j store)) ->
                mitigation (getOrEmpty j
                              (fold_left (fun s i => update i s) ids store))
                = mitigation (getOrEmpty j store))
            /\ (status (getOrEmpty j store) = fs (status (getOrEmpty j store)) ->
                status (getOrEmpty j
                          (fold_left (fun s i => update i s) ids store))
                = status (getOrEmpty j store))
            /\ (get j store <> None ->
                get j (fold_left (fun s i => update i s) ids store) <> None)).
  { induction ids0 as [|k ids0 IH]; intros store; [done | ].
    cbn [fold_left].
    destruct (Hup k j store) as (H1 & H2 & H3 & H4).
    destruct (IH (update k store)) as (I1 & I2 & I3 & I4).
    destruct (decide (k = j)) as [->|Hne].
    - repeat split.
      + intros E. rewrite I1; rewrite H1; congruence.
      + intros E. rewrite I2; rewrite H2; congruence.
      + intros E. rewrite I3; rewrite H3; congruence.
      + intros E. apply I4, H4. by left.
    - repeat split.
      + intros E. rewrite I1; rewrite H1; congruence.
      + intros E. rewrite I2; rewrite H2; congruence.
      + intros E. rewrite I3; rewrite H3; congruence.
      + intros E. apply I4, H4. by right. }
  induction ids as [|k ids IH]; intros store Hin; [done | ].
  cbn [fold_left].
  destruct (Hup k j store) as (H1 & H2 & H3 & H4).
  destruct (decide (k = j)) as [->|Hne].
  - destruct (Hkeep ids (update j store)) as (K1 & K2 & K3 & K4).
    rewrite K1, K2, K3 by (rewrite ?H1, ?H2, ?H3; by rewrite ?Hfi, ?Hfm, ?Hfs).
    rewrite H1, H2, H3. repeat split. apply K4, H4. by left.
  - destruct Hin as [->|Hin]; [done | ].
    destruct (IH (update k store) Hin) as (I1 & I2 & I3 & I4).
    by rewrite I1, I2, I3, H1, H2, H3.
Qed.

Lemma fold_updateImpact ids v j store :
  In j ids ->
  impact (getOrEmpty j (fold_left (fun s i => updateImpact i v s) ids store))
  = Some v
  /\ mitigation (getOrEmpty j
                   (fold_left (fun s i => updateImpact i v s) ids store))
     = mitigation (getOrEmpty j store)
  /\ status (getOrEmpty j (fold_left (fun s i => updateImpact i v s) ids store))
     = status (getOrEmpty j store)
  /\ get j (fold_left (fun s i => updateImpact i v s) ids store) <> None.
Proof.
  apply (fold_fields (fun i => updateImpact i v) (fun _ => Some v) (fun x => x) (fun x => x));
    try done.
  intros k j' store'. destruct (updateImpact_fields k v j' store')
    as (H1 & H2 & H3 & H4).
  rewrite H1, H2, H3. by destruct (decide (k = j')).
Qed.

Lemma fold_updateMitigation ids v j store :
  In j ids ->
  impact (getOrEmpty j (fold_left (fun s i => updateMitigation i v s) ids store))
  = impact (getOrEmpty j store)
  /\ mitigation (getOrEmpty j
                   (fold_left (fun s i => updateMitigation i v s) ids store))
     = Some v
  /\ status (getOrEmpty j
               (fold_left (fun s i => updateMitigation i v s) ids store))
     = status (getOrEmpty j store)
  /\ get j (fold_left (fun s i => updateMitigation i v s) ids store) <> None.
Proof.
  apply (fold_fields (fun i => updateMitigation i v) (fun x => x) (fun _ => Some v) (fun x => x));
    try done.
  intros k j' store'. destruct (updateMitigation_fields k v j' store')
    as (H1 & H2 & H3 & H4).
  rewrite H1, H2, H3. by destruct (decide (k = j')).
Qed.

Lemma fold_updateStatus ids v j store :
  In j ids ->
  impact (getOrEmpty j (fold_left (fun s i => updateStatus i v s) ids store))
  = impact (getOrEmpty j store)
  /\ mitigation (getOrEmpty j
                   (fold_left (fun s i => updateStatus i v s) ids store))
     = mitigation (getOrEmpty j store)
  /\ status (getOrEmpty j (fold_left (fun s i => updateStatus i v s) ids store))
     = v
  /\ get j (fold_left (fun s i => updateStatus i v s) ids store) <> None.
Proof.
  apply (fold_fields (fun i => updateStatus i v) (fun x => x) (fun x => x) (fun _ => v));
    try done.
  intros k j' store'. destruct (updateStatus_fields k v j' store')
    as (H1 & H2 & H3 & H4).
  rewrite H1, H2, H3. by destruct (decide (k = j')).
Qed.

Lemma patchCalls_calls l : patchCalls l = patchCalls (calls l).
Proof.
  induction l as [|e l IH]; [done | ].
  destruct e; cbn [patchCalls calls flat_map List.filter isCall app];
    fold (patchCalls l); fold (calls l); fold (patchCalls (calls l));
    by rewrite IH.
Qed.

(** Property X17.  Editing a composite in the panel and submitting it: after
    the panel has received an impact and a mitigation that hold text and a
    status, the command, with the connection configured and every patch
    accepted, sends this impact, mitigation and status for each aggregated
    id, and leaves each of these ids with a record that is submitted, not
    modified, and whose fields and frozen fields are the values sent. *)
Theorem panel_edit_then_submit config server clock panel out ids
    (i m : string) (s : TriageStatus) store0 :
  _isAggregated out = Some true ->
  _aggregatedFindingIds out = Some ids ->
  In (id out) ids ->
  hasText i = true -> hasText m = true ->
  apiToken config <> EmptyString ->
  url config <> EmptyString ->
  Forall (fun j => server j (updateData (mkUpdateInput i m s)) = None) ids ->
  let edited :=
    onMessages (Some out)
      [UPDATE_IMPACT (Some i); UPDATE_MITIGATION (Some m);
       UPDATE_STATUS (Some s)] store0 in
  let run := submitTriage config server clock panel (Some out) edited in
  patchCalls (snd run) = map (fun j => (j, mkUpdateInput i m s)) ids
  /\ forall j, In j ids ->
       exists now,
         get j (fst run)
         = Some (mkTriageData (Some i) (Some m) (Some s)
                   (Some true) (Some now) (Some false)
                   (Some i) (Some m) (Some s)).
Proof.
  intros Hagg Hids Hown Hi Hm Htok Hurl Hok. cbv zeta.
  set (edited := onMessages _ _ store0).
  assert (Hedited : forall j, In j ids ->
            exists r, get j edited = Some r
                      /\ impact r = Some i /\ mitigation r = Some m
                      /\ status r = Some s).
  { intros j Hj. subst edited. unfold onMessages. cbn [fold_left onMessage].
    unfold fanOut. rewrite Hagg, Hids. cbn [Js.truthyBool].
    match goal with |- context [get j (fold_left _ ids ?st)] =>
      destruct (fold_updateStatus ids (Some s) j st Hj) as (S1 & S2 & S3 & S4);
      match st with fold_left _ ids ?st' =>
        destruct (fold_updateMitigation ids m j st' Hj) as (M1 & M2 & M3 & M4);
        match st' with fold_left _ ids ?st'' =>
          destruct (fold_updateImpact ids i j st'' Hj) as (I1 & I2 & I3 & I4)
        end
      end
    end.
    rewrite M1, I1 in S1. rewrite M2 in S2.
    unfold getOrEmpty in S1, S2, S3.
    destruct (get j (fold_left _ ids _)) as [r|]; [ | done].
    by exists r. }
  destruct (Hedited (id out) Hown) as (triage & Hget & Hti & Htm & Hts).
  assert (Hvalid : isValid (validateTriageData (Some triage)) = true).
  { unfold validateTriageData. rewrite Hti, Htm, Hts.
    rewrite !blankOrMissing_hasText, Hi, Hm. done. }
  destruct (submitTriage_run config server clock panel out edited triage
              Hget Hvalid Htok Hurl) as (i' & m' & s' & Hi' & Hm' & Hs' & Hrun).
  assert (i' = i) by congruence. assert (m' = m) by congruence.
  assert (s' = s) by congruence. subst i' m' s'.
  destruct (submitTriage_calls config server clock panel out edited triage
              Hget Hvalid Htok Hurl) as (i' & m' & s' & Hi2 & Hm2 & Hs2 & Hcalls).
  assert (i' = i) by congruence. assert (m' = m) by congruence.
  assert (s' = s) by congruence. subst i' m' s'.
  assert (Horig : originalFindingIds out = ids)
    by (unfold originalFindingIds; by rewrite Hids).
  split.
  - rewrite (patchCalls_calls (snd _)), Hcalls, Horig.
    rewrite (expectedCalls_all_ok server _ ids Hok).
    clear. induction ids as [|j ids IH]; [done | ]. cbn. by rewrite <- IH.
  - intros j Hj. destruct (Hedited j Hj) as (r & Hr & Hri & Hrm & Hrs).
    rewrite Hrun. cbv zeta. rewrite Horig.
    match goal with |- context [loop _ _ ?a ?d ?n _ ?st] =>
      destruct (loop_store server clock a d n ids [] st) as [H1 _];
        [done | done | ];
      rewrite app_nil_r in H1;
      destruct (loop server clock a d n ids st) as [st' [msg|]]
    end; cbn [fst] in *; rewrite H1; cbn [completed store];
      pose proof (markAll_in clock ids 0%nat edited j Hj) as Hmark;
      rewrite Hr in Hmark; destruct Hmark as (now & ->);
      exists now; unfold submittedCopy; by rewrite Hri, Hrm, Hrs.
Qed.

Lemma panel_edit_then_submit_witness :
  let edited :=
    onMessages (Some pomComposite)
      [UPDATE_IMPACT (Some "data loss"); UPDATE_MITIGATION (Some "upgrade");
       UPDATE_STATUS (Some Verified)] ∅ in
  let run :=
    submitTriage connection healthy clock None (Some pomComposite) edited in
  patchCalls (snd run) = map (fun j => (j, payload)) [1; 3]
  /\ forall j, In j [1; 3] ->
       exists now,
         get j (fst run)
         = Some (mkTriageData (Some "data loss") (Some "upgrade") (Some Verified)
                   (Some true) (Some now) (Some false)
                   (Some "data loss") (Some "upgrade") (Some Verified)).
Proof.
  apply (panel_edit_then_submit connection healthy clock None pomComposite
           [1; 3] "data loss" "upgrade" Verified ∅);
    try reflexivity; try discriminate.
  - left. reflexivity.
  - by repeat constructor.
Defined.

End PanelFacts.

(** * The selection of a finding *)

Section SelectionFacts.

Import TriageStore Selection.

Lemma firstText_firstText a b : firstText (firstText a b) b = firstText a b.
Proof.
  unfold firstText. destruct (Js.truthyStr a) eqn:Ha; [by rewrite Ha | ].
  destruct (Js.truthyStr b) eqn:Hb; [by rewrite Hb | done].
Qed.

Lemma firstText_text a b : Js.truthyStr a = true -> firstText a b = a.
Proof. unfold firstText. by intros ->. Qed.

Lemma firstText_not_empty a b : firstText a b <> Some EmptyString.
Proof.
  unfold firstText. destruct (Js.truthyStr a) eqn:Ha.
  - intros ->. discriminate Ha.
  - destruct (Js.truthyStr b) eqn:Hb; [ | done]. intros ->. discriminate Hb.
Qed.

(** Property X18.  Selecting a finding takes an impact and a mitigation from
    the finding only where the stored triage has none: a stored text is
    kept, the status, the flags and the frozen fields are kept, no other
    record is touched, and nothing is written when the finding brings
    neither text.  A field it writes is never the empty string, and
    selecting the finding a second time changes nothing more. *)
Theorem initializeTriageFromFinding_fills_gaps findingId
    (findingImpact findingMitigation : option string)
    (store : gmap Z TriageData) :
  let store' :=
    initializeTriageFromFinding findingId findingImpact findingMitigation
      store in
  initializeTriageFromFinding findingId findingImpact findingMitigation store'
  = store'
  /\ (forall j, j <> findingId -> get j store' = get j store)
  /\ (Js.truthyStr findingImpact = false ->
      Js.truthyStr findingMitigation = false -> store' = store)
  /\ (forall r, get findingId store' = Some r ->
        let old := getOrEmpty findingId store in
        (Js.truthyStr (impact old) = true -> impact r = impact old)
        /\ (Js.truthyStr (mitigation old) = true ->
            mitigation r = mitigation old)
        /\ (get findingId store' <> get findingId store ->
            impact r <> Some EmptyString
            /\ mitigation r <> Some EmptyString)
        /\ status r = status old
        /\ submitted r = submitted old
        /\ submittedAt r = submittedAt old
        /\ modified r = modified old
        /\ originalImpact r = originalImpact old
        /\ originalMitigation r = originalMitigation old
        /\ originalStatus r = originalStatus old).
Proof.
  cbv zeta. unfold initializeTriageFromFinding. cbv zeta.
  set (cond := Js.truthyStr (Some (Js.orStr findingImpact EmptyString))
               || Js.truthyStr (Some (Js.orStr findingMitigation EmptyString))).
  destruct cond eqn:Hcond; subst cond.
  - rewrite get_set_eq. cbn [impact mitigation status submitted submittedAt
                             modified originalImpact originalMitigation
                             originalStatus].
    rewrite !firstText_firstText.
    split; [unfold set; by rewrite insert_insert_eq | ].
    split; [intros j Hj; by apply get_set_ne | ].
    split.
    { intros Hi Hm. exfalso.
      destruct findingImpact as [[|? ?]|], findingMitigation as [[|? ?]|];
        done. }
    intros r [= <-]. fold (getOrEmpty findingId store).
    cbn [impact mitigation status submitted submittedAt modified
         originalImpact originalMitigation originalStatus].
    repeat split; auto using firstText_text, firstText_not_empty.
  - split; [done | ]. split; [done | ]. split; [done | ].
    intros r Hr. unfold getOrEmpty. rewrite Hr. repeat split; done.
Qed.

End SelectionFacts.

(** * Text utilities *)

Section TextFacts.

Import Text.

Lemma chars_app a b :
  list_ascii_of_string (a ++ b)
  = (list_ascii_of_string a ++ list_ascii_of_string b)%list.
Proof.
  induction a as [|c a IH]; [done | ].
  change (String c a ++ b) with (String c (a ++ b)). cbn. by rewrite IH.
Qed.

Lemma entity_cases c :
  (c = "&"%char /\ entity c = "&amp;")
  \/ (c = "<"%char /\ entity c = "&lt;")
  \/ (c = ">"%char /\ entity c = "&gt;")
  \/ (c = "034"%char /\ entity c = "&quot;")
  \/ (c = "'"%char /\ entity c = "&#039;")
  \/ (c <> "&"%char /\ isMarkup c = false /\ entity c = String c EmptyString).
Proof.
  unfold entity, isMarkup.
  destruct (Ascii.eqb_spec c "&"); [tauto | ].
  destruct (Ascii.eqb_spec c "<"); [tauto | ].
  destruct (Ascii.eqb_spec c ">"); [tauto | ].
  destruct (Ascii.eqb_spec c "034"); [tauto | ].
  destruct (Ascii.eqb_spec c "'"); [tauto | ].
  right. right. right. right. right. done.
Qed.

Lemma escapeHtml_cons c rest :
  escapeHtml (String c rest) = entity c ++ escapeHtml rest.
Proof. reflexivity. Qed.

(** Property X19.  [escapeHtml] leaves none of the characters less-than,
    greater-than, double quote and single quote in its result, changes
    nothing in a text that has none of them and no ampersand, and loses
    nothing: two texts with the same result are the same text. *)
Theorem escapeHtml_safe_and_injective :
  (forall text,
     forallb (fun c => negb (isMarkup c))
       (list_ascii_of_string (escapeHtml text)) = true)
  /\ (forall text,
        forallb (fun c => negb (isMarkup c) && negb (Ascii.eqb c "&"))
          (list_ascii_of_string text) = true ->
        escapeHtml text = text)
  /\ (forall a b, escapeHtml a = escapeHtml b -> a = b).
Proof.
  split; [ | split].
  - induction text as [|c text IH]; [done | ].
    rewrite escapeHtml_cons, chars_app, forallb_app, IH, andb_true_r.
    destruct (entity_cases c)
      as [[-> ->]|[[-> ->]|[[-> ->]|[[-> ->]|[[-> ->]|(_ & Hm & ->)]]]]];
      try reflexivity.
    cbn. by rewrite Hm.
  - induction text as [|c text IH]; [done | ]. cbn [list_ascii_of_string forallb].
    intros H. apply andb_true_iff in H as [Hc H].
    apply andb_true_iff in Hc as [Hm Ha].
    apply negb_true_iff in Hm, Ha.
    rewrite escapeHtml_cons, (IH H).
    destruct (entity_cases c)
      as [[-> _]|[[-> _]|[[-> _]|[[-> _]|[[-> _]|(_ & _ & ->)]]]]];
      try discriminate. reflexivity.
  - induction a as [|c a IH]; intros [|d b].
    + done.
    + rewrite escapeHtml_cons. cbn [escapeHtml].
      destruct (entity_cases d)
        as [[-> ->]|[[-> ->]|[[-> ->]|[[-> ->]|[[-> ->]|(_ & _ & ->)]]]]];
        discriminate.
    + rewrite escapeHtml_cons. cbn [escapeHtml].
      destruct (entity_cases c)
        as [[-> ->]|[[-> ->]|[[-> ->]|[[-> ->]|[[-> ->]|(_ & _ & ->)]]]]];
        discriminate.
    + rewrite !escapeHtml_cons.
      destruct (entity_cases c)
        as [[-> ->]|[[-> ->]|[[-> ->]|[[-> ->]|[[-> ->]|(Hc & _ & ->)]]]]];
      destruct (entity_cases d)
        as [[-> ->]|[[-> ->]|[[-> ->]|[[-> ->]|[[-> ->]|(Hd & _ & ->)]]]]];
        cbv [append]; intros E; try discriminate E;
        try (injection E as E; f_equal; by apply IH);
        try (injection E as E1 E; congruence).
      injection E as -> E. f_equal. by apply IH.
Qed.

Lemma length_app a b :
  String.length (a ++ b) = (String.length a + String.length b)%nat.
Proof.
  induction a as [|c a IH]; [done | ].
  change (String c a ++ b) with (String c (a ++ b)). cbn. by rewrite IH.
Qed.

Lemma length_prefix n s :
  (n <= String.length s)%nat -> String.length (substring 0 n s) = n.
Proof.
  revert s. induction n as [|n IH]; intros [|c s] H; cbn in *; try done;
    try lia.
  rewrite IH; lia.
Qed.

Lemma prefix_prefix n s t :
  (n <= String.length s)%nat ->
  substring 0 n (substring 0 n s ++ t) = substring 0 n s.
Proof.
  revert s. induction n as [|n IH]; intros [|c s] H; cbn in *; try lia.
  - by destruct t.
  - by destruct (_ ++ _).
  - change (String c (substring 0 n s) ++ t)
      with (String c (substring 0 n s ++ t)).
    cbn. rewrite IH; [done | lia].
Qed.

(** Property X20.  [truncateText] returns a text that fits as it is; a longer
    one is cut to [maxLength] characters (to none for a negative
    [maxLength]) and gets three dots, so the result has at most
    [maxLength] + 3 characters; for a [maxLength] that is not negative this
    is at most two more than the text had.
    Truncating the result again changes nothing. *)
Theorem truncateText_spec text maxLength :
  (Z.of_nat (String.length text) <= maxLength -> truncateText text maxLength = text)
  /\ (maxLength < Z.of_nat (String.length text) ->
      truncateText text maxLength
      = substring 0 (Z.to_nat maxLength) text ++ "..."
      /\ Z.of_nat (String.length (truncateText text maxLength))
         = Z.max maxLength 0 + 3)
  /\ Z.of_nat (String.length (truncateText text maxLength))
     <= Z.max (Z.max maxLength 0 + 3) (Z.of_nat (String.length text))
  /\ (0 <= maxLength ->
      Z.of_nat (String.length (truncateText text maxLength))
      <= Z.of_nat (String.length text) + 2)
  /\ truncateText (truncateText text maxLength) maxLength
     = truncateText text maxLength.
Proof.
  unfold truncateText.
  destruct (Z.leb_spec (Z.of_nat (String.length text)) maxLength) as [Hle|Hgt].
  - split; [done | ]. split; [intros ?; lia | ]. split; [lia | ].
    split; [lia | ].
    destruct (Z.leb_spec (Z.of_nat (String.length text)) maxLength); [done | lia].
  - assert (Hn : (Z.to_nat maxLength <= String.length text)%nat) by lia.
    assert (Hlen : String.length (substring 0 (Z.to_nat maxLength) text ++ "...")
                   = (Z.to_nat maxLength + 3)%nat).
    { rewrite length_app, (length_prefix _ _ Hn). done. }
    split; [intros ?; lia | ]. rewrite Hlen.
    split; [split; [done | lia] | ]. split; [lia | ]. split; [lia | ].
    destruct (Z.leb_spec (Z.of_nat (Z.to_nat maxLength + 3)) maxLength);
      [lia | ].
    by rewrite (prefix_prefix _ _ _ Hn).
Qed.

Lemma truncateText_spec_witness :
  truncateText "jackson-databind" 7 = "jackson..."
  /\ truncateText (truncateText "jackson-databind" 7) 7 = "jackson...".
Proof.
  destruct (truncateText_spec "jackson-databind" 7) as (_ & H & _ & _ & Hi).
  split.
  - apply H. reflexivity.
  - rewrite Hi. apply H. reflexivity.
Defined.

Lemma trimEnd_trimEnd s : Str.trimEnd (Str.trimEnd s) = Str.trimEnd s.
Proof.
  induction s as [|c s IH]; [done | ]. cbn [Str.trimEnd].
  destruct (Str.trimEnd s) as [|d rest] eqn:E.
  - destruct (Str.isSpace c) eqn:Hc; [done | ]. cbn. by rewrite Hc.
  - cbn [Str.trimEnd]. fold Str.trimEnd. 
    change (match Str.trimEnd (String d rest) with
            | EmptyString => if Str.isSpace c then EmptyString
                             else String c EmptyString
            | String a s0 => String c (String a s0)
            end = String c (String d rest)).
    by rewrite IH.
Qed.

Lemma trimEnd_head c s :
  Str.isSpace c = false ->
  exists rest, Str.trimEnd (String c s) = String c rest.
Proof.
  intros Hc. cbn [Str.trimEnd]. destruct (Str.trimEnd s); rewrite ?Hc; eauto.
Qed.

Lemma trimStart_head s :
  match Str.trimStart s with
  | String c _ => Str.isSpace c = false
  | EmptyString => True
  end.
Proof.
  induction s as [|c s IH]; [done | ]. cbn [Str.trimStart].
  destruct (Str.isSpace c) eqn:Hc; [done | ]. done.
Qed.

Lemma trim_trim s : Str.trim (Str.trim s) = Str.trim s.
Proof.
  unfold Str.trim. pose proof (trimStart_head s) as H.
  destruct (Str.trimStart s) as [|c y]; [done | ].
  destruct (trimEnd_head c y H) as (rest & E).
  rewrite E at 1. cbn [Str.trimStart]. rewrite H, <- E.
  apply trimEnd_trimEnd.
Qed.

Lemma slashes_space c :
  Str.isSpace (if Ascii.eqb c Regex.backslash then "/"%char else c)
  = Str.isSpace c.
Proof. by destruct (Ascii.eqb_spec c Regex.backslash) as [->|]. Qed.

Lemma slashes_trimStart s :
  Str.trimStart (slashes s) = slashes (Str.trimStart s).
Proof.
  induction s as [|c s IH]; [done | ]. cbn [slashes Str.trimStart].
  rewrite slashes_space. destruct (Str.isSpace c); [exact IH | done].
Qed.

Lemma slashes_trimEnd s : Str.trimEnd (slashes s) = slashes (Str.trimEnd s).
Proof.
  induction s as [|c s IH]; [done | ]. cbn [slashes Str.trimEnd].
  rewrite IH, slashes_space.
  destruct (Str.trimEnd s); cbn [slashes]; [ | done].
  by destruct (Str.isSpace c).
Qed.

Lemma slashes_slashes s : slashes (slashes s) = slashes s.
Proof.
  induction s as [|c s IH]; [done | ]. cbn [slashes]. rewrite IH. f_equal.
  destruct (Ascii.eqb c Regex.backslash) eqn:E; [done | by rewrite E].
Qed.

Lemma slashes_no_backslash s :
  forallb (fun c => negb (Ascii.eqb c Regex.backslash))
    (list_ascii_of_string (slashes s)) = true.
Proof.
  induction s as [|c s IH]; [done | ]. cbn. rewrite IH, andb_true_r.
  destruct (Ascii.eqb c Regex.backslash) eqn:E; [done | by rewrite E].
Qed.

Lemma trimEnd_last s :
  match Str.trimEnd s with
  | EmptyString => True
  | String c rest =>
      exists front last, String c rest = front ++ String last EmptyString
                         /\ Str.isSpace last = false
  end.
Proof.
  induction s as [|c s IH]; [done | ]. cbn [Str.trimEnd].
  destruct (Str.trimEnd s) as [|d rest].
  - destruct (Str.isSpace c) eqn:Hc; [done | ].
    by exists EmptyString, c.
  - destruct IH as (front & last & E & Hl).
    exists (String c front), last. split; [ | done].
    change (String c front ++ String last EmptyString)
      with (String c (front ++ String last EmptyString)). by rewrite E.
Qed.

(** Property X21.  [normalizeFilePath] gives a path with no backslash that
    neither starts nor ends with white space, and normalising a normalised
    path changes nothing. *)
Theorem normalizeFilePath_spec filePath :
  forallb (fun c => negb (Ascii.eqb c Regex.backslash))
    (list_ascii_of_string (normalizeFilePath filePath)) = true
  /\ match normalizeFilePath filePath with
     | EmptyString => True
     | String c rest =>
         Str.isSpace c = false
         /\ exists front last,
              String c rest = front ++ String last EmptyString
              /\ Str.isSpace last = false
     end
  /\ normalizeFilePath (normalizeFilePath filePath)
     = normalizeFilePath filePath.
Proof.
  unfold normalizeFilePath. split; [apply slashes_no_backslash | ].
  assert (Hidem : Str.trim (slashes (Str.trim filePath))
                  = slashes (Str.trim filePath)).
  { unfold Str.trim at 1. rewrite slashes_trimStart, slashes_trimEnd.
    fold (Str.trim (Str.trim filePath)). by rewrite trim_trim. }
  split; [ | by rewrite Hidem, slashes_slashes].
  rewrite <- Hidem. unfold Str.trim at 1.
  pose proof (trimStart_head (slashes (Str.trim filePath))) as Hh.
  pose proof (trimEnd_last (Str.trimStart (slashes (Str.trim filePath)))) as Hl.
  destruct (Str.trimStart (slashes (Str.trim filePath))) as [|c y]; [done | ].
  destruct (trimEnd_head c y Hh) as (rest & E). rewrite E in Hl |- *.
  split; done.
Qed.

End TextFacts.

(** * The search in the list of findings *)

Section SearchFacts.

Import Search SubmitOps Samples.

Lemma countsFinding_matches searchQuery f :
  blank searchQuery = false ->
  countsFinding searchQuery f = matchesFinding (queryOf searchQuery) f.
Proof.
  intros Hb. unfold countsFinding, matchesFinding. rewrite Hb. cbv zeta.
  repeat match goal with
         | |- context [if ?c then true else _] => destruct c; cbn [orb andb]
         end; try reflexivity.
Qed.

(** Property X22.  The number the search command announces is the number of
    findings the tree shows for the same query, and a query that is empty
    or all white space shows every finding. *)
Theorem search_count_is_shown_count searchQuery findings :
  filteredCount searchQuery findings
  = length (filterFindings searchQuery findings)
  /\ (blank searchQuery = true -> filterFindings searchQuery findings = findings).
Proof.
  unfold filteredCount, filterFindings.
  destruct (blank searchQuery) eqn:Hb.
  - split; [ | done]. f_equal.
    apply List.forallb_filter_id, forallb_forall. intros f _.
    unfold countsFinding. by rewrite Hb.
  - split; [ | done]. f_equal. apply List.filter_ext. intros f.
    by apply countsFinding_matches.
Qed.

Lemma stripPrefix_trimEnd y :
  exists r, Component.stripPrefix false (Str.trimEnd y) y = Some r.
Proof.
  induction y as [|c y IH]; [by exists EmptyString | ].
  cbn [Str.trimEnd]. destruct IH as (r & IH).
  destruct (Str.trimEnd y) as [|d rest].
  - destruct (Str.isSpace c); cbn; [eauto | ].
    rewrite Ascii.eqb_refl. eauto.
  - cbn [Component.stripPrefix]. rewrite Ascii.eqb_refl. eauto.
Qed.

Lemma includes_trim line : includes line (Str.trim line) = true.
Proof.
  unfold Str.trim. induction line as [|c line IH]; [done | ].
  cbn [Str.trimStart]. destruct (Str.isSpace c).
  - cbn [includes]. rewrite IH. by destruct (Component.stripPrefix _ _ _).
  - destruct (stripPrefix_trimEnd (String c line)) as (r & E).
    cbn [includes]. by rewrite E.
Qed.

Lemma toLowerCase_hasText text :
  hasText (Locator.toLowerCase text) = hasText text.
Proof.
  unfold hasText. induction text as [|c text IH]; [done | ].
  cbn [Locator.toLowerCase list_ascii_of_string existsb]. rewrite IH. f_equal.
  f_equal. revert c.
  assert (H : forallb (fun n => Bool.eqb
                          (Str.isSpace (Component.toLower (ascii_of_nat n)))
                          (Str.isSpace (ascii_of_nat n)))
                (seq 0 256) = true) by (vm_compute; reflexivity).
  intros c. rewrite forallb_forall in H.
  specialize (H (nat_of_ascii c)). rewrite ascii_nat_embedding in H.
  apply Bool.eqb_prop, H, in_seq. pose proof (nat_ascii_bounded c). lia.
Qed.

Lemma hasText_not_blank text : hasText text = true -> blank text = false.
Proof.
  intros H. unfold blank, Str.trim.
  rewrite trimEnd_isEmpty, trimStart_hasText, H.
  by destruct text.
Qed.

(** Property X23.  A finding is found by its own texts: for a title, a
    description, a file path or a URL of the finding that holds a
    character other than white space, the search for this text as it
    stands, capitals and white space around it included, shows the
    finding. *)
Theorem search_finds_by_text (f : Finding) findings text :
  In f findings ->
  hasText text = true ->
  text = title f \/ text = description f \/ text = file_path f
  \/ text = url f ->
  In f (filterFindings text findings).
Proof.
  intros Hin Htext Hfield. unfold filterFindings.
  rewrite (hasText_not_blank _ Htext).
  apply List.filter_In. split; [done | ].
  assert (Hne : Js.truthyStr (Some text) = true) by (by destruct text).
  pose proof (includes_trim (Locator.toLowerCase text)) as Hinc.
  fold (queryOf text) in Hinc.
  unfold matchesFinding.
  destruct Hfield as [<- | [<- | [<- | <-]]]; rewrite Hne, Hinc; cbn [andb];
    repeat match goal with
           | |- context [if ?c then true else _] => destruct c
           end; reflexivity.
Qed.

Lemma search_finds_by_text_witness :
  In pomJackson (filterFindings "jackson-databind 2.9.8 is affected" Samples.findings).
Proof.
  apply (search_finds_by_text pomJackson Samples.findings
           "jackson-databind 2.9.8 is affected").
  - right. right. left. reflexivity.
  - reflexivity.
  - left. reflexivity.
Defined.

End SearchFacts.

(** * More of the dependency search *)

Section LocatorMore.

Import Locator LocatorOps Samples.

Variable componentName : string.
Variable componentVersion : option string.

Lemma fold_left_invariant_in {A B} (P : A -> Prop) (f : A -> B -> A) l a :
  (forall a b, In b l -> P a -> P (f a b)) -> P a -> P (fold_left f l a).
Proof.
  revert a. induction l as [|b l IH]; intros a Hf Ha; cbn; [done | ].
  apply IH.
  - intros a' b' Hb'. apply Hf. by right.
  - apply Hf; [by left | done].
Qed.

Lemma located_reports fp rel lines i :
  (i < length lines)%nat ->
  filePath (located fp rel i (lineAt lines i)) = fp
  /\ relativePath (located fp rel i (lineAt lines i)) = rel
  /\ reportsLine lines i (located fp rel i (lineAt lines i)).
Proof. intros Hi. repeat split; done. Qed.

Lemma flushBlock_reports fp rel lines pl :
  Forall (fun i => (i < length lines)%nat) pl ->
  Forall (fun r => filePath r = fp /\ relativePath r = rel
                   /\ exists i, reportsLine lines i r)
    (flushBlock componentVersion fp rel lines pl).
Proof.
  intros Hpl. unfold flushBlock. apply List.Forall_forall. intros r Hr.
  apply in_flat_map in Hr as (i & Hi & Hr).
  rewrite List.Forall_forall in Hpl. specialize (Hpl i Hi).
  destruct (_ || _); [ | destruct Hr]. destruct Hr as [<-|[]].
  destruct (located_reports fp rel lines i Hpl) as (H1 & H2 & H3). eauto.
Qed.

Lemma yarnStep_reports fp rel lines st i :
  (i < length lines)%nat ->
  Forall (fun j => (j < length lines)%nat) (packageLines st)
  /\ Forall (fun r => filePath r = fp /\ relativePath r = rel
                      /\ exists j, reportsLine lines j r) (results st) ->
  Forall (fun j => (j < length lines)%nat)
    (packageLines (yarnStep componentName componentVersion fp rel lines st i))
  /\ Forall (fun r => filePath r = fp /\ relativePath r = rel
                      /\ exists j, reportsLine lines j r)
       (results (yarnStep componentName componentVersion fp rel lines st i)).
Proof.
  intros Hi [Hpl Hres]. unfold yarnStep. cbv zeta.
  destruct (Regex.test _ _); cbn [results inPackageBlock packageLines];
    repeat (destruct (_ && _) || destruct (inPackageBlock _));
    cbn [results packageLines]; split;
    repeat first [ done | apply flushBlock_reports | apply Forall_app; split
                 | apply Forall_cons; split | apply Forall_nil ].
Qed.

Lemma tomlStep_reports fp rel lines st i :
  (i < length lines)%nat ->
  Forall (fun j => (j < length lines)%nat) (packageLines st)
  /\ Forall (fun r => filePath r = fp /\ relativePath r = rel
                      /\ exists j, reportsLine lines j r) (results st) ->
  Forall (fun j => (j < length lines)%nat)
    (packageLines (tomlStep componentName componentVersion fp rel lines st i))
  /\ Forall (fun r => filePath r = fp /\ relativePath r = rel
                      /\ exists j, reportsLine lines j r)
       (results (tomlStep componentName componentVersion fp rel lines st i)).
Proof.
  intros Hi [Hpl Hres]. unfold tomlStep. cbv zeta.
  destruct (_ || _); cbn [results inPackageBlock packageLines];
    repeat (destruct (_ && _) || destruct (Regex.test _ _)
            || destruct (inPackageBlock _));
    cbn [results packageLines]; split;
    repeat first [ done | apply flushBlock_reports | apply Forall_app; split
                 | apply Forall_cons; split | apply Forall_nil ].
Qed.

Lemma blockScan_reports fp rel lines yarn :
  Forall (fun r => filePath r = fp /\ relativePath r = rel
                   /\ exists j, reportsLine lines j r)
    (blockScan componentName componentVersion fp rel lines yarn).
Proof.
  unfold blockScan. cbv zeta.
  set (st := fold_left _ _ _).
  assert (Hst : Forall (fun j => (j < length lines)%nat) (packageLines st)
                /\ Forall (fun r => filePath r = fp /\ relativePath r = rel
                                    /\ exists j, reportsLine lines j r)
                     (results st)).
  { unfold st. apply fold_left_invariant_in; [ | by split].
    intros a b Hb Ha. apply in_seq in Hb.
    destruct yarn; [apply yarnStep_reports | apply tomlStep_reports];
      (lia || done). }
  destruct Hst as [Hpl Hres].
  destruct (_ && _); [ | done].
  apply Forall_app. split; [done | by apply flushBlock_reports].
Qed.

Lemma filter_seq_sorted (p : nat -> bool) len : forall start,
  StronglySorted lt (List.filter p (seq start len)).
Proof.
  induction len as [|len IH]; intros start; cbn [seq List.filter];
    [constructor | ].
  destruct (p start); [ | apply IH].
  constructor; [apply IH | ].
  apply List.Forall_forall. intros j Hj.
  apply List.filter_In in Hj as [Hj _]. apply in_seq in Hj. lia.
Qed.

Lemma lineScan_reports fp rel lines :
  Forall2 (reportsLine lines)
    (List.filter (fun i => lineFound componentName componentVersion fp
                             (lineAt lines i))
       (seq 0 (length lines)))
    (lineScan componentName componentVersion fp rel lines)
  /\ Forall (fun r => filePath r = fp /\ relativePath r = rel)
       (lineScan componentName componentVersion fp rel lines).
Proof.
  unfold lineScan.
  assert (H : forall l, Forall (fun i => (i < length lines)%nat) l ->
            Forall2 (reportsLine lines)
              (List.filter (fun i => lineFound componentName componentVersion
                                       fp (lineAt lines i)) l)
              (flat_map (fun i => let line := lineAt lines i in
                                  if lineFound componentName componentVersion
                                       fp line
                                  then [located fp rel i line] else []) l)
            /\ Forall (fun r => filePath r = fp /\ relativePath r = rel)
                 (flat_map (fun i => let line := lineAt lines i in
                                     if lineFound componentName
                                          componentVersion fp line
                                     then [located fp rel i line] else []) l)).
  { induction 1 as [|i l Hi _ [IH1 IH2]]; cbn [List.filter flat_map];
      [by split | ].
    cbv zeta. destruct (lineFound _ _ _ _); cbn [app]; [ | by split].
    split; constructor; done. }
  apply H. apply List.Forall_forall. intros i Hi. apply in_seq in Hi. lia.
Qed.

Lemma lineScan_forall fp rel lines :
  Forall (fun r => filePath r = fp /\ relativePath r = rel
                   /\ exists i, reportsLine lines i r)
    (lineScan componentName componentVersion fp rel lines).
Proof.
  unfold lineScan. apply List.Forall_forall. intros r Hr.
  apply in_flat_map in Hr as (i & Hi & Hr). apply in_seq in Hi.
  cbv zeta in Hr. destruct (lineFound _ _ _ _); [ | destruct Hr].
  destruct Hr as [<-|[]].
  destruct (located_reports fp rel lines i) as (H1 & H2 & H3); [lia | eauto].
Qed.

Lemma searchInFile_forall fp rel contents :
  Forall (fun r => filePath r = fp /\ relativePath r = rel
                   /\ exists n, lineNumber r = Some n /\ (1 <= n)%nat
                                /\ match contents with
                                   | Some text =>
                                       reportsLine (splitLines text) (n - 1) r
                                   | None => False
                                   end)
    (searchInFile componentName componentVersion fp rel contents).
Proof.
  unfold searchInFile. destruct contents as [text|]; [ | constructor].
  assert (H : Forall (fun r => filePath r = fp /\ relativePath r = rel
                               /\ exists i, reportsLine (splitLines text) i r)
                (scanLines componentName componentVersion fp rel
                   (splitLines text))).
  { unfold scanLines.
    destruct (_ && _); [apply blockScan_reports | apply lineScan_forall]. }
  eapply Forall_impl; [exact H | ].
  intros r (H1 & H2 & i & Hi). repeat split; try done.
  exists (i + 1)%nat. destruct Hi as (Hlt & Hn & Hc).
  replace (i + 1 - 1)%nat with i by lia.
  repeat split; (done || lia).
Qed.

(** Property X24.  What [searchInFile] reports for a file are lines of this
    file: each location carries the path and the relative path of the file,
    a line number counted from 1 that is not beyond the last line, and as
    content that line without the white space around it.  For a file that
    is not one of the three lock files scanned by blocks, a line is
    reported at most once and the lines come in the order of the file; a
    file that cannot be read gives nothing. *)
Theorem searchInFile_reports_lines fp rel text :
  Forall (fun r => filePath r = fp /\ relativePath r = rel
                   /\ exists i, reportsLine (splitLines text) i r)
    (searchInFile componentName componentVersion fp rel (Some text))
  /\ (blockScanned fp = false ->
      exists indices,
        StronglySorted lt indices
        /\ Forall2 (reportsLine (splitLines text)) indices
             (searchInFile componentName componentVersion fp rel (Some text)))
  /\ searchInFile componentName componentVersion fp rel None = [].
Proof.
  destruct (lineScan_reports fp rel (splitLines text)) as [H1 H2].
  split; [ | split; [ | done]].
  - eapply Forall_impl; [apply (searchInFile_forall fp rel (Some text)) | ].
    intros r (Hf & Hr & n & Hn & Hge & Hline). eauto.
  - unfold searchInFile, scanLines, blockScanned.
    intros ->. eexists. split; [apply filter_seq_sorted | exact H1].
Qed.

Variable maxDepth : Z.

(** What [searchEntry] reports for an entry found under the directories
    [names] of a workspace folder [base]: the paths at the entry are the
    names joined, and the names are kept by the walk. *)
Lemma searchEntry_shape base e :
  forall names dirPath rel depth r,
    wellNamed e = true ->
    Forall (fun n => goodName n = true) names ->
    Forall (fun n => skipped n = false) names ->
    rel = Str.join "/" names ->
    dirPath = match names with
              | [] => base
              | _ => (if String.eqb base EmptyString then EmptyString
                      else if String.eqb base "/" then "/" else base ++ "/")
                     ++ Str.join "/" names
              end ->
    In r (searchEntry componentName componentVersion maxDepth dirPath rel
            depth e) ->
    exists dirs file,
      relativePath r = Str.join "/" (dirs ++ [file])
      /\ filePath r
         = (if String.eqb base EmptyString then EmptyString
            else if String.eqb base "/" then "/" else base ++ "/")
           ++ relativePath r
      /\ Forall (fun n => goodName n = true) (dirs ++ [file])
      /\ Forall (fun n => skipped n = false) (dirs ++ [file])
      /\ isDependencyFile file = true
      /\ exists n, lineNumber r = Some n /\ (1 <= n)%nat.
Proof.
  induction e as [n contents|n|n entries IH|n] using Entry_nested_ind;
    intros names dirPath rel depth r Hwf Hgoods Hskips -> -> Hin;
    cbn in Hin, Hwf;
    destruct (skipped n) eqn:Hskip; try (by destruct Hin).
  - destruct (isDependencyFile n) eqn:Hdep; [ | by destruct Hin].
    apply andb_true_iff in Hwf as [Hgood _].
    destruct (pathJoin_names base names n Hgoods Hgood) as [Hrel Hdir].
    rewrite Hrel, Hdir in Hin.
    pose proof (searchInFile_forall
                  ((if String.eqb base EmptyString then EmptyString
                    else if String.eqb base "/" then "/" else base ++ "/")
                   ++ Str.join "/" (names ++ [n]))
                  (Str.join "/" (names ++ [n])) contents) as Hall.
    rewrite List.Forall_forall in Hall.
    destruct (Hall r Hin) as (Hf & Hr & k & Hk & Hge & _).
    exists names, n. rewrite Hr, Hf.
    repeat split; try done.
    + apply Forall_app. split; [done | by repeat constructor].
    + apply Forall_app. split; [done | by repeat constructor].
    + by exists k.
  - destruct (Z.of_nat (depth + 1) >? maxDepth); by destruct Hin.
  - apply andb_true_iff in Hwf as [Hgood Hall].
    destruct (Z.of_nat (depth + 1) >? maxDepth); [by destruct Hin | ].
    apply in_flat_map in Hin as (e & He & Hin).
    rewrite List.Forall_forall in IH.
    destruct (pathJoin_names base names n Hgoods Hgood) as [Hrel Hdir].
    rewrite Hrel, Hdir in Hin.
    apply (IH e He (names ++ [n])%list _ _ _ _) in Hin; try done.
    + rewrite forallb_forall in Hall. by apply Hall.
    + apply Forall_app. split; [done | by repeat constructor].
    + apply Forall_app. split; [done | by repeat constructor].
    + by destruct names.
Qed.

End LocatorMore.

Section LocatorProject.

Import Locator LocatorOps Samples.

(** Property X25.  A location the search reports names a recognised
    dependency file that is reached from a workspace folder through
    directories none of which is hidden, [node_modules] or [vendor].  For
    folders whose paths are normalized: the relative path of the location
    is a list of names joined with separators, each a name of a directory
    entry; the path of the location is the path of the folder, a separator
    unless the folder is the root or the empty path, and the relative
    path; none of the names starts with a dot or is [node_modules] or
    [vendor]; the last name is one of the thirteen manifest and lock file
    names or ends with [.lock]; and the line number is at least 1. *)
Theorem found_locations_shape (componentName : string)
    (componentVersion : option string) (maxDepth : option Z) folders r :
  forallb wellNamedFolder folders = true ->
  forallb (fun folder => normalizedDir (fsPath folder)) folders = true ->
  In r (findDependencyInProject componentName folders componentVersion
          maxDepth) ->
  exists folder dirs file,
    In folder folders
    /\ relativePath r = Str.join "/" (dirs ++ [file])
    /\ filePath r
       = (if String.eqb (fsPath folder) EmptyString then EmptyString
          else if String.eqb (fsPath folder) "/" then "/"
          else fsPath folder ++ "/")
         ++ relativePath r
    /\ Forall (fun n => n <> EmptyString
                        /\ ~ In "/"%char (list_ascii_of_string n)
                        /\ (forall rest, n <> String "." rest)
                        /\ n <> "node_modules" /\ n <> "vendor")
         (dirs ++ [file])
    /\ (In file ["package.json"; "package-lock.json"; "yarn.lock";
                 "requirements.txt"; "poetry.lock"; "pyproject.toml";
                 "uv.lock"; "pom.xml"; "build.gradle"; "Cargo.toml";
                 "Cargo.lock"; "go.mod"; "go.sum"]
        \/ exists stem, file = stem ++ ".lock")
    /\ exists n, lineNumber r = Some n /\ (1 <= n)%nat.
Proof.
  intros Hwf _ Hin. unfold findDependencyInProject in Hin.
  apply in_flat_map in Hin as (folder & Hf & Hin).
  rewrite forallb_forall in Hwf. specialize (Hwf folder Hf).
  destruct folder as [base [entries|]];
    unfold searchInDirectory in Hin; cbn [fsPath root] in Hin |- *;
    destruct (Z.of_nat 0 >? depthLimit maxDepth); try (by destruct Hin).
  apply in_flat_map in Hin as (e & He & Hin).
  apply (searchEntry_shape componentName componentVersion (depthLimit maxDepth)
           base e [] base EmptyString 0%nat r) in Hin; try done.
  - destruct Hin as (dirs & file & Hrel & Hfile & Hgood & Hskip & Hdep & Hline).
    exists (mkWorkspaceFolder base (Some entries)), dirs, file.
    cbn [fsPath]. repeat split; try done.
    + apply List.Forall_forall. intros n Hn.
      pose proof (proj1 (List.Forall_forall _ _) Hgood n Hn) as Hg.
      pose proof (proj1 (List.Forall_forall _ _) Hskip n Hn) as Hs.
      apply skipped_spec in Hs. apply goodName_spec in Hg. tauto.
    + by apply isDependencyFile_spec.
  - unfold wellNamedFolder in Hwf. cbn [root] in Hwf.
    rewrite forallb_forall in Hwf. by apply Hwf.
Qed.

Lemma found_locations_shape_witness :
  let folders :=
    [mkWorkspaceFolder "/w"
       (Some [Dir "app" (Some [File "package.json" (Some packageJson)])])] in
  let r :=
    mkDependencyLocation "/w/app/package.json" "app/package.json" (Some 3%nat)
      (Some (dq ++ "left-pad" ++ dq ++ ": " ++ dq ++ "1.3.0" ++ dq)) in
  exists folder dirs file,
    In folder folders
    /\ relativePath r = Str.join "/" (dirs ++ [file])
    /\ filePath r
       = (if String.eqb (fsPath folder) EmptyString then EmptyString
          else if String.eqb (fsPath folder) "/" then "/"
          else fsPath folder ++ "/")
         ++ relativePath r
    /\ Forall (fun n => n <> EmptyString
                        /\ ~ In "/"%char (list_ascii_of_string n)
                        /\ (forall rest, n <> String "." rest)
                        /\ n <> "node_modules" /\ n <> "vendor")
         (dirs ++ [file])
    /\ (In file ["package.json"; "package-lock.json"; "yarn.lock";
                 "requirements.txt"; "poetry.lock"; "pyproject.toml";
                 "uv.lock"; "pom.xml"; "build.gradle"; "Cargo.toml";
                 "Cargo.lock"; "go.mod"; "go.sum"]
        \/ exists stem, file = stem ++ ".lock")
    /\ exists n, lineNumber r = Some n /\ (1 <= n)%nat.
Proof.
  apply (found_locations_shape "left-pad" None None
           [mkWorkspaceFolder "/w"
              (Some [Dir "app" (Some [File "package.json" (Some packageJson)])])]).
  - reflexivity.
  - reflexivity.
  - vm_compute. left. reflexivity.
Defined.

End LocatorProject.

(** * The patterns of the dependency search *)

Section PatternFacts.

Import Component Regex Locator LocatorOps PatternOps Samples.

(** A match with a continuation is a match with any weaker one. *)
Lemma matchRe_mono ci r :
  forall prev s (k k' : option ascii -> string -> bool),
    (forall p l, k p l = true -> k' p l = true) ->
    matchRe ci r prev s k = true -> matchRe ci r prev s k' = true.
Proof.
  induction r as [|c| |neg items|r1 IH1 r2 IH2|r1 IH1 r2 IH2|r IH| |];
    intros prev s k k' Hk; cbn [matchRe].
  - apply Hk.
  - destruct s as [|d s]; [done | ]. destruct (eqChar ci c d); [apply Hk | done].
  - destruct s as [|d s]; [done | ].
    destruct (isLineTerminator d); [done | apply Hk].
  - destruct s as [|d s]; [done | ].
    destruct (xorb _ _); [apply Hk | done].
  - apply IH1. intros p l. by apply IH2.
  - rewrite !orb_true_iff. intros [H|H]; [left; by eapply IH1 | right; by eapply IH2].
  - generalize (String.length s) as fuel. intros fuel. revert prev s.
    induction fuel as [|fuel IHf]; intros prev s; [apply Hk | ].
    rewrite !orb_true_iff. intros [H|H]; [left | right; by apply Hk].
    eapply IH; [ | exact H]. intros p l. cbv beta.
    destruct (_ <? _)%nat; [apply IHf | done].
  - destruct (xorb _ _); [apply Hk | done].
  - destruct prev; [done | apply Hk].
Qed.

(** The continuation of a match is called on what is left of the
    string. *)
Lemma matchRe_rest ci r :
  forall prev s (k : option ascii -> string -> bool),
    matchRe ci r prev s k = true ->
    exists p pre l, s = pre ++ l /\ k p l = true.
Proof.
  induction r as [|c| |neg items|r1 IH1 r2 IH2|r1 IH1 r2 IH2|r IH| |];
    intros prev s k; cbn [matchRe].
  - intros H. by exists prev, EmptyString, s.
  - destruct s as [|d s]; [done | ]. destruct (eqChar ci c d); [ | done].
    intros H. by exists (Some d), (String d EmptyString), s.
  - destruct s as [|d s]; [done | ]. destruct (isLineTerminator d); [done | ].
    intros H. by exists (Some d), (String d EmptyString), s.
  - destruct s as [|d s]; [done | ]. destruct (xorb _ _); [ | done].
    intros H. by exists (Some d), (String d EmptyString), s.
  - intros H. apply IH1 in H as (p & pre & l & -> & H).
    apply IH2 in H as (p2 & pre2 & l2 & -> & H).
    exists p2, (pre ++ pre2), l2. split; [ | done].
    clear. induction pre as [|c pre IH]; [done | ].
    change (String c (pre ++ pre2 ++ l2) = String c ((pre ++ pre2) ++ l2)).
    by rewrite IH.
  - rewrite orb_true_iff. intros [H|H]; [by apply IH1 in H | by apply IH2 in H].
  - generalize (String.length s) as fuel. intros fuel. revert prev s.
    induction fuel as [|fuel IHf]; intros prev s.
    + intros H. by exists prev, EmptyString, s.
    + rewrite orb_true_iff. intros [H|H]; [ | by exists prev, EmptyString, s].
      apply IH in H as (p & pre & l & -> & H). cbv beta in H.
      destruct (_ <? _)%nat; [ | done].
      apply IHf in H as (p2 & pre2 & l2 & -> & H).
      exists p2, (pre ++ pre2), l2. split; [ | done].
      clear. induction pre as [|c pre IH]; [done | ].
      change (String c (pre ++ pre2 ++ l2) = String c ((pre ++ pre2) ++ l2)).
      by rewrite IH.
  - destruct (xorb _ _); [ | done]. intros H. by exists prev, EmptyString, s.
  - destruct prev; [done | ]. intros H. by exists None, EmptyString, s.
Qed.

Lemma includesCI_rest text pre l :
  includesCI text l = true -> includesCI text (pre ++ l) = true.
Proof.
  intros H. induction pre as [|c pre IH]; [done | ].
  change (String c pre ++ l) with (String c (pre ++ l)).
  cbn [includesCI]. rewrite IH. by destruct (stripPrefix true text _).
Qed.

Lemma includesCI_here text l :
  stripPrefix true text l <> None -> includesCI text l = true.
Proof.
  intros H. destruct l; cbn [includesCI];
    by destruct (stripPrefix true text _).
Qed.

Lemma searchFrom_sound ci r : forall whole prev,
  searchFrom ci r prev whole = true ->
  exists prev' pre l,
    whole = pre ++ l /\ matchRe ci r prev' l (fun _ _ => true) = true.
Proof.
  induction whole as [|c whole IH]; intros prev; cbn [searchFrom];
    rewrite orb_true_iff; intros [H|H]; try done.
  - by exists prev, EmptyString, EmptyString.
  - by exists prev, EmptyString, (String c whole).
  - apply IH in H as (prev' & pre & l & -> & H).
    by exists prev', (String c pre), l.
Qed.

Lemma seq_of_flush ci st prev line k :
  matchRe ci (flush st) prev line k = true ->
  matchRe ci (sequence st) prev line (fun _ _ => true) = true.
Proof.
  unfold flush. destruct (pending st); cbn [matchRe];
    apply matchRe_mono; done.
Qed.

Lemma seq_topChar ci c st prev line :
  Ascii.eqb c "|" = false ->
  matchRe ci (sequence (topChar c st)) prev line (fun _ _ => true) = true ->
  matchRe ci (sequence st) prev line (fun _ _ => true) = true.
Proof.
  intros Hc. unfold topChar, quantify. rewrite Hc.
  repeat match goal with
         | |- context [if ?b then _ else _] => destruct b
         end;
    destruct (pending st); cbn [sequence pushAtom]; try done;
    apply seq_of_flush.
Qed.

Lemma alternatives_topChar c st :
  Ascii.eqb c "|" = false -> alternatives (topChar c st) = alternatives st.
Proof.
  intros Hc. unfold topChar, quantify. rewrite Hc.
  repeat match goal with
         | |- context [if ?b then _ else _] => destruct b
         end;
    by destruct (pending st).
Qed.

Lemma noBar_cons c rest :
  noBar (String c rest) = true ->
  Ascii.eqb c "|" = false /\ noBar rest = true.
Proof.
  unfold noBar. cbn [list_ascii_of_string forallb].
  rewrite andb_true_iff, negb_true_iff. tauto.
Qed.

(** Without a bar, what is read after a state only adds to its
    sequence. *)
Lemma parseFrom_sequence ci post :
  forall mode st prev line k,
    noBar post = true ->
    matchRe ci (flush (parseFrom ci mode st post)) prev line k = true ->
    matchRe ci (sequence st) prev line (fun _ _ => true) = true.
Proof.
  induction post as [|c post IH]; intros mode st prev line k Hbar H.
  - by apply seq_of_flush in H.
  - apply noBar_cons in Hbar as [Hc Hbar].
    destruct mode; cbn [parseFrom] in H;
      repeat match type of H with
             | context [if ?b then _ else _] => destruct b
             end;
      apply (IH _ _ _ _ _ Hbar) in H; try done;
      try (cbn [sequence pushAtom] in H; by apply seq_of_flush in H).
    by apply seq_topChar in H.
Qed.

Lemma parseFrom_alternatives ci post :
  forall mode st,
    noBar post = true ->
    alternatives (parseFrom ci mode st post) = alternatives st.
Proof.
  induction post as [|c post IH]; intros mode st Hbar; [done | ].
  apply noBar_cons in Hbar as [Hc Hbar].
  destruct mode; cbn [parseFrom];
    repeat match goal with
           | |- context [if ?b then _ else _] => destruct b
           end;
    rewrite (IH _ _ Hbar); try done.
  by apply alternatives_topChar.
Qed.

(** Without a bar and without a quantifier at its start, what is read
    after a state leaves the pattern of the state as the start of the
    whole pattern. *)
Lemma parseFrom_flush ci post :
  forall mode st prev line k,
    noBar post = true ->
    (mode = Top -> startsAtom post = true) ->
    matchRe ci (flush (parseFrom ci mode st post)) prev line k = true ->
    matchRe ci (flush st) prev line (fun _ _ => true) = true.
Proof.
  induction post as [|c post IH]; intros mode st prev line k Hbar Hstart H.
  - cbn [parseFrom] in H. eapply matchRe_mono; [ | exact H]. done.
  - apply noBar_cons in Hbar as [Hc Hbar].
    destruct mode; cbn [parseFrom] in H.
    + specialize (Hstart eq_refl). cbn [startsAtom] in Hstart.
      apply negb_true_iff in Hstart.
      apply orb_false_iff in Hstart as [Hstart Hq].
      apply orb_false_iff in Hstart as [Hstar Hplus].
      destruct (Ascii.eqb c backslash);
        [by apply (IH Escaped st _ _ _ Hbar) in H | ].
      destruct (Ascii.eqb c "[");
        [by apply (IH ClassStart st _ _ _ Hbar) in H | ].
      apply (parseFrom_sequence _ _ _ _ _ _ _ Hbar) in H.
      unfold topChar in H. rewrite Hstar, Hplus, Hq, Hc in H.
      by repeat match type of H with
                | context [if ?b then _ else _] => destruct b
                end.
    + by apply (parseFrom_sequence _ _ _ _ _ _ _ Hbar) in H.
    + repeat match type of H with
             | context [if ?b then _ else _] => destruct b
             end;
        first [ by apply (IH _ st _ _ _ Hbar) in H
              | by apply (parseFrom_sequence _ _ _ _ _ _ _ Hbar) in H ].
    + repeat match type of H with
             | context [if ?b then _ else _] => destruct b
             end;
        first [ by apply (IH _ st _ _ _ Hbar) in H
              | by apply (parseFrom_sequence _ _ _ _ _ _ _ Hbar) in H ].
    + by apply (IH _ st _ _ _ Hbar) in H.
Qed.

Lemma parseFrom_escapeRegExp_app ci st text post :
  parseFrom ci Top st (escapeRegExp text ++ post)
  = parseFrom ci Top (feed st text) post.
Proof.
  revert st. induction text as [|c text IH]; intros st; [done | ].
  cbn [escapeRegExp feed]. destruct (isMeta c) eqn:Hmeta.
  - change (String backslash (String c (escapeRegExp text)) ++ post)
      with (String backslash (String c (escapeRegExp text ++ post))).
    cbn [parseFrom]. rewrite Ascii.eqb_refl. cbn [parseFrom].
    by rewrite IH, escapeAtom_meta.
  - change (String c (escapeRegExp text) ++ post)
      with (String c (escapeRegExp text ++ post)).
    cbn [parseFrom].
    assert (Ascii.eqb c backslash = false /\ Ascii.eqb c "[" = false) as [-> ->].
    { revert Hmeta. unfold isMeta. cbn [existsb]. rewrite !orb_false_iff. tauto. }
    by rewrite IH, topChar_plain.
Qed.

(** A pattern made of a complete pattern, an escaped text and a rest
    without a bar matches only lines that hold the text. *)
Lemma pattern_holds_text pre text post line :
  (forall rest, exists st,
     parseFrom true Top (mkParseState [] Eps NoAtom) (pre ++ rest)
     = parseFrom true Top st rest
     /\ alternatives st = []) ->
  noBar post = true -> startsAtom post = true ->
  test (pre ++ escapeRegExp text ++ post) line = true ->
  includesCI text line = true.
Proof.
  intros Hpre Hbar Hstart. unfold test, parse.
  destruct (Hpre (escapeRegExp text ++ post)) as (st & -> & Halt).
  rewrite parseFrom_escapeRegExp_app.
  rewrite (parseFrom_alternatives _ _ _ _ Hbar), alternatives_feed, Halt.
  cbn [fold_right]. intros H.
  apply searchFrom_sound in H as (prev & before & l & -> & H).
  apply (parseFrom_flush _ _ _ _ _ _ _ Hbar (fun _ => Hstart)) in H.
  rewrite matchRe_feed in H.
  apply matchRe_rest in H as (p & pre2 & l2 & -> & H).
  rewrite matchText_prefix in H.
  apply includesCI_rest, includesCI_rest, includesCI_here.
  by destruct (stripPrefix true text l2).
Qed.

Ltac complete_pattern st :=
  exists st; split;
  [ cbv [Q dq append]; cbn [parseFrom Ascii.eqb Bool.eqb backslash];
    reflexivity
  | vm_compute; reflexivity ].

Lemma complete_empty rest :
  exists st,
    parseFrom true Top (mkParseState [] Eps NoAtom) (EmptyString ++ rest)
    = parseFrom true Top st rest
    /\ alternatives st = [].
Proof. complete_pattern (mkParseState [] Eps NoAtom). Qed.

Lemma complete_Q rest :
  exists st,
    parseFrom true Top (mkParseState [] Eps NoAtom) (Q ++ rest)
    = parseFrom true Top st rest
    /\ alternatives st = [].
Proof.
  complete_pattern
    (pushAtom (Cls false [eqChar true "034"; eqChar true "'"])
       (mkParseState [] Eps NoAtom)).
Qed.

Lemma complete_boundary rest :
  exists st,
    parseFrom true Top (mkParseState [] Eps NoAtom) ("\b" ++ rest)
    = parseFrom true Top st rest
    /\ alternatives st = [].
Proof.
  complete_pattern (pushAtom (escapeAtom "b") (mkParseState [] Eps NoAtom)).
Qed.

Lemma complete_indent rest :
  exists st,
    parseFrom true Top (mkParseState [] Eps NoAtom) ("^\s*" ++ rest)
    = parseFrom true Top st rest
    /\ alternatives st = [].
Proof.
  complete_pattern
    (topChar "*" (pushAtom (escapeAtom "s")
                    (topChar "^" (mkParseState [] Eps NoAtom)))).
Qed.

Lemma complete_name_key rest :
  exists st,
    parseFrom true Top (mkParseState [] Eps NoAtom)
      (("name\s*=\s*" ++ Q) ++ rest)
    = parseFrom true Top st rest
    /\ alternatives st = [].
Proof.
  complete_pattern
    (pushAtom (Cls false [eqChar true "034"; eqChar true "'"])
       (topChar "*" (pushAtom (escapeAtom "s")
          (topChar "=" (topChar "*" (pushAtom (escapeAtom "s")
             (topChar "e" (topChar "m" (topChar "a" (topChar "n"
                (mkParseState [] Eps NoAtom))))))))))).
Qed.

(** Every name-only pattern holds the name. *)
Lemma patterns_hold_name name fp p line :
  In p (patterns name fp) ->
  test p line = true ->
  includesCI name line = true.
Proof.
  unfold patterns. cbv zeta. intros Hin.
  apply in_concat in Hin as (group & Hgroup & Hin).
  cbn [In] in Hgroup.
  repeat destruct Hgroup as [<- | Hgroup]; try done;
    unfold when in Hin;
    repeat match type of Hin with
           | context [if ?b then _ else _] => destruct b
           end;
    cbn [In] in Hin;
    repeat destruct Hin as [<- | Hin]; try done.
  - apply (pattern_holds_text EmptyString name "@"); [apply complete_empty | done | done].
  - apply (pattern_holds_text Q name "@"); [apply complete_Q | done | done].
  - apply (pattern_holds_text ("name\s*=\s*" ++ Q) name Q);
      [apply complete_name_key | done | done].
  - apply (pattern_holds_text Q name (Q ++ "\s*=")); [apply complete_Q | done | done].
  - apply (pattern_holds_text Q name (Q ++ "\s*=")); [apply complete_Q | done | done].
  - apply (pattern_holds_text EmptyString name "\s*="); [apply complete_empty | done | done].
  - apply (pattern_holds_text "\b" name "\s*[<>=~=]");
      [apply complete_boundary | done | done].
  - apply (pattern_holds_text "^\s*" name "\s*[<>=~=]");
      [apply complete_indent | done | done].
  - apply (pattern_holds_text Q name Q); [apply complete_Q | done | done].
  - apply (pattern_holds_text Q name "@"); [apply complete_Q | done | done].
  - apply (pattern_holds_text "\b" name "\b"); [apply complete_boundary | done | done].
Qed.

Lemma lineFound_holds_name name fp line :
  lineFound name None fp line = true -> includesCI name line = true.
Proof.
  unfold lineFound, escapedVersion. cbv zeta. cbn [negb].
  intros H. apply existsb_exists in H as (p & Hp & H).
  by apply (patterns_hold_name name fp p line).
Qed.

(** Property X26.  With no version asked for, in a file that is not one of
    the three lock files scanned by blocks, every line the search reports
    holds the name of the component, letters compared without case: the
    characters of the name that mean something in a pattern are taken as
    they are. *)
Theorem reported_lines_hold_name name fp rel text r :
  blockScanned fp = false ->
  In r (searchInFile name None fp rel (Some text)) ->
  exists i,
    reportsLine (splitLines text) i r
    /\ includesCI name (nth i (splitLines text) EmptyString) = true.
Proof.
  unfold blockScanned, searchInFile, scanLines. intros -> Hin.
  unfold lineScan in Hin. apply in_flat_map in Hin as (i & Hi & Hin).
  apply in_seq in Hi. cbv zeta in Hin.
  destruct (lineFound name None fp (lineAt (splitLines text) i)) eqn:Hfound;
    [ | destruct Hin].
  destruct Hin as [<-|[]]. exists i. split.
  - repeat split. lia.
  - by apply (lineFound_holds_name name fp).
Qed.

Lemma reported_lines_hold_name_witness :
  exists i,
    reportsLine (splitLines packageJson) i
      (mkDependencyLocation "/w/package.json" "package.json" (Some 3%nat)
         (Some (dq ++ "left-pad" ++ dq ++ ": " ++ dq ++ "1.3.0" ++ dq)))
    /\ includesCI "left-pad" (nth i (splitLines packageJson) EmptyString) = true.
Proof.
  apply (reported_lines_hold_name "left-pad" "/w/package.json" "package.json"
           packageJson).
  - reflexivity.
  - vm_compute. left. reflexivity.
Defined.

Lemma stripPrefix_app ci a b : forall l rest,
  stripPrefix ci (a ++ b) l = Some rest ->
  exists mid, stripPrefix ci a l = Some mid /\ stripPrefix ci b mid = Some rest.
Proof.
  induction a as [|c a IH]; intros l rest H.
  - by exists l.
  - change (String c a ++ b) with (String c (a ++ b)) in H.
    destruct l as [|d l]; [done | ]. cbn [stripPrefix] in H |- *.
    destruct (if ci then _ else _); [by apply IH | done].
Qed.

Lemma includesCI_position text : forall whole,
  includesCI text whole = true ->
  exists pre l rest, whole = pre ++ l /\ stripPrefix true text l = Some rest.
Proof.
  induction whole as [|c whole IH]; cbn [includesCI]; intros H.
  - destruct (stripPrefix true text EmptyString) as [rest|] eqn:E; [ | done].
    by exists EmptyString, EmptyString, rest.
  - destruct (stripPrefix true text (String c whole)) as [rest|] eqn:E.
    + by exists EmptyString, (String c whole), rest.
    + apply IH in H as (pre & l & rest & -> & H).
      by exists (String c pre), l, rest.
Qed.

Lemma matchText_complete text : forall prev l rest k,
  stripPrefix true text l = Some rest ->
  (forall p, k p rest = true) ->
  matchText true text prev l k = true.
Proof.
  induction text as [|c text IH]; intros prev l rest k H Hk.
  - injection H as ->. apply Hk.
  - destruct l as [|d l]; [done | ]. cbn [stripPrefix matchText] in H |- *.
    unfold eqChar. destruct (Ascii.eqb _ _); [by eapply IH | done].
Qed.

Lemma searchFrom_complete ci r pre l :
  (forall prev, matchRe ci r prev l (fun _ _ => true) = true) ->
  forall prev, searchFrom ci r prev (pre ++ l) = true.
Proof.
  intros H. induction pre as [|c pre IH]; intros prev.
  - change (EmptyString ++ l) with l. destruct l; cbn [searchFrom]; by rewrite H.
  - change (String c pre ++ l) with (String c (pre ++ l)).
    cbn [searchFrom]. rewrite IH. apply orb_true_r.
Qed.

Lemma parse_quoted name :
  parse true (Q ++ escapeRegExp name ++ Q)
  = Cat (flush (feed (pushAtom (Cls false [eqChar true "034"; eqChar true "'"])
                        (mkParseState [] Eps NoAtom)) name))
      (Cls false [eqChar true "034"; eqChar true "'"]).
Proof.
  unfold parse.
  change (Q ++ escapeRegExp name ++ Q)
    with (String "[" (String "034" (String "'" (String "]"
            (escapeRegExp name ++ Q))))).
  cbn [parseFrom Ascii.eqb Bool.eqb backslash app].
  rewrite parseFrom_escapeRegExp_app.
  change Q with (String "[" (String "034" (String "'" (String "]" EmptyString)))).
  cbn [parseFrom Ascii.eqb Bool.eqb backslash app alternatives pushAtom].
  rewrite alternatives_feed. reflexivity.
Qed.

(** A line that holds the name between double quotes is found by the
    pattern of the quoted name. *)
Lemma quoted_name_found name line :
  includesCI (dq ++ name ++ dq) line = true ->
  test (Q ++ escapeRegExp name ++ Q) line = true.
Proof.
  intros H. apply includesCI_position in H as (pre & l & rest & -> & H).
  unfold test. rewrite parse_quoted. apply searchFrom_complete. intros prev.
  cbn [matchRe]. rewrite matchRe_feed.
  change (dq ++ name ++ dq) with (String "034" (name ++ dq)) in H.
  destruct l as [|q l]; [done | ]. cbn [stripPrefix] in H.
  destruct (Ascii.eqb (toLower "034") (toLower q)) eqn:Hq; [ | done].
  apply stripPrefix_app in H as (mid & Hname & Hend).
  cbn [flush pushAtom pending sequence matchRe existsb xorb].
  unfold eqChar at 1. rewrite Hq. cbn [orb].
  apply (matchText_complete name _ _ mid); [done | ].
  intros p. destruct mid as [|q2 mid]; [done | ].
  unfold dq in Hend. cbn [stripPrefix] in Hend.
  cbn [matchRe existsb xorb]. unfold eqChar at 1.
  by destruct (Ascii.eqb (toLower "034") (toLower q2)).
Qed.

(** Property X27.  A line that holds the name of the component between
    double quotes, letters compared without case, is reported in every file
    that is not scanned by blocks, whatever the kind of the file and
    whether a version is asked for or not. *)
Theorem quoted_name_is_reported name version fp rel text i :
  blockScanned fp = false ->
  (i < length (splitLines text))%nat ->
  includesCI (dq ++ name ++ dq) (nth i (splitLines text) EmptyString) = true ->
  In (mkDependencyLocation fp rel (Some (i + 1)%nat)
        (Some (Str.trim (nth i (splitLines text) EmptyString))))
     (searchInFile name version fp rel (Some text)).
Proof.
  unfold blockScanned, searchInFile, scanLines. intros -> Hi Hline.
  unfold lineScan. apply in_flat_map. exists i.
  split; [apply in_seq; lia | ]. cbv zeta.
  assert (Hfound : lineFound name version fp (lineAt (splitLines text) i) = true).
  { unfold lineFound. cbv zeta.
    assert (Hp : existsb (fun p => test p (lineAt (splitLines text) i))
                   (patterns name fp) = true).
    { apply existsb_exists. exists (Q ++ escapeRegExp name ++ Q).
      split; [ | by apply quoted_name_found].
      unfold patterns. cbv zeta. apply in_concat.
      eexists. split; [do 4 right; left; reflexivity | ].
      left. reflexivity. }
    rewrite Hp.
    match goal with |- (if negb ?f then _ else _) = _ => by destruct f end. }
  rewrite Hfound. left. reflexivity.
Qed.

Lemma quoted_name_is_reported_witness :
  In (mkDependencyLocation "/w/package.json" "package.json" (Some (2 + 1)%nat)
        (Some (Str.trim (nth 2 (splitLines packageJson) EmptyString))))
     (searchInFile "LEFT-pad" (Some "9.9.9") "/w/package.json" "package.json"
        (Some packageJson)).
Proof.
  apply (quoted_name_is_reported "LEFT-pad" (Some "9.9.9") "/w/package.json"
           "package.json" packageJson 2); [reflexivity | | reflexivity].
  vm_compute. lia.
Defined.

End PatternFacts.

(** * The state the tree and the panel show *)

Section BadgeFacts.

Import TriageStore StoreOps Client Submit SubmitOps Badges Samples.

(** Property X28.  The tree and the panel show the same state of a finding:
    the text the tree item adds is the text of the badge of the panel after
    a space, and nothing where the badge says that the finding is not
    submitted; the context value of the item is [findingSubmitted] exactly
    when the panel is told that the finding is submitted. *)
Theorem tree_and_badge_agree (triage : option TriageData) :
  statusText triage
  = (if fst (statusReply triage)
     then " " ++ updateStatusBadge (fst (statusReply triage))
                   (snd (statusReply triage))
     else EmptyString)
  /\ contextValue triage
     = (if fst (statusReply triage) then "findingSubmitted" else "finding").
Proof.
  destruct triage as [[i m s [[|]|] sat [[|]|] oi om os]|]; by split.
Qed.

(** Property X29.  After a submission that went through for a finding that is
    one of its own aggregated ids, and after any updates made since, the
    tree item of the finding reads Modified when a field of its record
    differs from what was frozen at the submission, and Submitted when none
    does; the frozen fields are those of the record that was validated. *)
Theorem shown_state_after_submit config server clock panel finding store0
    triage (ops : list Op) :
  get (id finding) store0 = Some triage ->
  isValid (validateTriageData (Some triage)) = true ->
  apiToken config <> EmptyString ->
  url config <> EmptyString ->
  In (id finding) (originalFindingIds finding) ->
  (forall data,
     Forall (fun j => server j (updateData data) = None)
       (originalFindingIds finding)) ->
  forallb isUpdate ops = true ->
  exists r,
    get (id finding)
      (run ops (fst (submitTriage config server clock panel (Some finding)
                       store0)))
    = Some r
    /\ originalImpact r = impact triage
    /\ originalMitigation r = mitigation triage
    /\ originalStatus r = status triage
    /\ contextValue (Some r) = "findingSubmitted"
    /\ (differs r -> statusText (Some r) = " ✏️ Modified")
    /\ (~ differs r -> statusText (Some r) = " ✓ Submitted").
Proof.
  intros Hget Hvalid Htok Hurl Hown Hok Hops.
  destruct (validateTriageData_valid _ Hvalid)
    as (i0 & m0 & s0 & Hi0 & Hti & Hm0 & Htm & Hs0).
  destruct (submitTriage_run config server clock panel finding store0 triage
              Hget Hvalid Htok Hurl) as (i & m & s & Hi & Hm & Hs & Hrun).
  assert (Hfinal :
    fst (submitTriage config server clock panel (Some finding) store0)
    = markAll clock 0 (originalFindingIds finding) store0).
  { rewrite Hrun. cbv zeta.
    match goal with |- context [loop _ _ ?a ?d ?n ?l ?st] =>
      destruct (loop_store server clock a d n l [] st) as [H1 _];
        [apply Hok | done | ];
      rewrite app_nil_r in H1;
      destruct (loop server clock a d n l st) as [st' [msg|]]
    end; exact H1. }
  rewrite Hfinal.
  pose proof (markAll_in clock (originalFindingIds finding) 0%nat store0
                (id finding) Hown) as Hmark.
  rewrite Hget in Hmark. destruct Hmark as (now & Hmark).
  assert (Hfr : frozen (submittedCopy now triage)).
  { unfold frozen, submittedCopy. cbn. rewrite Hi0, Hm0, Hs0. by rewrite Hti. }
  assert (Htr : tracked (submittedCopy now triage)).
  { unfold tracked, differs, submittedCopy. cbn. split; split; (tauto || done). }
  destruct (run_tracked ops _ (id finding) _ Hops Hmark Hfr Htr)
    as (r & Hr & (Hsub & _) & [Ht Hf] & Ho1 & Ho2 & Ho3).
  exists r. split; [done | ]. repeat split; try done.
  - unfold contextValue. by rewrite Hsub.
  - intros Hd. apply Ht in Hd. unfold statusText. by rewrite Hsub, Hd.
  - intros Hd. apply Hf in Hd. unfold statusText. by rewrite Hsub, Hd.
Qed.

Lemma shown_state_after_submit_witness :
  exists r,
    get (id pomComposite)
      (run [OpUpdateImpact 1 "none"]
         (fst (submitTriage connection healthy clock None (Some pomComposite)
                 drafts)))
    = Some r
    /\ originalImpact r = impact draft
    /\ originalMitigation r = mitigation draft
    /\ originalStatus r = status draft
    /\ contextValue (Some r) = "findingSubmitted"
    /\ (differs r -> statusText (Some r) = " ✏️ Modified")
    /\ (~ differs r -> statusText (Some r) = " ✓ Submitted").
Proof.
  apply (shown_state_after_submit connection healthy clock None pomComposite
           drafts draft [OpUpdateImpact 1 "none"]);
    try reflexivity; try discriminate.
  - left. reflexivity.
  - intros data. by repeat constructor.
Defined.

End BadgeFacts.
